(** * rstan [chains.cpp]: effective sample size and split R-hat

    A shallow embedding of [src/rstan/rstan/src/chains.cpp] and the
    properties stated about it.

    - C++ [double] arithmetic is kept abstract behind the class [Double],
      the way the Stan math functions are templated over their scalar
      type.  The code is written once and run at two instances: IEEE
      binary64 (Rocq's primitive floats), on which concrete inputs are
      evaluated exactly as the machine does, and the real numbers, the
      idealisation in which algebraic properties of the algorithms are
      stated (rounding is not analysed).
    - [unsigned int] values are integers in [Z] with the wrap-around modulo
      [2^32] written out.
    - An R object ([SEXP]) is a small inductive type; an R list is an
      association list from names to objects.
    - A call either returns, throws a C++ exception (turned into an R error
      by [BEGIN_RCPP]/[END_RCPP]) or has undefined behaviour (an unchecked
      access out of range): the type [result]. *)

From Stdlib Require Import String DecimalString ZArith List Bool Lia.
From Stdlib Require Import Reals Lra.
From Stdlib Require Import Floats.
Import ListNotations.

Set Implicit Arguments.

(** ** Results of a call *)

Inductive exn : Type :=
| domain_error (msg : string)
| out_of_range (msg : string)
| not_compatible
| index_out_of_bounds.

Inductive result (A : Type) : Type :=
| Ok (a : A)
| Throw (e : exn)
| Undefined.

Arguments Ok {A} a.
Arguments Throw {A} e.
Arguments Undefined {A}.

Definition bind {A B : Type} (c : result A) (k : A -> result B) : result B :=
  match c with
  | Ok a => k a
  | Throw e => Throw e
  | Undefined => Undefined
  end.

Declare Scope result_scope.
Delimit Scope result_scope with result.
Notation "'do' x <- c ; k" := (bind c (fun x => k))
  (at level 10, x name, c at level 100, k at level 200) : result_scope.
Notation "'do' ' p <- c ; k" := (bind c (fun x => match x with p => k end))
  (at level 10, p pattern, c at level 100, k at level 200) : result_scope.
Notation "c ;; k" := (bind c (fun _ => k))
  (at level 100, k at level 200, right associativity) : result_scope.
Open Scope result_scope.

(** [mapM f l] runs [f] on the elements of [l] from left to right and stops
    at the first one that does not return. *)
Fixpoint mapM {A B : Type} (f : A -> result B) (l : list A) : result (list B) :=
  match l with
  | [] => Ok []
  | a :: l' => do b <- f a; do bs <- mapM f l'; Ok (b :: bs)
  end.

(** An unchecked [operator[]]: reading out of range is undefined. *)
Definition at_ {A : Type} (v : list A) (i : Z) : result A :=
  if (i <? 0)%Z then Undefined
  else match nth_error v (Z.to_nat i) with
       | Some a => Ok a
       | None => Undefined
       end.

(** An unchecked write [v[i] = a]. *)
Fixpoint set_nth {A : Type} (v : list A) (i : nat) (a : A) : list A :=
  match v, i with
  | [], _ => []
  | _ :: v', O => a :: v'
  | x :: v', S i' => x :: set_nth v' i' a
  end.

Definition store {A : Type} (v : list A) (i : Z) (a : A) : result (list A) :=
  if (i <? 0)%Z then Undefined
  else if (Z.to_nat i <? length v)%nat then Ok (set_nth v (Z.to_nat i) a)
  else Undefined.

(** ** [unsigned int] *)

Definition u32 (z : Z) : Z := (z mod 2 ^ 32)%Z.

(** ** [double] *)

Class Double (T : Type) : Type := {
  of_int : Z -> T;            (* conversion of an integer value to double *)
  to_int : T -> option Z;     (* cast to an integer type: truncation *)
  dadd : T -> T -> T;
  dsub : T -> T -> T;
  dmul : T -> T -> T;
  ddiv : T -> T -> T;
  dsqrt : T -> T;
  dge : T -> T -> bool;       (* x >= y *)
  dgt : T -> T -> bool        (* x > y *)
}.

Declare Scope double_scope.
Delimit Scope double_scope with D.
Infix "+" := dadd : double_scope.
Infix "-" := dsub : double_scope.
Infix "*" := dmul : double_scope.
Infix "/" := ddiv : double_scope.
Infix ">=?" := dge (at level 70, no associativity) : double_scope.
Infix ">?" := dgt (at level 70, no associativity) : double_scope.

(** *** IEEE binary64 *)

Module Binary64.

Definition of_int (z : Z) : float :=
  match z with
  | Z0 => PrimFloat.of_uint63 (Uint63.of_Z 0)
  | Zpos _ => PrimFloat.of_uint63 (Uint63.of_Z z)
  | Zneg _ => PrimFloat.opp (PrimFloat.of_uint63 (Uint63.of_Z (- z)))
  end.

Definition to_int (x : float) : option Z :=
  match Prim2SF x with
  | S754_zero _ => Some 0%Z
  | S754_finite s m e =>
      let a := match e with
               | Zneg k => Z.shiftr (Zpos m) (Zpos k)
               | _ => Z.shiftl (Zpos m) e
               end in
      Some (if s then (- a)%Z else a)
  | _ => None
  end.

Definition ge (x y : float) : bool := PrimFloat.leb y x.
Definition gt (x y : float) : bool := PrimFloat.ltb y x.

End Binary64.

#[export] Instance binary64 : Double float := {
  of_int := Binary64.of_int;
  to_int := Binary64.to_int;
  dadd := PrimFloat.add;
  dsub := PrimFloat.sub;
  dmul := PrimFloat.mul;
  ddiv := PrimFloat.div;
  dsqrt := PrimFloat.sqrt;
  dge := Binary64.ge;
  dgt := Binary64.gt
}.

(** *** Exact real arithmetic

    The idealisation of [double]: nothing is rounded, and there is no NaN
    and no infinity.  Division is [Rdiv], which is total with
    [x / 0 = 0], where the code's [double] gives NaN or an infinity: a
    value computed in this instance is a value of the code's formulas only
    where no divisor is zero.  The theorems that state values of the
    diagnostics over this instance carry the hypotheses that make it so
    ([var_plus > 0], [var_within > 0], two draws at least), and what the
    code does where a divisor is zero is stated in binary64. *)

Module Exact.

Definition to_int (x : R) : option Z :=
  Some (if Rle_dec 0 x then (up x - 1)%Z else (- (up (- x) - 1))%Z).

Definition ge (x y : R) : bool := if Rle_dec y x then true else false.
Definition gt (x y : R) : bool := if Rlt_dec y x then true else false.

End Exact.

#[export] Instance exact : Double R := {
  of_int := IZR;
  to_int := Exact.to_int;
  dadd := Rplus;
  dsub := Rminus;
  dmul := Rmult;
  ddiv := Rdiv;
  dsqrt := R_sqrt.sqrt;
  dge := Exact.ge;
  dgt := Exact.gt
}.

(** ** The code, for any scalar type *)

Section Code.

Context {T : Type} {D : Double T}.
Local Open Scope double_scope.

(** *** Stan math *)

(** Modelled from the spec: [stan::math::sum] (the Stan math library is
    not part of the repository); the sum of the elements, accumulated
    from the first to the last. *)
Definition sum (v : list T) : T := fold_left dadd v (of_int 0).

(** Modelled from the spec: [stan::math::mean] and the mean of the Boost
    accumulator set, "arithmetic mean" (4.2): the sum divided by the
    number of elements.  The spec is silent on the empty vector; here it
    gets what the formula gives. *)
Definition mean (v : list T) : T := sum v / of_int (Z.of_nat (length v)).

(** Modelled from the spec: [stan::math::variance], "unbiased sample
    variance (divide by N-1)", "undefined (division by zero in N-1)" for a
    single element (4.2). *)
Definition variance (v : list T) : T :=
  let m := mean v in
  sum (map (fun x => (x - m) * (x - m)) v)
  / of_int (Z.of_nat (length v) - 1).

(** Modelled from the spec: the products [(x[i] - mean) (x[i+t] - mean)]
    over "all valid offsets" [i] of [stan::math::autocovariance] (4.1),
    [c] being the centred chain. *)
Definition lagged_products (c : list T) (t : nat) : list T :=
  map (fun p => fst p * snd p) (combine c (skipn t c)).

(** Modelled from the spec: [stan::math::autocovariance] (4.1): "an
    autocovariance sequence of length N (lags 0..N-1), where ... lag t
    equals the mean over all valid offsets of (x[i] - mean)(x[i+t] - mean),
    divided by N", by the direct formula. *)
Definition autocovariance (y : list T) : list T :=
  let m := mean y in
  let c := map (fun x => x - m) y in
  map (fun t => sum (lagged_products c t) / of_int (Z.of_nat (length y)))
      (seq 0 (length y)).

(** *** [Rcpp::NumericMatrix]: dimensions and column-major storage *)

Record NumericMatrix : Type := {
  nrow : nat;
  ncol : nat;
  storage : list T
}.

(** The dimensions of an R matrix are of type [int]. *)
Definition wf_matrix (nm : NumericMatrix) : Prop :=
  length (storage nm) = (nrow nm * ncol nm)%nat
  /\ (Z.of_nat (nrow nm) < 2 ^ 31)%Z
  /\ (Z.of_nat (ncol nm) < 2 ^ 31)%Z.

(** [nm(Rcpp::_, chain)] *)
Definition column (nm : NumericMatrix) (chain : nat) : list T :=
  firstn (nrow nm) (skipn (chain * nrow nm) (storage nm)).

Definition columns (nm : NumericMatrix) : list (list T) :=
  map (column nm) (seq 0 (ncol nm)).

Definition matrix_of_columns (n : nat) (cols : list (list T)) : NumericMatrix :=
  {| nrow := n; ncol := length cols; storage := concat cols |}.

(** *** Split R-hat *)

(** The two [split_chain.assign] calls of both entry points:
    [samples.begin() .. samples.begin() + half] and
    [samples.end() - half .. samples.end()].  An iterator range that
    leaves the vector is undefined. *)
Definition split_chain (samples : list T) (half : Z) : result (list (list T)) :=
  if (half <? 0)%Z || (Z.of_nat (length samples) <? half)%Z then Undefined
  else Ok [firstn (Z.to_nat half) samples;
           skipn (length samples - Z.to_nat half) samples].

(** [if (n_samples % 2 == 1) n_samples--;] *)
Definition make_even (n_samples : Z) : Z :=
  if (n_samples mod 2 =? 1)%Z then u32 (n_samples - 1) else n_samples.

(** The tail shared by both entry points ("copied and pasted from
    split_potential_scale_reduction"): [split_chains] holds, chain after
    chain, the first and the second half. *)
Definition var_between (n_samples : Z) (split_chains : list (list T)) : T :=
  let split_chain_mean := map mean split_chains in
  of_int (n_samples / 2) * variance split_chain_mean.

Definition var_within (split_chains : list (list T)) : T :=
  let split_chain_var := map variance split_chains in
  mean split_chain_var.

Definition split_rhat (n_samples : Z) (split_chains : list (list T)) : T :=
  dsqrt ((var_between n_samples split_chains / var_within split_chains
          + of_int (n_samples / 2) - of_int 1)
         / of_int (n_samples / 2)).

Definition split_chains2 (nm : NumericMatrix) : result (list (list T)) :=
  let n_samples := make_even (Z.of_nat (nrow nm)) in
  do halves <- mapM (fun samples => split_chain samples (n_samples / 2))
                    (columns nm);
  Ok (concat halves).

Definition split_potential_scale_reduction2 (nm : NumericMatrix) : result T :=
  let n_samples := make_even (Z.of_nat (nrow nm)) in
  do split_chains <- split_chains2 nm;
  Ok (split_rhat n_samples split_chains).

(** *** Effective sample size, matrix input *)

(** [1 - (mean_var - stan::math::mean(acov_t)) / var_plus], with [acov_t]
    the lag-[t] autocovariance of every chain. *)
Definition rho_hat_at (acov : list (list T)) (mean_var var_plus : T) (t : Z)
  : result T :=
  do acov_t <- mapM (fun acov_chain => at_ acov_chain t) acov;
  Ok (of_int 1 - (mean_var - mean acov_t) / var_plus).

(** [for (size_t t = 1; (t < n_samples && rho_hat >= 0); t++)]; the loop
    leaves within [n_samples] rounds, [fuel] only makes that structural. *)
Fixpoint ess2_loop (fuel : nat) (acov : list (list T)) (mean_var var_plus : T)
    (n_samples : Z) (t : Z) (rho_hat : T) (rho_hat_t : list T)
  : result (list T) :=
  if (t <? n_samples)%Z && (rho_hat >=? of_int 0) then
    match fuel with
    | O => Undefined
    | S fuel' =>
        do rho_hat' <- rho_hat_at acov mean_var var_plus t;
        let rho_hat_t' :=
          if rho_hat' >=? of_int 0 then rho_hat_t ++ [rho_hat'] else rho_hat_t in
        ess2_loop fuel' acov mean_var var_plus n_samples (t + 1) rho_hat' rho_hat_t'
    end
  else Ok rho_hat_t.

(** [var_plus], from [mean_var] and the chain means. *)
Definition var_plus_of (m n_samples : Z) (mean_var : T) (chain_mean : list T) : T :=
  let var_plus := mean_var * of_int (u32 (n_samples - 1)) / of_int n_samples in
  if (1 <? m)%Z then var_plus + variance chain_mean else var_plus.

(** [acov], [mean_var] and [var_plus] of [effective_sample_size2]. *)
Definition ess2_moments (nm : NumericMatrix) : result (list (list T) * T * T) :=
  let m := Z.of_nat (ncol nm) in
  let n_samples := Z.of_nat (nrow nm) in
  let acov := map autocovariance (columns nm) in
  let chain_mean := map mean (columns nm) in
  do chain_var <-
    mapM (fun acov_chain =>
            do acov0 <- at_ acov_chain 0;
            Ok (acov0 * of_int n_samples / of_int (u32 (n_samples - 1))))
         acov;
  let mean_var := mean chain_var in
  let var_plus := var_plus_of m n_samples mean_var chain_mean in
  Ok (acov, mean_var, var_plus).

Definition effective_sample_size2 (nm : NumericMatrix) : result T :=
  let m := Z.of_nat (ncol nm) in
  let n_samples := Z.of_nat (nrow nm) in
  do '(acov, mean_var, var_plus) <- ess2_moments nm;
  do rho_hat_t <-
    ess2_loop (nrow nm) acov mean_var var_plus n_samples 1 (of_int 0) [];
  let ess := of_int (u32 (m * n_samples)) in
  if (0 <? length rho_hat_t)%nat
  then Ok (ess / (of_int 1 + of_int 2 * sum rho_hat_t))
  else Ok ess.

(** *** R objects *)

Inductive SEXPTYPE : Type := NILSXP | INTSXP | REALSXP | STRSXP | VECSXP.

(** An R list carries a name with every element ([EmptyString] for an
    element without a name). *)
Local Unset Elimination Schemes.
Inductive SEXP : Type :=
| RNull
| RInteger (v : list Z)
| RNumeric (v : list T)
| RCharacter (v : list string)
| RList (v : list (string * SEXP)).
Local Set Elimination Schemes.

Definition TYPEOF (x : SEXP) : SEXPTYPE :=
  match x with
  | RNull => NILSXP
  | RInteger _ => INTSXP
  | RNumeric _ => REALSXP
  | RCharacter _ => STRSXP
  | RList _ => VECSXP
  end.

Definition SEXPTYPE_eqb (a b : SEXPTYPE) : bool :=
  match a, b with
  | NILSXP, NILSXP | INTSXP, INTSXP | REALSXP, REALSXP
  | STRSXP, STRSXP | VECSXP, VECSXP => true
  | _, _ => false
  end.

Definition Rf_type2char (t : SEXPTYPE) : string :=
  match t with
  | NILSXP => "NULL"
  | INTSXP => "integer"
  | REALSXP => "double"
  | STRSXP => "character"
  | VECSXP => "list"
  end.

Definition Rf_length (x : SEXP) : Z :=
  match x with
  | RNull => 0
  | RInteger v => Z.of_nat (length v)
  | RNumeric v => Z.of_nat (length v)
  | RCharacter v => Z.of_nat (length v)
  | RList v => Z.of_nat (length v)
  end.

(** *** Rcpp conversions *)

(** [Rcpp::List lst(x)]: a list as it is, anything else through R's
    [as.list]. *)
Definition as_List (x : SEXP) : result (list (string * SEXP)) :=
  match x with
  | RNull => Ok []
  | RInteger v => Ok (map (fun z => (EmptyString, RInteger [z])) v)
  | RNumeric v => Ok (map (fun d => (EmptyString, RNumeric [d])) v)
  | RCharacter v => Ok (map (fun c => (EmptyString, RCharacter [c])) v)
  | RList v => Ok v
  end.

(** [lst.names()] *)
Definition names (lst : list (string * SEXP)) : list string := map fst lst.

(** [lst["name"]]: the first element of that name, [index_out_of_bounds]
    when there is none. *)
Fixpoint by_name (lst : list (string * SEXP)) (name : string) : result SEXP :=
  match lst with
  | [] => Throw index_out_of_bounds
  | (k, x) :: lst' => if String.eqb k name then Ok x else by_name lst' name
  end.

Definition NA_INTEGER : Z := (- 2 ^ 31)%Z.

(** R's coercion of a double to an integer. *)
Definition coerce_int (d : T) : Z :=
  match to_int d with
  | Some z => if (NA_INTEGER <? z)%Z && (z <? 2 ^ 31)%Z then z else NA_INTEGER
  | None => NA_INTEGER
  end.

(** [Rcpp::NumericVector nv(x)] *)
Definition as_NumericVector (x : SEXP) : result (list T) :=
  match x with
  | RNumeric v => Ok v
  | RInteger v => Ok (map of_int v)
  | _ => Throw not_compatible
  end.

(** [Rcpp::IntegerVector iv(x)] *)
Definition as_IntegerVector (x : SEXP) : result (list Z) :=
  match x with
  | RInteger v => Ok v
  | RNumeric v => Ok (map coerce_int v)
  | _ => Throw not_compatible
  end.

(** [static_cast<unsigned int>] of a double: undefined unless the
    truncated value is representable. *)
Definition to_unsigned (z : option Z) : result Z :=
  match z with
  | Some z => if (0 <=? z)%Z && (z <? 2 ^ 32)%Z then Ok z else Undefined
  | None => Undefined
  end.

(** [Rcpp::as<std::vector<unsigned int> >(x)]: Rcpp stores
    [unsigned int] as double. *)
Definition as_unsigned_vector (x : SEXP) : result (list Z) :=
  match x with
  | RInteger v => mapM (fun z => to_unsigned (Some z)) v
  | RNumeric v => mapM (fun d => to_unsigned (to_int d)) v
  | _ => Throw not_compatible
  end.

(** [Rcpp::as<unsigned int>(x)]: a single value is expected. *)
Definition as_unsigned (x : SEXP) : result Z :=
  if (Rf_length x =? 1)%Z then
    do v <- as_unsigned_vector x; at_ v 0
  else Throw not_compatible.

(** [Rcpp::as<int>(x)] *)
Definition as_int (x : SEXP) : result Z :=
  if (Rf_length x =? 1)%Z then
    do v <- as_IntegerVector x; at_ v 0
  else Throw not_compatible.

(** [msg << n] *)
Definition show (n : Z) : string := NilZero.string_of_int (Z.to_int n).

(** *** namespace rstan *)

Definition snames : list string :=
  ["chains"; "n_flatnames"; "n_save"; "warmup2"; "samples"; "permutation"]%string.

(** The loop of [validate_sim] over [snames]. *)
Fixpoint check_names (required found : list string) : result unit :=
  match required with
  | [] => Ok tt
  | it :: required' =>
      if existsb (String.eqb it) found then check_names required' found
      else Throw (domain_error
             ("the simulation results (sim) does not contain " ++ it))
  end.

Definition validate_sim (sim : SEXP) : result unit :=
  do lst <- as_List sim;
  check_names snames (names lst) ;;
  do chains <- by_name lst "chains";
  let type := TYPEOF chains in
  if negb (SEXPTYPE_eqb type INTSXP) && negb (SEXPTYPE_eqb type REALSXP) then
    Throw (domain_error ("wrong type of chains in sim; found "
                         ++ Rf_type2char type
                         ++ ", but INTSXP/REALSXP needed"))
  else
    do sample_sexp <- by_name lst "samples";
    if negb (SEXPTYPE_eqb (TYPEOF sample_sexp) VECSXP) then
      Throw (domain_error "sim$samples is not a list")
    else
      do samples <- as_List sample_sexp;
      let nchains2 := Z.of_nat (length samples) in
      do chains' <- as_int chains;
      if negb (nchains2 =? chains')%Z then
        Throw (domain_error
                 ("the number of chains specified is different from "
                  ++ "the one found in samples"))
      else Ok tt.

Definition num_chains (sim : SEXP) : result Z :=
  do lst <- as_List sim;
  do chains <- by_name lst "chains";
  as_unsigned chains.

Definition num_params (sim : SEXP) : result Z :=
  do lst <- as_List sim;
  do n_flatnames <- by_name lst "n_flatnames";
  as_unsigned n_flatnames.

(** The front of [get_kept_samples] and [apply_kept_samples]: the vector
    of parameter [n] in chain [k], [n_save] and [warmup2]. *)
Definition chain_param (sim : SEXP) (k n : Z)
  : result (list T * list Z * list Z) :=
  do lst <- as_List sim;
  do samples <- by_name lst "samples";
  do allsamples <- as_List samples;
  do n_save_ <- by_name lst "n_save";
  do n_save <- as_IntegerVector n_save_;
  do warmup2_ <- by_name lst "warmup2";
  do warmup2 <- as_IntegerVector warmup2_;
  do chain_k <- at_ (map snd allsamples) k;
  do slst <- as_List chain_k;
  do param_n <- at_ (map snd slst) n;
  do nv <- as_NumericVector param_n;
  Ok (nv, n_save, warmup2).

(** [samples.assign(warmup2[k] + nv.begin(), nv.end())]: [n_save] is read
    and not used. *)
Definition get_kept_samples (sim : SEXP) (k n : Z) : result (list T) :=
  do '(nv, n_save, warmup2) <- chain_param sim k n;
  do w <- at_ warmup2 k;
  if (w <? 0)%Z || (Z.of_nat (length nv) <? w)%Z then Undefined
  else Ok (skipn (Z.to_nat w) nv).

Definition validate_param_idx (sim : SEXP) (n : Z) : result unit :=
  do p <- num_params sim;
  if (n <? p)%Z then Ok tt
  else Throw (out_of_range
         ("parameter index must be less than number of params"
          ++ "; found n=" ++ show n)).

(** [void validate_chain_idx(SEXP sim, unsigned int k)]: the parameter is
    an [unsigned int]; an argument of a wider type, as the [size_t] that
    [get_chain_mean] passes, is converted to it, and it is the converted
    value that is compared and printed. *)
Definition validate_chain_idx (sim : SEXP) (k : Z) : result unit :=
  let k := u32 k in
  do m <- num_chains sim;
  if (m <=? k)%Z then
    Throw (out_of_range
             ("chain must be less than number of chains."
              ++ "; num chains=" ++ show m
              ++ "; chain=" ++ show k))
  else Ok tt.

(** [apply_kept_samples]: the values [nv[i]] handed to [f], for [i] from
    [warmup2[k]] up to [n_save[k]]. *)
Definition apply_kept_samples (sim : SEXP) (k n : Z) : result (list T) :=
  do '(nv, n_save, warmup2) <- chain_param sim k n;
  do w <- at_ warmup2 k;
  do s <- at_ n_save k;
  mapM (fun i => at_ nv (w + Z.of_nat i)) (seq 0 (Z.to_nat (s - w))).

(** [double get_chain_mean(SEXP sim, size_t k, size_t n)]: the chain index
    is checked as the [unsigned int] that [validate_chain_idx] takes, and
    used as the [size_t] it is in [apply_kept_samples]. *)
Definition get_chain_mean (sim : SEXP) (k n : Z) : result T :=
  validate_chain_idx sim k ;;
  validate_param_idx sim n ;;
  do acc <- apply_kept_samples sim k n;
  Ok (mean acc).

(** [rstan::autocovariance] *)
Definition autocovariance_sim (sim : SEXP) (k n : Z) : result (list T) :=
  do samples <- get_kept_samples sim k n;
  Ok (autocovariance samples).

(** *** The entry points on a simulation record *)

(** [for (size_t chain = 0; chain < m; chain++)] *)
Definition chains_upto (m : Z) : list Z := map Z.of_nat (seq 0 (Z.to_nat m)).

(** [ns_kept]: [ns_save] with [ns_kept[i] -= ns_warmup2[i]] for every
    [i < ns_kept.size()], in [unsigned int]. *)
Definition ns_kept_of (lst : list (string * SEXP)) : result (list Z) :=
  do n_save <- by_name lst "n_save";
  do ns_save <- as_unsigned_vector n_save;
  do warmup2 <- by_name lst "warmup2";
  do ns_warmup2 <- as_unsigned_vector warmup2;
  mapM (fun i => do s <- at_ ns_save (Z.of_nat i);
                 do w <- at_ ns_warmup2 (Z.of_nat i);
                 Ok (u32 (s - w)))
       (seq 0 (length ns_save)).

(** [n_samples = ns_kept[0]], then [std::min] with [ns_kept[chain]] for
    the chains from 1. *)
Definition min_kept (ns_kept : list Z) (m : Z) : result Z :=
  do first <- at_ ns_kept 0;
  fold_left (fun acc chain =>
               do n_samples <- acc;
               do kept <- at_ ns_kept (Z.of_nat chain);
               Ok (Z.min n_samples kept))
            (seq 1 (Z.to_nat m - 1)) (Ok first).

(** Geyer's initial positive sequence:
    [for (int t = 1; (t < (n_samples - 2) && (rho_hat_even + rho_hat_odd) >= 0); t += 2)].
    The comparison with [n_samples - 2] is made in [unsigned int]. *)
Fixpoint positive_loop (fuel : nat) (acov : list (list T)) (mean_var var_plus : T)
    (n_samples : Z) (t : Z) (rho_hat_even rho_hat_odd : T)
    (rho_hat_t : list T) (max_t : Z) : result (list T * Z) :=
  if (t <? u32 (n_samples - 2))%Z && (rho_hat_even + rho_hat_odd >=? of_int 0) then
    match fuel with
    | O => Undefined
    | S fuel' =>
        do even <- rho_hat_at acov mean_var var_plus (t + 1);
        do odd <- rho_hat_at acov mean_var var_plus (t + 2);
        do rho_hat_t' <-
          (if even + odd >=? of_int 0 then
             do r <- store rho_hat_t (t + 1) even; store r (t + 2) odd
           else Ok rho_hat_t);
        positive_loop fuel' acov mean_var var_plus n_samples (t + 2)
                      even odd rho_hat_t' (t + 2)
    end
  else Ok (rho_hat_t, max_t).

(** Geyer's initial monotone sequence:
    [for (int t = 3; t <= max_t - 2; t += 2)]. *)
Fixpoint monotone_loop (fuel : nat) (t max_t : Z) (rho_hat_t : list T)
  : result (list T) :=
  if (t <=? max_t - 2)%Z then
    match fuel with
    | O => Undefined
    | S fuel' =>
        do next_even <- at_ rho_hat_t (t + 1);
        do next_odd <- at_ rho_hat_t (t + 2);
        do prev_even <- at_ rho_hat_t (t - 1);
        do prev_odd <- at_ rho_hat_t t;
        do rho_hat_t' <-
          (if next_even + next_odd >? prev_even + prev_odd then
             do r <- store rho_hat_t (t + 1) ((prev_even + prev_odd) / of_int 2);
             do x <- at_ r (t + 1);
             store r (t + 2) x
           else Ok rho_hat_t);
        monotone_loop fuel' (t + 2) max_t rho_hat_t'
    end
  else Ok rho_hat_t.

(** The sequence [rho_hat_t] of [effective_sample_size] as the initial
    positive sequence leaves it, with [max_t]. *)
Definition initial_positive (acov : list (list T)) (mean_var var_plus : T)
    (n_samples : Z) : result (list T * Z) :=
  let rho_hat_t := repeat (of_int 0) (Z.to_nat n_samples) in
  do rho_hat_odd <- rho_hat_at acov mean_var var_plus 1;
  do rho_hat_t <- store rho_hat_t 1 rho_hat_odd;
  positive_loop (Z.to_nat n_samples) acov mean_var var_plus n_samples 1
                (of_int 1) rho_hat_odd rho_hat_t 1.

(** [acov], [mean_var], [var_plus], [m] and [n_samples] of
    [effective_sample_size]. *)
Definition ess_moments (sim : SEXP) (n_ : SEXP)
  : result (list (list T) * T * T * Z * Z) :=
  validate_sim sim ;;
  do lst <- as_List sim;
  do n <- as_unsigned n_;
  validate_param_idx sim n ;;
  do m <- num_chains sim;
  do ns_kept <- ns_kept_of lst;
  do n_samples <- min_kept ns_kept m;
  do acov <- mapM (fun chain => autocovariance_sim sim chain n) (chains_upto m);
  do moments <-
    mapM (fun chain =>
            do n_kept_samples <- at_ ns_kept chain;
            do chain_mean <- get_chain_mean sim chain n;
            do acov_chain <- at_ acov chain;
            do acov0 <- at_ acov_chain 0;
            Ok (chain_mean,
                acov0 * of_int n_kept_samples / of_int (u32 (n_kept_samples - 1))))
         (chains_upto m);
  let chain_mean := map fst moments in
  let chain_var := map snd moments in
  let mean_var := mean chain_var in
  let var_plus := var_plus_of m n_samples mean_var chain_mean in
  Ok (acov, mean_var, var_plus, m, n_samples).

Definition effective_sample_size (sim : SEXP) (n_ : SEXP) : result T :=
  do '(acov, mean_var, var_plus, m, n_samples) <- ess_moments sim n_;
  do '(rho_hat_t, max_t) <- initial_positive acov mean_var var_plus n_samples;
  do rho_hat_t <- monotone_loop (Z.to_nat n_samples) 3 max_t rho_hat_t;
  let ess := of_int (u32 (m * n_samples)) in
  Ok (ess / (of_int 1 + of_int 2 * sum rho_hat_t)).

(** The split chains of [split_potential_scale_reduction], with the even
    [n_samples] they were cut for. *)
Definition split_chains (sim : SEXP) (n_ : SEXP) : result (Z * list (list T)) :=
  validate_sim sim ;;
  do lst <- as_List sim;
  do n <- as_unsigned n_;
  do n_chains <- num_chains sim;
  do ns_kept <- ns_kept_of lst;
  do n_samples <- min_kept ns_kept n_chains;
  let n_samples := make_even n_samples in
  do halves <-
    mapM (fun chain =>
            do samples <- get_kept_samples sim chain n;
            split_chain samples (n_samples / 2))
         (chains_upto n_chains);
  Ok (n_samples, concat halves).

Definition split_potential_scale_reduction (sim : SEXP) (n_ : SEXP) : result T :=
  do '(n_samples, split_chains) <- split_chains sim n_;
  Ok (split_rhat n_samples split_chains).

End Code.

Arguments SEXP T : clear implicits.
Arguments NumericMatrix T : clear implicits.


(** ** The sequence of autocorrelations, lag by lag

    What the effective sample size sums, in the words of its description
    rather than as loops, to be compared with the loops of the code. *)

Section Geyer.

Context {T : Type} {D : Double T}.
Variables (acov : list (list T)) (mean_var var_plus : T) (n_samples : nat).
Local Open Scope double_scope.

(** "Each rho_hat at lag l is 1 - (mean_var - average over chains of the
    autocovariance at lag l) / var_plus". *)
Definition rho_hat (l : nat) : T :=
  of_int 1
  - (mean_var - mean (map (fun acov_chain => nth l acov_chain (of_int 0)) acov))
    / var_plus.

(** The lags are taken in pairs [(2 k, 2 k + 1)]; the correlation at lag
    0 is 1. *)
Definition pair_sum (k : nat) : T :=
  match k with
  | O => of_int 1 + rho_hat 1
  | _ => rho_hat (2 * k) + rho_hat (2 * k + 1)
  end.

(** The loop reaches the pair [k >= 1] (at [t = 2 k - 1]) while
    [t < n_samples - 2] and the sums of all pairs before it are [>= 0]. *)
Definition reached (k : nat) : bool :=
  (2 * k + 1 <? n_samples)%nat
  && forallb (fun j => pair_sum j >=? of_int 0) (seq 0 k).

(** A pair is accepted when it is reached and its own sum is [>= 0]. *)
Definition accepted (k : nat) : bool :=
  reached k && (pair_sum k >=? of_int 0).

(** "Unaccepted lags contribute 0"; lag 1 always counts, and lag 0 is the
    [1] of the divisor. *)
Definition positive_sequence_at (l : nat) : T :=
  match l with
  | 0%nat => of_int 0
  | 1%nat => rho_hat 1
  | _ => if accepted (l / 2) then rho_hat l else of_int 0
  end.

Definition positive_sequence : list T :=
  map positive_sequence_at (seq 0 n_samples).

(** The effective sample size of the initial positive sequence alone,
    with no monotone pass. *)
Definition positive_sequence_ess (m : Z) : T :=
  of_int (u32 (m * Z.of_nat n_samples))
  / (of_int 1 + of_int 2 * sum positive_sequence).

(** The simplified variant: the values at the lags [1 .. n_samples - 1],
    up to the first one that is not [>= 0]. *)
Fixpoint nonnegative_prefix (rho : list T) : list T :=
  match rho with
  | [] => []
  | r :: rho' => if r >=? of_int 0 then r :: nonnegative_prefix rho' else []
  end.

Definition single_sequence : list T :=
  nonnegative_prefix (map rho_hat (seq 1 (n_samples - 1))).

End Geyer.

(** The matrix with [c] added to every entry. *)
Definition add_constant {T : Type} {D : Double T} (nm : NumericMatrix T) (c : T)
  : NumericMatrix T :=
  {| nrow := nrow nm; ncol := ncol nm;
     storage := map (fun x => dadd x c) (storage nm) |}.

(** ** Concrete inputs *)

(** A vector of doubles with integer values. *)
Definition doubles {T : Type} {D : Double T} (v : list Z) : list T := map of_int v.

(** A simulation record with one parameter, [mu], and no permutation:
    [chains] and [n_flatnames], [n_save], [warmup2], and the stored vector
    of every chain. *)
Definition sim_fields {T : Type} (chains n_flatnames : Z) (n_save warmup2 : list Z)
    (stored : list (list T)) : list (string * SEXP T) :=
  [("chains", RInteger [chains]);
   ("n_flatnames", RInteger [n_flatnames]);
   ("n_save", RInteger n_save);
   ("warmup2", RInteger warmup2);
   ("samples",
    RList (map (fun nv => (EmptyString, RList [("mu", RNumeric nv)])) stored));
   ("permutation", RNull)]%string.

Definition sim_of {T : Type} (chains n_flatnames : Z) (n_save warmup2 : list Z)
    (stored : list (list T)) : SEXP T :=
  RList (sim_fields chains n_flatnames n_save warmup2 stored).

(** The record of a matrix of draws: a chain per column, no warmup. *)
Definition sim_of_matrix {T : Type} {D : Double T} (nm : NumericMatrix T) : SEXP T :=
  sim_of (Z.of_nat (ncol nm)) 1
         (repeat (Z.of_nat (nrow nm)) (ncol nm)) (repeat 0%Z (ncol nm))
         (columns nm).

(** What tells two doubles apart. *)
Definition same_double (a b : float) : bool :=
  match Prim2SF a, Prim2SF b with
  | S754_zero s, S754_zero s' => Bool.eqb s s'
  | S754_infinity s, S754_infinity s' => Bool.eqb s s'
  | S754_nan, S754_nan => true
  | S754_finite s m e, S754_finite s' m' e' =>
      Bool.eqb s s' && Pos.eqb m m' && Z.eqb e e'
  | _, _ => false
  end.

(** The same in binary64. *)
Definition binary64s (v : list Z) : list float := doubles v.

Definition chain7 : list float := binary64s [0; 1; 2; 3; 4; 5; 6]%Z.

Definition chain8 : list Z := [1; 2; 3; 4; 5; 6; 7; 8]%Z.

Definition constant_chain : list float := binary64s [5; 5; 5; 5]%Z.

(** The double nearest to 0.1. *)
Definition tenth : float := 0x1.999999999999ap-4%float.

(** A chain that goes up and down. *)
Definition uneven_chain : list Z := [1; 3; 2; 5; 4; 4; 6; 5]%Z.
Definition other_constant_chain : list float := binary64s [7; 7; 7; 7]%Z.

(** One chain of four draws of the only parameter. *)
Definition one_parameter : SEXP float :=
  sim_of 1 1 [4]%Z [0]%Z [binary64s [1; 2; 3; 4]%Z].

(** The same with a second vector stored in the chain, [n_flatnames] still 1. *)
Definition one_parameter_declared : SEXP float :=
  RList [("chains", RInteger [1]%Z);
         ("n_flatnames", RInteger [1]%Z);
         ("n_save", RInteger [4]%Z);
         ("warmup2", RInteger [0]%Z);
         ("samples",
          RList [(EmptyString,
                  RList [("mu", RNumeric (binary64s [1; 2; 3; 4]%Z));
                         ("lp__", RNumeric (binary64s [1; 3; 2; 5]%Z))])]);
         ("permutation", RNull)]%string.

(** [n_save] announces six saved draws, eight are stored. *)
Definition fewer_announced : SEXP float :=
  sim_of 1 1 [6]%Z [0]%Z [binary64s chain8].

(** [n_save] announces eight saved draws, six are stored. *)
Definition more_announced : SEXP float :=
  sim_of 1 1 [8]%Z [0]%Z [binary64s [1; 2; 3; 4; 5; 6]%Z].

(** Two chains of six draws. *)
Definition two_chains : SEXP float :=
  sim_of 2 1 [6; 6]%Z [0; 0]%Z
         [binary64s [5; 8; 3; 2; 5; 7]%Z; binary64s [0; 2; 8; 1; 3; 1]%Z].

(** Their autocovariances, [mean_var] and [var_plus]. *)
Definition two_chains_acov : list (list float) :=
  match ess_moments two_chains (RInteger [0]%Z) with
  | Ok (acov, _, _, _, _) => acov
  | _ => []
  end.

Definition two_chains_mean_var : float :=
  match ess_moments two_chains (RInteger [0]%Z) with
  | Ok (_, mean_var, _, _, _) => mean_var
  | _ => nan
  end.

Definition two_chains_var_plus : float :=
  match ess_moments two_chains (RInteger [0]%Z) with
  | Ok (_, _, var_plus, _, _) => var_plus
  | _ => nan
  end.

(** ** Rescaled draws *)

(** The matrix with every entry multiplied by [a]. *)
Definition scale_by {T : Type} {D : Double T} (nm : NumericMatrix T) (a : T)
  : NumericMatrix T :=
  {| nrow := nrow nm; ncol := ncol nm;
     storage := map (fun x => dmul a x) (storage nm) |}.

(** ** Reading comments *)

From Stdlib Require Import Ascii DecimalPos.

(** What a call outside the diagnostics can fail with: next to the
    exceptions of the diagnostics, [std::runtime_error] and
    [std::invalid_argument]. *)
Inductive failure : Type :=
| runtime_error (msg : string)
| invalid_argument (msg : string)
| thrown (e : exn).

Inductive outcome (A : Type) : Type :=
| Returns (a : A)
| Fails (f : failure)
| Unspecified.

Arguments Returns {A} a.
Arguments Fails {A} f.
Arguments Unspecified {A}.

(** A call into Rcpp. *)
Definition rcpp {A : Type} (c : result A) : outcome A :=
  match c with
  | Ok a => Returns a
  | Throw e => Fails (thrown e)
  | Undefined => Unspecified
  end.

Definition and_then {A B : Type} (c : outcome A) (k : A -> outcome B) : outcome B :=
  match c with
  | Returns a => k a
  | Fails f => Fails f
  | Unspecified => Unspecified
  end.

(** *** [std::fstream], open for reading

    The characters extracted so far (the last one first), the ones to
    come, and the state bits.  The functions below are the unformatted
    input functions of [std::istream] and [std::getline], each behind its
    sentry: on a stream that is not [good] they set [failbit] and read
    nothing.  Lines are not translated: the file is read as on POSIX. *)
Record fstream : Type := {
  extracted : list ascii;
  remaining : list ascii;
  eofbit : bool;
  failbit : bool;
  badbit : bool
}.

(** [std::fstream fs(filename, std::fstream::in)], the file being there. *)
Definition fstream_open (content : list ascii) : fstream :=
  {| extracted := []; remaining := content;
     eofbit := false; failbit := false; badbit := false |}.

Definition good (fs : fstream) : bool :=
  negb (eofbit fs || failbit fs || badbit fs).

Definition eof (fs : fstream) : bool := eofbit fs.

Definition setstate_failbit (fs : fstream) : fstream :=
  {| extracted := extracted fs; remaining := remaining fs;
     eofbit := eofbit fs; failbit := true; badbit := badbit fs |}.

(** [traits_type::eof()] and [traits_type::to_int_type]. *)
Definition traits_eof : Z := (-1)%Z.

Definition to_int_type (c : ascii) : Z := Z.of_nat (nat_of_ascii c).

(** [char c = i;] as the [int] it is promoted to in a comparison: whether
    [char] is signed is the platform's choice. *)
Definition to_char (char_signed : bool) (i : Z) : Z :=
  let byte := (i mod 256)%Z in
  if char_signed && (128 <=? byte)%Z then (byte - 256)%Z else byte.

(** [fs.peek()] *)
Definition peek (fs : fstream) : Z * fstream :=
  if good fs then
    match remaining fs with
    | c :: _ => (to_int_type c, fs)
    | [] => (traits_eof,
             {| extracted := extracted fs; remaining := [];
                eofbit := true; failbit := failbit fs; badbit := badbit fs |})
    end
  else (traits_eof, setstate_failbit fs).

(** The characters before the first [delim], and what follows it; [None]
    when the end of the file comes first. *)
Fixpoint until (delim : ascii) (s : list ascii) : list ascii * option (list ascii) :=
  match s with
  | [] => ([], None)
  | c :: s' =>
      if Ascii.eqb c delim then ([], Some s')
      else let (l, r) := until delim s' in (c :: l, r)
  end.

(** [fs.ignore(std::numeric_limits<std::streamsize>::max(), delim)]: no
    limit on the count; [delim] is extracted too. *)
Definition ignore (fs : fstream) (delim : ascii) : fstream :=
  if good fs then
    match until delim (remaining fs) with
    | (skipped, Some rest) =>
        {| extracted := delim :: rev skipped ++ extracted fs; remaining := rest;
           eofbit := eofbit fs; failbit := failbit fs; badbit := badbit fs |}
    | (skipped, None) =>
        {| extracted := rev skipped ++ extracted fs; remaining := [];
           eofbit := true; failbit := failbit fs; badbit := badbit fs |}
    end
  else setstate_failbit fs.

(** [fs.unget()]: [eofbit] is cleared first; with nothing to put back,
    [badbit]. *)
Definition unget (fs : fstream) : fstream :=
  if negb (failbit fs || badbit fs) then
    match extracted fs with
    | c :: before =>
        {| extracted := before; remaining := c :: remaining fs;
           eofbit := false; failbit := failbit fs; badbit := badbit fs |}
    | [] =>
        {| extracted := []; remaining := remaining fs;
           eofbit := false; failbit := failbit fs; badbit := true |}
    end
  else
    {| extracted := extracted fs; remaining := remaining fs;
       eofbit := false; failbit := true; badbit := badbit fs |}.

(** [std::getline(fs, line, delim)]: [line] is erased once the sentry has
    passed; [delim] is extracted and not stored; extracting nothing sets
    [failbit]. *)
Definition getline (fs : fstream) (line : list ascii) (delim : ascii)
  : list ascii * fstream :=
  if good fs then
    match until delim (remaining fs) with
    | (read, Some rest) =>
        (read,
         {| extracted := delim :: rev read ++ extracted fs; remaining := rest;
            eofbit := eofbit fs; failbit := failbit fs; badbit := badbit fs |})
    | (read, None) =>
        (read,
         {| extracted := rev read ++ extracted fs; remaining := [];
            eofbit := true;
            failbit := match read with [] => true | _ => failbit fs end;
            badbit := badbit fs |})
    end
  else (line, setstate_failbit fs).

(** *** namespace rstan: [read_comments0] *)

Definition hash : ascii := "#"%char.
Definition newline : ascii := "010"%char.

(** [while (i < n)]: [peek] is the [char] the peeked [int] is stored in.
    A round either returns, skips to the next [#] or reads a line, so the
    loop leaves within two rounds for every character and one more. *)
Fixpoint read_loop (fuel : nat) (char_signed : bool) (n i : Z) (fs : fstream)
    (line : list ascii) (comments : list (list ascii))
  : option (list (list ascii)) :=
  if (i <? n)%Z then
    match fuel with
    | O => None
    | S fuel' =>
        let (c, fs) := peek fs in
        let peek := to_char char_signed c in
        if (peek =? traits_eof)%Z then Some comments
        else if negb (peek =? to_int_type hash)%Z then
          let fs := ignore fs hash in
          if eof fs then Some comments
          else read_loop fuel' char_signed n i (unget fs) line comments
        else
          let (line, fs) := getline fs line newline in
          read_loop fuel' char_signed n (i + 1) fs line (comments ++ [line])
    end
  else Some comments.

(** [files] is the file system: the content of the files that can be
    opened. *)
Definition read_comments0 (files : string -> option (list ascii))
    (char_signed : bool) (filename : string) (n : Z)
  : outcome (list (list ascii)) :=
  match files filename with
  | None => Fails (runtime_error ("Could not open " ++ filename))
  | Some content =>
      match read_loop (2 * length content + 2) char_signed n 0
                      (fstream_open content) [] [] with
      | Some comments => Returns comments
      | None => Unspecified
      end
  end.

(** A stream in the middle of a file, no state bit set. *)
Definition fstream_at (before s : list ascii) : fstream :=
  {| extracted := before; remaining := s;
     eofbit := false; failbit := false; badbit := false |}.

(** A line of comments: [#], then anything but a newline. *)
Definition comment_line (l : list ascii) : Prop :=
  exists body : list ascii, l = hash :: body /\ ~ In newline body.

(** Data before a comment: no [#] in it, and where [char] is signed no
    [\377] at its head. *)
Definition data_before_comment (char_signed : bool) (data : list ascii) : Prop :=
  ~ In hash data
  /\ (char_signed = true -> hd_error data <> Some "255"%char).

(** A file in blocks: data, then a line of comments and its newline. *)
Definition blocks_of_file (blocks : list (list ascii * list ascii)) : list ascii :=
  concat (map (fun block => fst block ++ snd block ++ [newline]) blocks).

(** [std::numeric_limits<size_t>::max()], [size_t] having 64 bits. *)
Definition SIZE_MAX : Z := (2 ^ 64 - 1)%Z.

Section Comments.

Context {T : Type} {D : Double T}.

(** [Rcpp::as<std::string>(x)]: a single string is expected. *)
Definition as_string (x : SEXP T) : result string :=
  match x with
  | RCharacter [s] => Ok s
  | _ => Throw not_compatible
  end.

Definition CPP_read_comments (files : string -> option (list ascii))
    (char_signed : bool) (file n : SEXP T) : outcome (SEXP T) :=
  and_then (rcpp (as_string file)) (fun filename =>
  and_then (rcpp (as_int n)) (fun n2 =>
  let n3 := if (0 <=? n2)%Z then n2 else SIZE_MAX in
  and_then (read_comments0 files char_signed filename n3) (fun comments =>
  Returns (RCharacter (map string_of_list_ascii comments))))).

End Comments.

(** ** [perm_args] *)

(** *** [std::stoull]

    [strtoull] in base 10: white space is skipped, a sign is taken, the
    digits that follow are the value and what comes after them is left.
    Without a digit [std::invalid_argument] is thrown, with a value above
    [ULLONG_MAX] [std::out_of_range]; [-] negates in
    [unsigned long long]. *)
Definition ULLONG_MAX : Z := (2 ^ 64 - 1)%Z.

Definition isspace (c : ascii) : bool :=
  let k := nat_of_ascii c in
  (k =? 32)%nat || ((9 <=? k)%nat && (k <=? 13)%nat).

Fixpoint skip_spaces (s : string) : string :=
  match s with
  | String c s' => if isspace c then skip_spaces s' else s
  | EmptyString => EmptyString
  end.

Definition digit (c : ascii) : option Z :=
  let k := Z.of_nat (nat_of_ascii c) in
  if (48 <=? k)%Z && (k <=? 57)%Z then Some (k - 48)%Z else None.

(** The value of the leading digits of [s], [acc] being the value so far:
    [None] as long as there was no digit. *)
Fixpoint digits (s : string) (acc : option Z) : option Z :=
  match s with
  | String c s' =>
      match digit c with
      | Some d =>
          digits s' (Some (10 * match acc with Some a => a | None => 0 end + d)%Z)
      | None => acc
      end
  | EmptyString => acc
  end.

Definition stoull (str : string) : outcome Z :=
  let s := skip_spaces str in
  let '(negative, s) :=
    match s with
    | String "-"%char s' => (true, s')
    | String "+"%char s' => (false, s')
    | _ => (false, s)
    end in
  match digits s None with
  | None => Fails (invalid_argument "stoull")
  | Some v =>
      if (ULLONG_MAX <? v)%Z then Fails (thrown (out_of_range "stoull"))
      else Returns (if negative then ((- v) mod 2 ^ 64)%Z else v)
  end.

(** *** The class *)

(** [int n, chains, chain_id; unsigned int seed;] *)
Record perm_args : Type := {
  get_n : Z;
  get_chains : Z;
  get_chain_id : Z;
  get_seed : Z
}.

Section PermArgs.

Context {T : Type} {D : Double T}.

(** [lst.containsElementNamed(target)] *)
Definition containsElementNamed (lst : list (string * SEXP T)) (target : string)
  : bool :=
  existsb (String.eqb target) (names lst).

(** The result is returned as [unsigned int]. *)
Definition sexp2seed (seed : SEXP T) : outcome Z :=
  if SEXPTYPE_eqb (TYPEOF seed) STRSXP then
    and_then (rcpp (as_string seed)) (fun str =>
    and_then (stoull str) (fun v => Returns (u32 v)))
  else rcpp (as_unsigned seed).

(** The constructor [perm_args(Rcpp::List& lst)]; [now] is what
    [std::time(0)] returns. *)
Definition make_perm_args (now : Z) (lst : list (string * SEXP T))
  : outcome perm_args :=
  if negb (containsElementNamed lst "n") then
    Fails (runtime_error "number of iterations kept (n) is not specified")
  else
    and_then (rcpp (do x <- by_name lst "n"; as_int x)) (fun n =>
    if negb (containsElementNamed lst "chains") then
      Fails (runtime_error "number of chains is not specified")
    else
      and_then (rcpp (do x <- by_name lst "chains"; as_int x)) (fun chains =>
      and_then (if containsElementNamed lst "chain_id"
                then rcpp (do x <- by_name lst "chain_id"; as_int x)
                else Returns 1%Z) (fun chain_id =>
      and_then (if containsElementNamed lst "seed"
                then and_then (rcpp (by_name lst "seed")) sexp2seed
                else Returns (u32 now)) (fun seed =>
      Returns {| get_n := n; get_chains := chains;
                 get_chain_id := chain_id; get_seed := seed |})))).

(** [perm_args_to_rlist()]: every assignment adds a named element to the
    list, the seed as the string [ss << seed] gives. *)
Definition perm_args_to_rlist (args : perm_args) : SEXP T :=
  RList [("seed"%string, RCharacter [show (get_seed args)]);
         ("n"%string, RInteger [get_n args]);
         ("chain_id"%string, RInteger [get_chain_id args]);
         ("chains"%string, RInteger [get_chains args])].

End PermArgs.

(** ** General lemmas *)

(** Evaluation in exact arithmetic, up to the operations on real numbers. *)
Ltac exact_compute :=
  cbv -[IZR Rplus Rminus Rmult Rdiv Rinv Ropp R_sqrt.sqrt Rle_dec Rlt_dec up].


Lemma same_double_refl (a : float) : same_double a a = true.
Proof.
  unfold same_double. destruct (Prim2SF a); auto using Bool.eqb_reflx.
  now rewrite Bool.eqb_reflx, Pos.eqb_refl, Z.eqb_refl.
Qed.

Lemma different_doubles (a b : float) : same_double a b = false -> a <> b.
Proof. intros H E. subst b. now rewrite same_double_refl in H. Qed.

Lemma bind_ok {A B : Type} (c : result A) (k : A -> result B) (b : B) :
  bind c k = Ok b -> exists a, c = Ok a /\ k a = Ok b.
Proof. destruct c as [a | e | ]; simpl; try discriminate. now exists a. Qed.

Lemma mapM_map {A B : Type} (f : A -> result B) (g : A -> B) (l : list A) :
  (forall a, In a l -> f a = Ok (g a)) -> mapM f l = Ok (map g l).
Proof.
  induction l as [| a l IH]; intros H; simpl; [reflexivity |].
  rewrite (H a) by now left. simpl.
  rewrite IH by (intros; apply H; now right). reflexivity.
Qed.

Lemma mapM_ok {A B : Type} (f : A -> result B) (l : list A) (bs : list B) :
  mapM f l = Ok bs -> Forall2 (fun a b => f a = Ok b) l bs.
Proof.
  revert bs; induction l as [| a l IH]; simpl; intros bs H.
  - injection H as <-. constructor.
  - apply bind_ok in H as (b & Hb & H). apply bind_ok in H as (bs' & Hbs & H).
    injection H as <-. constructor; auto.
Qed.

Lemma mapM_bind {A B C : Type} (f : A -> result B) (g : B -> result C)
    (l : list A) (cs : list C) :
  mapM (fun a => bind (f a) g) l = Ok cs ->
  exists bs, mapM f l = Ok bs /\ mapM g bs = Ok cs.
Proof.
  revert cs; induction l as [| a l IH]; simpl; intros cs H.
  - injection H as <-. now exists [].
  - apply bind_ok in H as (c & Hc & H). apply bind_ok in H as (cs' & Hcs & H).
    injection H as <-. apply bind_ok in Hc as (b & Hb & Hc).
    destruct (IH _ Hcs) as (bs & Hbs & Hg).
    exists (b :: bs). simpl. now rewrite Hb, Hbs, Hc, Hg.
Qed.

Section Matrices.

Context {T : Type} {D : Double T}.

Lemma column_length (nm : NumericMatrix T) (chain : nat) :
  wf_matrix nm -> (chain < ncol nm)%nat -> length (column nm chain) = nrow nm.
Proof.
  unfold wf_matrix, column. intros (Hwf & _) Hc.
  rewrite length_firstn, length_skipn, Hwf. nia.
Qed.

Lemma columns_length (nm : NumericMatrix T) :
  wf_matrix nm -> Forall (fun c => length c = nrow nm) (columns nm).
Proof.
  intros Hwf. unfold columns. apply Forall_forall. intros c Hc.
  apply in_map_iff in Hc as (chain & <- & Hin). apply in_seq in Hin.
  apply column_length; [assumption | lia].
Qed.

Lemma matrix_of_columns_wf (n : nat) (cols : list (list T)) :
  Forall (fun c => length c = n) cols ->
  (Z.of_nat n < 2 ^ 31)%Z -> (Z.of_nat (length cols) < 2 ^ 31)%Z ->
  wf_matrix (matrix_of_columns n cols).
Proof.
  unfold wf_matrix, matrix_of_columns; simpl. intros H Hn Hc.
  repeat split; try assumption. clear Hn Hc.
  induction H as [| c cols Hc _ IH]; simpl; [lia |].
  rewrite length_app, IH, Hc. lia.
Qed.

End Matrices.

(** ** Odd sample counts (C1) *)

Section Splitting.

Context {T : Type} {D : Double T}.

Lemma make_even_odd (n_samples : Z) :
  (0 <= n_samples < 2 ^ 32)%Z -> (n_samples mod 2 = 1)%Z ->
  make_even n_samples = (n_samples - 1)%Z
  /\ (make_even n_samples / 2 = (n_samples - 1) / 2)%Z
  /\ (2 * (make_even n_samples / 2) = n_samples - 1)%Z.
Proof.
  intros Hr Hodd. unfold make_even, u32. rewrite Hodd, Z.eqb_refl.
  change (2 ^ 32)%Z with 4294967296%Z in *.
  assert (n_samples <> 0)%Z by (intros ->; discriminate).
  rewrite Z.mod_small by lia.
  repeat split. Z.to_euclidean_division_equations. lia.
Qed.

Lemma split_chain_halves (samples : list T) (half : nat) :
  (half <= length samples)%nat ->
  split_chain samples (Z.of_nat half)
  = Ok [firstn half samples; skipn (length samples - half) samples].
Proof.
  intros H. unfold split_chain.
  replace (Z.of_nat half <? 0)%Z with false by (symmetry; apply Z.ltb_ge; lia).
  replace (Z.of_nat (length samples) <? Z.of_nat half)%Z with false
    by (symmetry; apply Z.ltb_ge; lia).
  simpl. now rewrite Nat2Z.id.
Qed.

Lemma split_chain_ok (samples : list T) (half : Z) (halves : list (list T)) :
  split_chain samples half = Ok halves ->
  (0 <= half <= Z.of_nat (length samples))%Z
  /\ halves = [firstn (Z.to_nat half) samples;
               skipn (length samples - Z.to_nat half) samples].
Proof.
  unfold split_chain. intros H.
  destruct (half <? 0)%Z eqn:H0; [discriminate |].
  destruct (Z.of_nat (length samples) <? half)%Z eqn:H1; [discriminate |].
  simpl in H. injection H as <-.
  apply Z.ltb_ge in H0, H1. split; [lia | reflexivity].
Qed.

End Splitting.

Section SplitChains.

Context {T : Type} {D : Double T}.

Lemma split_chains2_odd (nm : NumericMatrix T) (h : nat) :
  wf_matrix nm -> nrow nm = (2 * h + 1)%nat ->
  split_chains2 nm
  = Ok (concat (map (fun c => [firstn h c; skipn (h + 1) c]) (columns nm))).
Proof.
  intros Hwf Hn. unfold split_chains2.
  pose proof (columns_length Hwf) as Hlen. destruct Hwf as (_ & Hrows & _).
  destruct (@make_even_odd (Z.of_nat (nrow nm))) as (_ & _ & Hhalf).
  { change (2 ^ 32)%Z with 4294967296%Z. change (2 ^ 31)%Z with 2147483648%Z in Hrows. lia. }
  { rewrite Hn. Z.to_euclidean_division_equations. lia. }
  assert (make_even (Z.of_nat (nrow nm)) / 2 = Z.of_nat h)%Z as -> by lia.
  rewrite mapM_map with (g := fun c => [firstn h c; skipn (h + 1) c]); [reflexivity |].
  intros c Hc. rewrite Forall_forall in Hlen. specialize (Hlen c Hc).
  rewrite split_chain_halves by lia.
  replace (length c - h)%nat with (h + 1)%nat by lia. reflexivity.
Qed.

Lemma split_chains_ok (sim n_ : SEXP T) (n_samples : Z) (chains : list (list T)) :
  split_chains sim n_ = Ok (n_samples, chains) ->
  exists (lst : list (string * SEXP T)) (n m n0 : Z) (ns_kept : list Z)
         (kept : list (list T)),
    as_List sim = Ok lst /\ as_unsigned n_ = Ok n /\ num_chains sim = Ok m
    /\ ns_kept_of lst = Ok ns_kept /\ min_kept ns_kept m = Ok n0
    /\ n_samples = make_even n0
    /\ mapM (fun chain => get_kept_samples sim chain n) (chains_upto m) = Ok kept
    /\ chains = concat (map (fun samples =>
                               [firstn (Z.to_nat (n_samples / 2)) samples;
                                skipn (length samples - Z.to_nat (n_samples / 2))
                                      samples])
                            kept).
Proof.
  unfold split_chains. intros H.
  apply bind_ok in H as ([] & _ & H).
  apply bind_ok in H as (lst & Hlst & H).
  apply bind_ok in H as (n & Hn & H).
  apply bind_ok in H as (m & Hm & H).
  apply bind_ok in H as (ns_kept & Hkept & H).
  apply bind_ok in H as (n0 & Hn0 & H).
  apply bind_ok in H as (halves & Hhalves & H).
  injection H as <- <-.
  apply mapM_bind in Hhalves as (kept & Hk & Hsplit).
  exists lst, n, m, n0, ns_kept, kept. repeat split; try assumption.
  f_equal. apply mapM_ok in Hsplit. clear Hk.
  induction Hsplit as [| samples halves' kept halves Hs _ IH]; simpl; [reflexivity |].
  apply split_chain_ok in Hs as (_ & ->). now rewrite IH.
Qed.

End SplitChains.

(** C1, as the code has it.  For an odd [n_samples] both split R-hat
    entry points decrement [n_samples] and work on two halves of
    [n_samples / 2] elements each: the first [n_samples / 2] and the LAST
    [n_samples / 2] kept samples of the chain.  For a chain of exactly
    [n_samples = 2 h + 1] samples these are the elements at the indices
    [0 .. h - 1] and [h + 1 .. 2 h]: the middle element is the one left
    out.  The matrix entry point always has such chains (its columns); the
    simulation-record entry point cuts the halves out of all the kept
    samples of the chain. *)
Theorem odd_count_drops_the_middle_sample :
  forall (T : Type) (D : Double T),
    (forall (nm : NumericMatrix T) (h : nat),
        wf_matrix nm -> nrow nm = (2 * h + 1)%nat ->
        split_chains2 nm
        = Ok (concat (map (fun c => [firstn h c; skipn (h + 1) c]) (columns nm))))
    /\ (forall (sim n_ : SEXP T) (n_samples : Z) (chains : list (list T)),
           split_chains sim n_ = Ok (n_samples, chains) ->
           exists (lst : list (string * SEXP T)) (n m n0 : Z) (ns_kept : list Z)
                  (kept : list (list T)),
             as_List sim = Ok lst /\ as_unsigned n_ = Ok n /\ num_chains sim = Ok m
             /\ ns_kept_of lst = Ok ns_kept /\ min_kept ns_kept m = Ok n0
             /\ n_samples = make_even n0
             /\ mapM (fun chain => get_kept_samples sim chain n) (chains_upto m)
                = Ok kept
             /\ chains
                = concat (map (fun samples =>
                                 [firstn (Z.to_nat (n_samples / 2)) samples;
                                  skipn (length samples - Z.to_nat (n_samples / 2))
                                        samples])
                              kept))
    /\ (forall n0 : Z,
           (0 <= n0 < 2 ^ 32)%Z -> (n0 mod 2 = 1)%Z ->
           make_even n0 = (n0 - 1)%Z /\ (2 * (make_even n0 / 2) = n0 - 1)%Z)
    /\ (forall (samples : list T) (h : nat),
           length samples = (2 * h + 1)%nat ->
           skipn (length samples - h) samples = skipn (h + 1) samples
           /\ length (firstn h samples) = h
           /\ length (skipn (h + 1) samples) = h
           /\ (forall i : nat,
                  (i < h)%nat ->
                  nth_error (firstn h samples) i = nth_error samples i
                  /\ nth_error (skipn (h + 1) samples) i
                     = nth_error samples (h + 1 + i))).
Proof.
  intros T D. split; [| split; [| split]].
  - intros nm h. apply split_chains2_odd.
  - intros sim n_ n_samples chains. apply split_chains_ok.
  - intros n0 Hr Hodd. destruct (make_even_odd Hr Hodd) as (H1 & _ & H2). now split.
  - intros samples h Hlen. repeat split.
    + f_equal. lia.
    + rewrite length_firstn. lia.
    + rewrite length_skipn. lia.
    + rewrite nth_error_firstn.
      now replace (i <? h)%nat with true by (symmetry; apply Nat.ltb_lt; assumption).
    + apply nth_error_skipn.
Qed.

(** C1 as stated fails: of a single chain of length 7 the code keeps the
    elements at the indices 0..2 and 4..6, not 0..2 and 3..5; split R-hat
    of the chain is that of the chain without its middle element, and
    not that of the chain without its last element.  Both entry points
    agree. *)
Lemma odd_count_does_not_drop_the_last_sample :
  split_chains2 (matrix_of_columns 7 [chain7])
  = Ok [binary64s [0; 1; 2]%Z; binary64s [4; 5; 6]%Z]
  /\ split_chains2 (matrix_of_columns 7 [chain7])
     <> Ok [firstn 3 chain7; firstn 3 (skipn 3 chain7)]
  /\ split_chains (sim_of 1 1 [7]%Z [0]%Z [chain7]) (RInteger [0]%Z)
     = Ok (6%Z, [binary64s [0; 1; 2]%Z; binary64s [4; 5; 6]%Z])
  /\ split_potential_scale_reduction2 (matrix_of_columns 7 [chain7])
     = split_potential_scale_reduction2
         (matrix_of_columns 6 [binary64s [0; 1; 2; 4; 5; 6]%Z])
  /\ split_potential_scale_reduction (sim_of 1 1 [7]%Z [0]%Z [chain7]) (RInteger [0]%Z)
     = split_potential_scale_reduction2 (matrix_of_columns 7 [chain7])
  /\ split_potential_scale_reduction2 (matrix_of_columns 7 [chain7])
     <> split_potential_scale_reduction2
          (matrix_of_columns 6 [binary64s [0; 1; 2; 3; 4; 5]%Z]).
Proof.
  assert (split_chains2 (matrix_of_columns 7 [chain7])
          = Ok [binary64s [0; 1; 2]%Z; binary64s [4; 5; 6]%Z]) as E
    by (vm_compute; reflexivity).
  repeat split; try (vm_compute; reflexivity).
  - rewrite E. intros H.
    apply (f_equal (fun r => match r with
                             | Ok [_; x :: _] => same_double x (of_int 4)
                             | _ => false
                             end)) in H.
    vm_compute in H. discriminate.
  - intros H.
    apply (f_equal (fun r =>
             match r, split_potential_scale_reduction2 (matrix_of_columns 7 [chain7]) with
             | Ok x, Ok y => same_double x y
             | _, _ => false
             end)) in H.
    vm_compute in H. discriminate.
Qed.

Lemma odd_count_drops_the_middle_sample_witness :
  wf_matrix (matrix_of_columns 7 [chain7])
  /\ nrow (matrix_of_columns 7 [chain7]) = (2 * 3 + 1)%nat
  /\ split_chains2 (matrix_of_columns 7 [chain7])
     = Ok [firstn 3 chain7; skipn 4 chain7].
Proof.
  assert (wf_matrix (matrix_of_columns 7 [chain7])) as Hwf
    by (apply matrix_of_columns_wf; [repeat constructor | reflexivity | reflexivity]).
  split; [exact Hwf |]. split; [reflexivity |].
  exact (proj1 (@odd_count_drops_the_middle_sample float binary64)
               (matrix_of_columns 7 [chain7]) 3%nat Hwf eq_refl).
Defined.

(** ** The worked example (C3) *)

(** C3.  For the single chain [1, ..., 8] ([M = 1], [n_samples = 8]) the
    split chains are [1, 2, 3, 4] and [5, 6, 7, 8]; in exact arithmetic
    their means are 2.5 and 6.5, their unbiased variances 5/3 each,
    [var_within = 5/3], [var_between = 4 * variance [2.5, 6.5] = 32] and
    split R-hat is [sqrt ((32 / (5/3) + 4 - 1) / 4) = sqrt 5.55], which lies
    between 2.355 and 2.357.  In binary64 the code returns the double
    2.3558437978779492 (0x1.2d8c4a212f639p+1). *)
Theorem split_rhat_of_one_to_eight :
  let first : list R := doubles [1; 2; 3; 4]%Z in
  let second : list R := doubles [5; 6; 7; 8]%Z in
  split_chains2 (matrix_of_columns 8 [doubles chain8]) = Ok [first; second]
  /\ map mean [first; second] = [5 / 2; 13 / 2]%R
  /\ variance first = (5 / 3)%R /\ variance second = (5 / 3)%R
  /\ var_within [first; second] = (5 / 3)%R
  /\ variance (map mean [first; second]) = 8%R
  /\ var_between 8 [first; second] = 32%R
  /\ split_potential_scale_reduction2 (matrix_of_columns 8 [doubles chain8])
     = Ok (R_sqrt.sqrt ((32 / (5 / 3) + 4 - 1) / 4))
  /\ ((32 / (5 / 3) + 4 - 1) / 4 = 5.55)%R
  /\ (2.355 < R_sqrt.sqrt ((32 / (5 / 3) + 4 - 1) / 4) < 2.357)%R
  /\ split_potential_scale_reduction2 (matrix_of_columns 8 [binary64s chain8])
     = Ok 0x1.2d8c4a212f639p+1%float.
Proof.
  assert ((32 / (5 / 3) + 4 - 1) / 4 = 5.55)%R as E by lra.
  cbv zeta.
  repeat match goal with |- _ /\ _ => split end.
  - exact_compute. reflexivity.
  - exact_compute. apply f_equal2; [field | apply f_equal2; [field | reflexivity]].
  - exact_compute. field.
  - exact_compute. field.
  - exact_compute. field.
  - exact_compute. field.
  - exact_compute. field.
  - exact_compute. apply f_equal, f_equal. field.
  - exact E.
  - rewrite E, <- (sqrt_square 2.355) by lra. apply sqrt_lt_1; lra.
  - rewrite E, <- (sqrt_square 2.357) by lra. apply sqrt_lt_1; lra.
  - vm_compute. reflexivity.
Qed.

(** ** Constant chains (C2) *)

Section NoVarianceCheck.

Context {T : Type} {D : Double T}.

Lemma make_even_half (n_samples : Z) :
  (0 <= n_samples < 2 ^ 32)%Z -> (0 <= make_even n_samples / 2 <= n_samples)%Z.
Proof.
  intros Hr. unfold make_even, u32.
  change (2 ^ 32)%Z with 4294967296%Z in *.
  destruct (n_samples mod 2 =? 1)%Z eqn:E.
  - apply Z.eqb_eq in E.
    assert (n_samples <> 0)%Z by (intros ->; discriminate).
    rewrite Z.mod_small by lia. Z.to_euclidean_division_equations. lia.
  - Z.to_euclidean_division_equations. lia.
Qed.

Lemma split_chains2_total (nm : NumericMatrix T) :
  wf_matrix nm ->
  let half := Z.to_nat (make_even (Z.of_nat (nrow nm)) / 2) in
  split_chains2 nm
  = Ok (concat (map (fun c => [firstn half c; skipn (length c - half) c])
                    (columns nm))).
Proof.
  intros Hwf half. unfold split_chains2.
  pose proof (columns_length Hwf) as Hlen. destruct Hwf as (_ & Hrows & _).
  destruct (@make_even_half (Z.of_nat (nrow nm))) as (H0 & H1).
  { change (2 ^ 32)%Z with 4294967296%Z.
    change (2 ^ 31)%Z with 2147483648%Z in Hrows. lia. }
  rewrite mapM_map
    with (g := fun c => [firstn half c; skipn (length c - half) c]);
    [reflexivity |].
  intros c Hc. rewrite Forall_forall in Hlen. specialize (Hlen c Hc).
  rewrite <- (Z2Nat.id (make_even (Z.of_nat (nrow nm)) / 2)) by assumption.
  apply split_chain_halves. fold half. lia.
Qed.

End NoVarianceCheck.

Section ExactSums.

Local Open Scope R_scope.

Lemma fold_left_Rplus (l : list R) (a : R) :
  fold_left Rplus l a = a + fold_left Rplus l 0.
Proof.
  revert a; induction l as [| x l IH]; intros a; simpl; [lra |].
  rewrite (IH (a + x)), (IH (0 + x)). lra.
Qed.

Lemma sum_nil : sum (@nil R) = 0.
Proof. reflexivity. Qed.

Lemma sum_cons (x : R) (l : list R) : sum (x :: l) = x + sum l.
Proof.
  unfold sum. simpl. rewrite fold_left_Rplus. simpl. lra.
Qed.

Lemma sum_app (l l' : list R) : sum (l ++ l') = sum l + sum l'.
Proof.
  induction l as [| x l IH]; simpl.
  - rewrite sum_nil. lra.
  - rewrite !sum_cons, IH. lra.
Qed.

Lemma sum_zero (l : list R) : Forall (fun x => x = 0) l -> sum l = 0.
Proof.
  induction 1 as [| x l Hx _ IH]; [reflexivity |].
  rewrite sum_cons, Hx, IH. lra.
Qed.

Lemma sum_nonneg (l : list R) : Forall (fun x => 0 <= x) l -> 0 <= sum l.
Proof.
  induction 1 as [| x l Hx _ IH]; [rewrite sum_nil; lra |].
  rewrite sum_cons. lra.
Qed.

Lemma sum_repeat (x : R) (k : nat) : sum (repeat x k) = INR k * x.
Proof.
  induction k as [| k IH]; [simpl; rewrite sum_nil; lra |].
  change (repeat x (S k)) with (x :: repeat x k).
  rewrite sum_cons, IH, S_INR. lra.
Qed.

Lemma mean_repeat (x : R) (k : nat) : (0 < k)%nat -> mean (repeat x k) = x.
Proof.
  intros Hk. unfold mean. rewrite sum_repeat, repeat_length.
  simpl. rewrite <- INR_IZR_INZ. field.
  apply not_0_INR. lia.
Qed.

Lemma variance_constant (x : R) (k : nat) : variance (repeat x k) = 0.
Proof.
  unfold variance. rewrite sum_zero; [simpl; unfold Rdiv; lra |].
  apply Forall_forall. intros y Hy. apply in_map_iff in Hy as (z & <- & Hz).
  destruct k as [| k]; [contradiction |].
  apply repeat_spec in Hz. subst z.
  rewrite mean_repeat by lia. simpl. lra.
Qed.

Lemma var_within_constant (chains : list (list R)) :
  Forall (fun c => exists x, c = repeat x (length c)) chains ->
  var_within chains = 0.
Proof.
  intros H. unfold var_within, mean. rewrite sum_zero; [simpl; unfold Rdiv; lra |].
  apply Forall_forall. intros v Hv. apply in_map_iff in Hv as (c & <- & Hc).
  rewrite Forall_forall in H. destruct (H c Hc) as (x & ->).
  apply variance_constant.
Qed.

End ExactSums.

(** C2, as the code has it.  The split R-hat computation makes no
    check of the variances and signals no failure for them.  On every
    matrix with a column and at least four rows (two draws in a half) the
    entry point returns the value of the formula
    [sqrt ((var_between / var_within + n/2 - 1) / (n/2))] on the split
    chains, computed in the arithmetic of the scalar type; on a simulation
    record every outcome other than that value is the outcome of the
    extraction of the split chains.  In exact arithmetic, when there is a
    split chain and every split chain is constant with at least two draws
    (so that no mean and no variance divides by zero), [var_within] is
    zero, whatever the constants, and the formula divides by it.  In
    [double] arithmetic whether [var_within] is zero depends on the
    rounding of the means. *)
Theorem split_rhat_makes_no_variance_check :
  (forall (T : Type) (D : Double T) (nm : NumericMatrix T),
      wf_matrix nm -> (4 <= nrow nm)%nat -> (1 <= ncol nm)%nat ->
      exists chains : list (list T),
        split_chains2 nm = Ok chains
        /\ split_potential_scale_reduction2 nm
           = (let n_samples := make_even (Z.of_nat (nrow nm)) in
              Ok (dsqrt ((var_between n_samples chains / var_within chains
                          + of_int (n_samples / 2)%Z - of_int 1)
                         / of_int (n_samples / 2)%Z)%D)))
  /\ (forall (T : Type) (D : Double T) (sim n_ : SEXP T),
         match split_chains sim n_ with
         | Ok (n_samples, chains) =>
             split_potential_scale_reduction sim n_ = Ok (split_rhat n_samples chains)
         | Throw e => split_potential_scale_reduction sim n_ = Throw e
         | Undefined => split_potential_scale_reduction sim n_ = Undefined
         end)
  /\ (forall chains : list (list R),
         chains <> [] ->
         Forall (fun c => (2 <= length c)%nat /\ exists x : R, c = repeat x (length c))
                chains ->
         var_within chains = 0%R).
Proof.
  split; [| split].
  - intros T D nm Hwf _ _. eexists. split; [apply (split_chains2_total Hwf) |].
    unfold split_potential_scale_reduction2.
    rewrite (split_chains2_total Hwf). reflexivity.
  - intros T D sim n_. unfold split_potential_scale_reduction.
    destruct (split_chains sim n_) as [[n_samples chains] | e |]; reflexivity.
  - intros chains _ Hconstant. apply var_within_constant.
    eapply Forall_impl; [| exact Hconstant]. intros c (_ & Hc). exact Hc.
Qed.

(** C2 as stated fails: for constant chains no failure is signalled, the
    call returns; the value returned is NaN, or Infinity when the
    constants of the chains differ. *)
Lemma constant_chains_return_nan_or_infinity :
  split_potential_scale_reduction2 (matrix_of_columns 4 [constant_chain]) = Ok nan
  /\ split_potential_scale_reduction
       (sim_of 1 1 [4]%Z [0]%Z [constant_chain]) (RInteger [0]%Z) = Ok nan
  /\ split_potential_scale_reduction2
       (matrix_of_columns 4 [constant_chain; other_constant_chain]) = Ok infinity
  /\ split_potential_scale_reduction
       (sim_of 2 1 [4; 4]%Z [0; 0]%Z [constant_chain; other_constant_chain])
       (RInteger [0]%Z) = Ok infinity.
Proof. repeat split; vm_compute; reflexivity. Qed.

(** Six draws of the double nearest to 0.1: the mean of a half is not that
    double, [var_within] is not zero and the value returned is finite,
    0.816... (0x1.a20bd700c2c3ep-1). *)
Lemma rounded_constant_chain_has_a_variance :
  exists chains : list (list float),
    split_chains2 (matrix_of_columns 6 [repeat tenth 6]) = Ok chains
    /\ PrimFloat.ltb (of_int 0) (var_within chains) = true
    /\ split_potential_scale_reduction2 (matrix_of_columns 6 [repeat tenth 6])
       = Ok 0x1.a20bd700c2c3ep-1%float.
Proof. eexists. repeat split; vm_compute; reflexivity. Qed.

Lemma split_rhat_makes_no_variance_check_witness :
  wf_matrix (matrix_of_columns 4 [constant_chain])
  /\ exists chains : list (list float),
       split_chains2 (matrix_of_columns 4 [constant_chain]) = Ok chains
       /\ split_potential_scale_reduction2 (matrix_of_columns 4 [constant_chain])
          = Ok (split_rhat 4 chains).
Proof.
  assert (wf_matrix (matrix_of_columns 4 [constant_chain])) as Hwf
    by (apply matrix_of_columns_wf; [repeat constructor | reflexivity | reflexivity]).
  split; [exact Hwf |].
  exact (proj1 split_rhat_makes_no_variance_check float binary64
               (matrix_of_columns 4 [constant_chain]) Hwf (le_n 4) (le_n 1)).
Defined.

(** ** Parameter index out of range (C7) *)

Section ParameterIndex.

Context {T : Type} {D : Double T}.

(** [effective_sample_size] validates the parameter index right after
    the simulation record. *)
Lemma effective_sample_size_validates_param_idx (sim n_ : SEXP T) (n p : Z) :
  validate_sim sim = Ok tt -> as_unsigned n_ = Ok n -> num_params sim = Ok p ->
  (p <= n)%Z ->
  effective_sample_size sim n_
  = Throw (out_of_range
             ("parameter index must be less than number of params"
              ++ "; found n=" ++ show n)).
Proof.
  intros Hv Hn Hp Hle. unfold effective_sample_size, ess_moments.
  rewrite Hv. simpl.
  assert (exists lst, as_List sim = Ok lst) as (lst & ->).
  { unfold validate_sim in Hv. apply bind_ok in Hv as (lst & -> & _). now exists lst. }
  simpl. rewrite Hn. simpl. unfold validate_param_idx. rewrite Hp. simpl.
  replace (n <? p)%Z with false by (symmetry; apply Z.ltb_ge; assumption).
  reflexivity.
Qed.

End ParameterIndex.

(** C7 at the failing input, a record with one chain and one parameter
    and the parameter index 1: [effective_sample_size] throws
    [std::out_of_range] before anything else; [split_potential_scale_reduction]
    never calls [validate_param_idx], it goes on to read the chain's list
    at index 1, past its end, and where a second vector is stored in the
    chain it returns a split R-hat for the index
    (0.91986621100779986). *)
Theorem split_rhat_skips_the_parameter_index_check :
  validate_sim one_parameter = Ok tt
  /\ num_params one_parameter = Ok 1%Z
  /\ effective_sample_size one_parameter (RInteger [1]%Z)
     = Throw (out_of_range
                "parameter index must be less than number of params; found n=1")
  /\ split_potential_scale_reduction one_parameter (RInteger [1]%Z) = Undefined
  /\ validate_sim one_parameter_declared = Ok tt
  /\ num_params one_parameter_declared = Ok 1%Z
  /\ effective_sample_size one_parameter_declared (RInteger [1]%Z)
     = Throw (out_of_range
                "parameter index must be less than number of params; found n=1")
  /\ split_potential_scale_reduction one_parameter_declared (RInteger [1]%Z)
     = Ok 0x1.d6f8b439f2a7bp-1%float.
Proof. repeat split; vm_compute; reflexivity. Qed.

(** ** Metadata and stored samples (C8) *)

Section Metadata.

Context {T : Type} {D : Double T}.

Lemma check_names_ok (required found : list string) :
  check_names required found = Ok tt <-> Forall (fun name => In name found) required.
Proof.
  induction required as [| it required IH]; simpl.
  - split; [constructor | reflexivity].
  - destruct (existsb (String.eqb it) found) eqn:E.
    + apply existsb_exists in E as (x & Hin & Hx). apply String.eqb_eq in Hx. subst x.
      rewrite IH. split; [now constructor | now inversion 1].
    + split; [discriminate |]. inversion 1 as [| ? ? Hin _]; subst.
      assert (existsb (String.eqb it) found = true) as E'
        by (apply existsb_exists; exists it; split; [assumption | apply String.eqb_refl]).
      congruence.
Qed.

Lemma TYPEOF_VECSXP (x : SEXP T) :
  SEXPTYPE_eqb (TYPEOF x) VECSXP = true <-> exists v, x = RList v.
Proof.
  destruct x; simpl; split; try discriminate; try (intros (v' & Hv); discriminate).
  - intros _. now exists v.
  - reflexivity.
Qed.

Lemma validate_sim_ok (sim : SEXP T) :
  validate_sim sim = Ok tt
  <-> exists (lst : list (string * SEXP T)) (chains : SEXP T)
             (samples : list (string * SEXP T)),
        as_List sim = Ok lst
        /\ Forall (fun name => In name (names lst)) snames
        /\ by_name lst "chains" = Ok chains
        /\ (TYPEOF chains = INTSXP \/ TYPEOF chains = REALSXP)
        /\ by_name lst "samples" = Ok (RList samples)
        /\ as_int chains = Ok (Z.of_nat (length samples)).
Proof.
  unfold validate_sim. split.
  - intros H.
    apply bind_ok in H as (lst & Hlst & H).
    apply bind_ok in H as ([] & Hnames & H).
    apply bind_ok in H as (chains & Hchains & H).
    destruct (negb (SEXPTYPE_eqb (TYPEOF chains) INTSXP)
              && negb (SEXPTYPE_eqb (TYPEOF chains) REALSXP)) eqn:Htype;
      [discriminate |].
    apply bind_ok in H as (sample_sexp & Hsamples & H).
    destruct (SEXPTYPE_eqb (TYPEOF sample_sexp) VECSXP) eqn:Hvec; [| discriminate].
    apply TYPEOF_VECSXP in Hvec as (samples & ->). simpl in H.
    apply bind_ok in H as (c & Hc & H).
    destruct (Z.of_nat (length samples) =? c)%Z eqn:Heq; [| discriminate].
    apply Z.eqb_eq in Heq. subst c.
    exists lst, chains, samples. repeat split; try assumption.
    + now apply check_names_ok.
    + destruct (TYPEOF chains); simpl in Htype; try discriminate; auto.
  - intros (lst & chains & samples & Hlst & Hnames & Hchains & Htype & Hsamples & Hc).
    rewrite Hlst. cbn [bind]. apply check_names_ok in Hnames. rewrite Hnames.
    cbn [bind]. rewrite Hchains. cbn [bind].
    replace (negb (SEXPTYPE_eqb (TYPEOF chains) INTSXP)
             && negb (SEXPTYPE_eqb (TYPEOF chains) REALSXP)) with false
      by (destruct Htype as [-> | ->]; reflexivity).
    rewrite Hsamples. cbn [bind TYPEOF SEXPTYPE_eqb negb as_List].
    rewrite Hc. cbn [bind]. now rewrite Z.eqb_refl.
Qed.

(** On a record of the usual shape [validate_sim] compares the number
    of chains and nothing else. *)
Lemma validate_sim_sim_of (chains n_flatnames : Z) (n_save warmup2 : list Z)
    (stored : list (list T)) :
  validate_sim (sim_of chains n_flatnames n_save warmup2 stored)
  = if (Z.of_nat (length stored) =? chains)%Z then Ok tt
    else Throw (domain_error
                  ("the number of chains specified is different from "
                   ++ "the one found in samples")).
Proof.
  unfold validate_sim, sim_of, sim_fields. simpl. rewrite length_map.
  destruct (Z.of_nat (length stored) =? chains)%Z; reflexivity.
Qed.

(** and [get_kept_samples] returns what is stored after the warmup,
    whatever [n_save] announces. *)
Lemma get_kept_samples_sim_of (chains n_flatnames : Z) (n_save warmup2 : list Z)
    (stored : list (list T)) (k : nat) (nv : list T) (w : nat) :
  nth_error stored k = Some nv -> nth_error warmup2 k = Some (Z.of_nat w) ->
  (w <= length nv)%nat ->
  get_kept_samples (sim_of chains n_flatnames n_save warmup2 stored) (Z.of_nat k) 0
  = Ok (skipn w nv).
Proof.
  intros Hnv Hw Hle. unfold get_kept_samples, chain_param, sim_of, sim_fields. simpl.
  rewrite map_map. simpl. unfold at_ at 1.
  replace (Z.of_nat k <? 0)%Z with false by (symmetry; apply Z.ltb_ge; lia).
  rewrite Nat2Z.id, (map_nth_error _ _ _ Hnv). simpl.
  unfold at_.
  replace (Z.of_nat k <? 0)%Z with false by (symmetry; apply Z.ltb_ge; lia).
  rewrite Nat2Z.id, Hw. simpl.
  replace (Z.of_nat w <? 0)%Z with false by (symmetry; apply Z.ltb_ge; lia).
  replace (Z.of_nat (length nv) <? Z.of_nat w)%Z with false
    by (symmetry; apply Z.ltb_ge; lia).
  simpl. now rewrite Nat2Z.id.
Qed.

End Metadata.

(** C8, as the code has it.  A disagreement between [n_save], [warmup2]
    and the number of samples stored is not signalled.  [validate_sim]
    accepts a record exactly when the six names are present, [chains] is an
    integer or double vector holding the number of elements of [samples],
    and [samples] is a list; on a record of the usual shape its outcome is
    the same for all [n_save], [warmup2] and stored vectors of every
    length.  [get_kept_samples] returns the stored vector from the offset
    [warmup2[k]] to its end, whatever [n_save] announces. *)
Theorem metadata_is_not_checked_against_samples :
  forall (T : Type) (D : Double T),
    (forall sim : SEXP T,
        validate_sim sim = Ok tt
        <-> exists (lst : list (string * SEXP T)) (chains : SEXP T)
                   (samples : list (string * SEXP T)),
              as_List sim = Ok lst
              /\ Forall (fun name => In name (names lst)) snames
              /\ by_name lst "chains" = Ok chains
              /\ (TYPEOF chains = INTSXP \/ TYPEOF chains = REALSXP)
              /\ by_name lst "samples" = Ok (RList samples)
              /\ as_int chains = Ok (Z.of_nat (length samples)))
    /\ (forall (n_flatnames : Z) (n_save warmup2 : list Z) (stored : list (list T)),
           validate_sim (sim_of (Z.of_nat (length stored)) n_flatnames
                                n_save warmup2 stored) = Ok tt)
    /\ (forall (chains n_flatnames : Z) (n_save warmup2 : list Z)
               (stored : list (list T)) (k : nat) (nv : list T) (w : nat),
           nth_error stored k = Some nv ->
           nth_error warmup2 k = Some (Z.of_nat w) ->
           (w <= length nv)%nat ->
           get_kept_samples (sim_of chains n_flatnames n_save warmup2 stored)
                            (Z.of_nat k) 0
           = Ok (skipn w nv)).
Proof.
  intros T D. split; [| split].
  - apply validate_sim_ok.
  - intros. rewrite validate_sim_sim_of. now rewrite Z.eqb_refl.
  - intros. now apply get_kept_samples_sim_of.
Qed.

(** C8 as stated fails.  Where [n_save] announces six draws and eight
    are stored, the record is accepted, all eight draws are extracted and
    both diagnostics return a value (split R-hat from the first three and
    the last three draws); where [n_save] announces eight draws and six are
    stored, split R-hat is returned from two overlapping halves, and the
    effective sample size reads the stored vector past its end. *)
Lemma disagreeing_metadata_is_not_signalled :
  validate_sim fewer_announced = Ok tt
  /\ get_kept_samples fewer_announced 0 0 = Ok (binary64s chain8)
  /\ split_chains fewer_announced (RInteger [0]%Z)
     = Ok (6%Z, [binary64s [1; 2; 3]%Z; binary64s [6; 7; 8]%Z])
  /\ split_potential_scale_reduction fewer_announced (RInteger [0]%Z)
     = Ok 0x1.d075a494a395ap+1%float
  /\ effective_sample_size fewer_announced (RInteger [0]%Z)
     = Ok 0x1.9f22983759f22p+1%float
  /\ validate_sim more_announced = Ok tt
  /\ get_kept_samples more_announced 0 0 = Ok (binary64s [1; 2; 3; 4; 5; 6]%Z)
  /\ split_chains more_announced (RInteger [0]%Z)
     = Ok (8%Z, [binary64s [1; 2; 3; 4]%Z; binary64s [3; 4; 5; 6]%Z])
  /\ split_potential_scale_reduction more_announced (RInteger [0]%Z)
     = Ok 0x1.657c0b2625eb5p+0%float
  /\ effective_sample_size more_announced (RInteger [0]%Z) = Undefined.
Proof. repeat split; vm_compute; reflexivity. Qed.

Lemma metadata_is_not_checked_against_samples_witness :
  nth_error [binary64s chain8] 0 = Some (binary64s chain8)
  /\ nth_error [0%Z] 0 = Some (Z.of_nat 0)
  /\ (0 <= length (binary64s chain8))%nat
  /\ get_kept_samples fewer_announced (Z.of_nat 0) 0 = Ok (skipn 0 (binary64s chain8)).
Proof.
  split; [reflexivity |]. split; [reflexivity |]. split; [apply Nat.le_0_l |].
  exact (proj2 (proj2 (@metadata_is_not_checked_against_samples float binary64))
               1%Z 1%Z [6%Z] [0%Z] [binary64s chain8] 0%nat (binary64s chain8) 0%nat
               eq_refl eq_refl (Nat.le_0_l _)).
Defined.

(** ** Unchecked reads and writes *)

Section Vectors.

Context {A : Type}.

Lemma at_ok (v : list A) (i : Z) (d : A) :
  (0 <= i < Z.of_nat (length v))%Z -> at_ v i = Ok (nth (Z.to_nat i) v d).
Proof.
  intros Hi. unfold at_.
  replace (i <? 0)%Z with false by (symmetry; apply Z.ltb_ge; lia).
  destruct (nth_error v (Z.to_nat i)) as [a |] eqn:E.
  - now rewrite (nth_error_nth _ _ d E).
  - apply nth_error_None in E. lia.
Qed.

Lemma at_inv (v : list A) (i : Z) (a : A) :
  at_ v i = Ok a ->
  (0 <= i < Z.of_nat (length v))%Z /\ forall d, nth (Z.to_nat i) v d = a.
Proof.
  unfold at_. destruct (i <? 0)%Z eqn:Hi; [discriminate |].
  apply Z.ltb_ge in Hi.
  destruct (nth_error v (Z.to_nat i)) as [a' |] eqn:E; [| discriminate].
  intros H. injection H as <-. split.
  - assert (Z.to_nat i < length v)%nat by (apply nth_error_Some; congruence). lia.
  - intros d. now apply nth_error_nth.
Qed.

Lemma length_set_nth (v : list A) (i : nat) (a : A) :
  length (set_nth v i a) = length v.
Proof.
  revert i; induction v as [| x v IH]; intros [| i]; simpl; auto.
Qed.

Lemma nth_set_nth (v : list A) (i j : nat) (a d : A) :
  (i < length v)%nat ->
  nth j (set_nth v i a) d = if (j =? i)%nat then a else nth j v d.
Proof.
  revert i j; induction v as [| x v IH]; intros i j Hi; simpl in Hi; [lia |].
  destruct i as [| i], j as [| j]; simpl; try reflexivity.
  apply IH. lia.
Qed.

Lemma store_ok (v : list A) (i : Z) (a : A) :
  (0 <= i < Z.of_nat (length v))%Z -> store v i a = Ok (set_nth v (Z.to_nat i) a).
Proof.
  intros Hi. unfold store.
  replace (i <? 0)%Z with false by (symmetry; apply Z.ltb_ge; lia).
  replace (Z.to_nat i <? length v)%nat with true
    by (symmetry; apply Nat.ltb_lt; lia).
  reflexivity.
Qed.

Lemma store_inv (v v' : list A) (i : Z) (a : A) :
  store v i a = Ok v' ->
  (0 <= i < Z.of_nat (length v))%Z /\ v' = set_nth v (Z.to_nat i) a.
Proof.
  unfold store. destruct (i <? 0)%Z eqn:Hi; [discriminate |].
  apply Z.ltb_ge in Hi.
  destruct (Z.to_nat i <? length v)%nat eqn:Hl; [| discriminate].
  apply Nat.ltb_lt in Hl. intros H. injection H as <-. split; [lia | reflexivity].
Qed.

End Vectors.

(** ** The initial monotone sequence (C6) *)

Section Monotone.

Local Open Scope R_scope.

(** One round of the loop at [t]: the two entries after [t] are
    overwritten, or nothing is. *)
Lemma monotone_loop_envelope (fuel : nat) :
  forall (t max_t : Z) (v : list R),
    (1 <= t)%Z -> (max_t < Z.of_nat (length v))%Z -> (max_t - t < Z.of_nat fuel)%Z ->
    exists v' : list R,
      monotone_loop fuel t max_t v = Ok v'
      /\ length v' = length v
      /\ (forall i : nat, (Z.of_nat i <= t)%Z -> nth i v' 0 = nth i v 0)
      /\ (forall j : nat,
             (t + 2 * Z.of_nat j <= max_t - 2)%Z ->
             let s := Z.to_nat (t + 2 * Z.of_nat j) in
             nth (s + 1) v' 0 + nth (s + 2) v' 0 <= nth (s - 1) v' 0 + nth s v' 0).
Proof.
  induction fuel as [| fuel IH]; intros t max_t v Ht Hmax Hfuel.
  - exists v. cbn [monotone_loop].
    replace (t <=? max_t - 2)%Z with false by (symmetry; apply Z.leb_gt; lia).
    repeat split; auto. intros j Hj. exfalso. lia.
  - cbn [monotone_loop]. destruct (t <=? max_t - 2)%Z eqn:Hcond.
    2:{ apply Z.leb_gt in Hcond. exists v. repeat split; auto. intros j Hj. exfalso. lia. }
    apply Z.leb_le in Hcond.
    rewrite (at_ok v 0) by lia. cbn [bind].
    rewrite (at_ok v 0) by lia. cbn [bind].
    rewrite (at_ok v 0) by lia. cbn [bind].
    rewrite (at_ok v 0) by lia. cbn [bind].
    set (a := nth (Z.to_nat (t + 1)) v 0). set (b := nth (Z.to_nat (t + 2)) v 0).
    set (c := nth (Z.to_nat (t - 1)) v 0). set (d := nth (Z.to_nat t) v 0).
    assert (exists v1 : list R,
               (if (a + b >? c + d)%D
                then bind (store v (t + 1) ((c + d) / of_int 2)%D)
                          (fun r => bind (at_ r (t + 1)) (fun x => store r (t + 2) x))
                else Ok v) = Ok v1
               /\ length v1 = length v
               /\ (forall i : nat, (Z.of_nat i <= t)%Z -> nth i v1 0 = nth i v 0)
               /\ nth (Z.to_nat (t + 1)) v1 0 + nth (Z.to_nat (t + 2)) v1 0 <= c + d)
      as (v1 & -> & Hlen1 & Hsame1 & Henv1).
    { simpl. unfold Exact.gt. destruct (Rlt_dec (c + d) (a + b)) as [Hgt | Hle].
      - rewrite store_ok by lia. cbn [bind].
        set (r := set_nth v (Z.to_nat (t + 1)) ((c + d) / 2)).
        assert (length r = length v) as Hr by apply length_set_nth.
        rewrite (at_ok r 0) by lia. cbn [bind].
        rewrite store_ok by lia.
        eexists. split; [reflexivity |].
        assert (nth (Z.to_nat (t + 1)) r 0 = (c + d) / 2) as Hx.
        { unfold r. rewrite nth_set_nth by lia. now rewrite Nat.eqb_refl. }
        rewrite Hx. repeat split.
        + now rewrite length_set_nth.
        + intros i Hi. rewrite nth_set_nth by lia.
          replace (i =? Z.to_nat (t + 2))%nat with false
            by (symmetry; apply Nat.eqb_neq; lia).
          unfold r. rewrite nth_set_nth by lia.
          replace (i =? Z.to_nat (t + 1))%nat with false
            by (symmetry; apply Nat.eqb_neq; lia).
          reflexivity.
        + rewrite !nth_set_nth by lia.
          rewrite Nat.eqb_refl.
          replace (Z.to_nat (t + 1) =? Z.to_nat (t + 2))%nat with false
            by (symmetry; apply Nat.eqb_neq; lia).
          rewrite Hx. lra.
      - exists v. repeat split; auto. fold a b. lra. }
    cbn [bind].
    destruct (IH (t + 2)%Z max_t v1) as (v' & Hrun & Hlen & Hsame & Henv);
      [lia | lia | lia |].
    exists v'. split; [exact Hrun |]. split; [congruence |]. split.
    + intros i Hi. rewrite Hsame by lia. apply Hsame1. lia.
    + intros [| j] Hj; cbv zeta.
      * replace (t + 2 * Z.of_nat 0)%Z with t by lia.
        replace (Z.to_nat t + 1)%nat with (Z.to_nat (t + 1)) by lia.
        replace (Z.to_nat t + 2)%nat with (Z.to_nat (t + 2)) by lia.
        replace (Z.to_nat t - 1)%nat with (Z.to_nat (t - 1)) by lia.
        rewrite !Hsame by lia. rewrite (Hsame1 (Z.to_nat (t - 1))) by lia.
        rewrite (Hsame1 (Z.to_nat t)) by lia. exact Henv1.
      * specialize (Henv j ltac:(lia)). cbv zeta in Henv.
        replace (t + 2 * Z.of_nat (S j))%Z with (t + 2 + 2 * Z.of_nat j)%Z by lia.
        exact Henv.
Qed.

End Monotone.

(** ** The initial positive sequence (C4) *)

Section PositiveSequence.

Context {T : Type} {D : Double T}.
Variables (acov : list (list T)) (mean_var var_plus : T) (n : nat).
Hypothesis acov_long : Forall (fun acov_chain => (n <= length acov_chain)%nat) acov.
Hypothesis n_unsigned : (2 <= Z.of_nat n < 2 ^ 32)%Z.
Local Open Scope double_scope.

Local Notation "'rho'" := (rho_hat acov mean_var var_plus).
Local Notation "'pairs'" := (pair_sum acov mean_var var_plus).
Local Notation "'sequence_at'" := (positive_sequence_at acov mean_var var_plus n).

Lemma rho_hat_at_ok (l : nat) :
  (l < n)%nat -> rho_hat_at acov mean_var var_plus (Z.of_nat l) = Ok (rho l).
Proof.
  intros Hl. unfold rho_hat_at, rho_hat.
  rewrite mapM_map with (g := fun acov_chain => nth l acov_chain (of_int 0));
    [reflexivity |].
  intros a Ha. rewrite Forall_forall in acov_long. specialize (acov_long a Ha).
  rewrite (at_ok a (of_int 0)) by lia. now rewrite Nat2Z.id.
Qed.

Lemma positive_sequence_length :
  length (positive_sequence acov mean_var var_plus n) = n.
Proof. unfold positive_sequence. now rewrite length_map, length_seq. Qed.

Lemma positive_sequence_nth (l : nat) (d : T) :
  (l < n)%nat -> nth l (positive_sequence acov mean_var var_plus n) d = sequence_at l.
Proof.
  intros Hl. unfold positive_sequence.
  rewrite nth_indep with (d' := sequence_at 0%nat)
    by now rewrite length_map, length_seq.
  rewrite map_nth, seq_nth by assumption. reflexivity.
Qed.

Lemma forallb_seq (f : nat -> bool) (k j : nat) :
  forallb f (seq 0 k) = true -> (j < k)%nat -> f j = true.
Proof.
  intros H Hj. rewrite forallb_forall in H. apply H, in_seq. lia.
Qed.

Lemma forallb_seq_S (f : nat -> bool) (k : nat) :
  forallb f (seq 0 (S k)) = forallb f (seq 0 k) && f k.
Proof. rewrite seq_S, forallb_app. simpl. now rewrite andb_true_r. Qed.

(** Once a pair is not reached, no later one is. *)
Lemma reached_prefix (k k' : nat) :
  reached acov mean_var var_plus n k = false -> (k <= k')%nat ->
  reached acov mean_var var_plus n k' = false.
Proof.
  unfold reached. intros H Hk.
  destruct (2 * k' + 1 <? n)%nat eqn:Hb; [| reflexivity].
  apply Nat.ltb_lt in Hb.
  replace (2 * k + 1 <? n)%nat with true in H by (symmetry; apply Nat.ltb_lt; lia).
  simpl in *.
  destruct (forallb (fun j => pairs j >=? of_int 0) (seq 0 k')) eqn:Hall;
    [| reflexivity].
  rewrite <- H. symmetry. apply forallb_forall. intros j Hj.
  apply in_seq in Hj. apply (forallb_seq _ Hall). lia.
Qed.

Lemma sequence_at_not_reached (k l : nat) :
  reached acov mean_var var_plus n k = false -> (1 <= k)%nat -> (2 * k <= l)%nat ->
  sequence_at l = of_int 0.
Proof.
  intros H Hk Hl. destruct l as [| [| l]]; [lia | lia |].
  unfold positive_sequence_at, accepted.
  rewrite (reached_prefix (k' := S (S l) / 2) H); [reflexivity |].
  apply Nat.div_le_lower_bound; lia.
Qed.

Lemma positive_loop_spec (fuel : nat) :
  forall (k : nat) (v : list T) (even odd : T),
    (1 <= k)%nat -> length v = n ->
    (forall l : nat, (l < n)%nat ->
       nth l v (of_int 0) = if (l <? 2 * k)%nat then sequence_at l else of_int 0) ->
    even + odd = pairs (k - 1) ->
    forallb (fun j => pairs j >=? of_int 0) (seq 0 (k - 1)) = true ->
    (forall k' : nat, (1 <= k' < k)%nat -> reached acov mean_var var_plus n k' = true) ->
    (n - 2 * k <= fuel)%nat ->
    exists K : nat,
      (k - 1 <= K)%nat
      /\ positive_loop fuel acov mean_var var_plus (Z.of_nat n)
                       (Z.of_nat (2 * k - 1)) even odd v (Z.of_nat (2 * k - 1))
         = Ok (positive_sequence acov mean_var var_plus n, Z.of_nat (2 * K + 1))
      /\ (forall k' : nat, (1 <= k' <= K)%nat ->
                           reached acov mean_var var_plus n k' = true)
      /\ reached acov mean_var var_plus n (S K) = false.
Proof.
  assert (u32 (Z.of_nat n - 2) = Z.of_nat n - 2)%Z as Hu
    by (unfold u32; apply Z.mod_small; lia).
  induction fuel as [| fuel IH]; intros k v even odd Hk Hlen Hv Hsum Hall Hreached Hfuel.
  all: assert (reached acov mean_var var_plus n k
               = (Z.of_nat (2 * k - 1) <? u32 (Z.of_nat n - 2))%Z
                 && (even + odd >=? of_int 0)) as Hcond.
  1,3: unfold reached; rewrite Hu, Hsum;
       replace k with (S (k - 1)) at 2 by lia;
       rewrite forallb_seq_S, Hall; cbn [andb]; f_equal;
       destruct (2 * k + 1 <? n)%nat eqn:E;
       [ apply Nat.ltb_lt in E; symmetry; apply Z.ltb_lt; lia
       | apply Nat.ltb_ge in E; symmetry; apply Z.ltb_ge; lia ].
  all: cbn [positive_loop]; rewrite <- Hcond;
       destruct (reached acov mean_var var_plus n k) eqn:Hr.
  2,4: exists (k - 1)%nat; split; [lia |]; split;
       [| split; [intros k' Hk'; apply Hreached; lia
                 | now replace (S (k - 1)) with k by lia]];
       replace (2 * (k - 1) + 1)%nat with (2 * k - 1)%nat by lia;
       do 2 f_equal;
       apply nth_ext with (d := of_int 0) (d' := of_int 0);
       [ now rewrite positive_sequence_length
       | intros l Hl; rewrite Hlen in Hl; rewrite Hv, positive_sequence_nth by assumption;
         destruct (l <? 2 * k)%nat eqn:E; [reflexivity |];
         apply Nat.ltb_ge in E; symmetry;
         now apply (sequence_at_not_reached Hr) ].
  - (* no fuel left: the pair cannot be reached *)
    exfalso. unfold reached in Hr. apply andb_prop in Hr as (Hb & _).
    apply Nat.ltb_lt in Hb. lia.
  - assert (2 * k + 1 < n)%nat as Hb
      by (unfold reached in Hr; apply andb_prop in Hr as (Hb & _);
          now apply Nat.ltb_lt in Hb).
    replace (Z.of_nat (2 * k - 1) + 1)%Z with (Z.of_nat (2 * k)) by lia.
    replace (Z.of_nat (2 * k - 1) + 2)%Z with (Z.of_nat (2 * k + 1)) by lia.
    rewrite !rho_hat_at_ok by lia. cbn [bind].
    assert (rho (2 * k) + rho (2 * k + 1) = pairs k) as Hpair
      by (destruct k; [lia | reflexivity]).
    set (v' := if pairs k >=? of_int 0
               then set_nth (set_nth v (2 * k) (rho (2 * k))) (2 * k + 1) (rho (2 * k + 1))
               else v).
    assert ((if rho (2 * k) + rho (2 * k + 1) >=? of_int 0
             then bind (store v (Z.of_nat (2 * k)) (rho (2 * k)))
                       (fun r => store r (Z.of_nat (2 * k + 1)) (rho (2 * k + 1)))
             else Ok v) = Ok v') as ->.
    { rewrite Hpair. unfold v'. destruct (pairs k >=? of_int 0); [| reflexivity].
      rewrite store_ok by lia. cbn [bind].
      rewrite store_ok by (rewrite length_set_nth; lia).
      now rewrite !Nat2Z.id. }
    cbn [bind].
    assert (length v' = n) as Hlen'
      by (unfold v'; destruct (pairs k >=? of_int 0);
          [now rewrite !length_set_nth | assumption]).
    destruct (IH (S k) v' (rho (2 * k)) (rho (2 * k + 1))) as (K & HK & Hrun & Hpre & Hpost).
    + lia.
    + exact Hlen'.
    + intros l Hl. unfold v'.
      assert ((2 * k) / 2 = k)%nat as Hdiv0
        by (rewrite Nat.mul_comm; apply Nat.div_mul; lia).
      assert ((2 * k + 1) / 2 = k)%nat as Hdiv1
        by (symmetry; apply (Nat.div_unique (2 * k + 1) 2 k 1); lia).
      assert (sequence_at (2 * k) = if pairs k >=? of_int 0 then rho (2 * k) else of_int 0)
        as E0.
      { destruct k as [| k0]; [lia |].
        replace (2 * S k0)%nat with (S (S (2 * k0))) in * by lia.
        unfold positive_sequence_at, accepted. rewrite Hdiv0, Hr. reflexivity. }
      assert (sequence_at (2 * k + 1)
              = if pairs k >=? of_int 0 then rho (2 * k + 1) else of_int 0) as E1.
      { destruct k as [| k0]; [lia |].
        replace (2 * S k0 + 1)%nat with (S (S (2 * k0 + 1))) in * by lia.
        unfold positive_sequence_at, accepted. rewrite Hdiv1, Hr. reflexivity. }
      destruct (Nat.eq_dec l (2 * k)) as [-> | Hn0];
        [| destruct (Nat.eq_dec l (2 * k + 1)) as [-> | Hn1]].
      * replace (2 * k <? 2 * S k)%nat with true by (symmetry; apply Nat.ltb_lt; lia).
        rewrite E0. destruct (pairs k >=? of_int 0).
        -- rewrite nth_set_nth by (rewrite length_set_nth; lia).
           replace (2 * k =? 2 * k + 1)%nat with false
             by (symmetry; apply Nat.eqb_neq; lia).
           rewrite nth_set_nth by lia. now rewrite Nat.eqb_refl.
        -- rewrite Hv by lia.
           now replace (2 * k <? 2 * k)%nat with false
             by (symmetry; apply Nat.ltb_ge; lia).
      * replace (2 * k + 1 <? 2 * S k)%nat with true
          by (symmetry; apply Nat.ltb_lt; lia).
        rewrite E1. destruct (pairs k >=? of_int 0).
        -- rewrite nth_set_nth by (rewrite length_set_nth; lia).
           now rewrite Nat.eqb_refl.
        -- rewrite Hv by lia.
           now replace (2 * k + 1 <? 2 * k)%nat with false
             by (symmetry; apply Nat.ltb_ge; lia).
      * assert (nth l (if pairs k >=? of_int 0
                       then set_nth (set_nth v (2 * k) (rho (2 * k)))
                                    (2 * k + 1) (rho (2 * k + 1))
                       else v) (of_int 0) = nth l v (of_int 0)) as ->.
        { destruct (pairs k >=? of_int 0); [| reflexivity].
          rewrite nth_set_nth by (rewrite length_set_nth; lia).
          replace (l =? 2 * k + 1)%nat with false by (symmetry; apply Nat.eqb_neq; lia).
          rewrite nth_set_nth by lia.
          now replace (l =? 2 * k)%nat with false by (symmetry; apply Nat.eqb_neq; lia). }
        rewrite Hv by assumption.
        destruct (l <? 2 * k)%nat eqn:E.
        -- apply Nat.ltb_lt in E.
           now replace (l <? 2 * S k)%nat with true by (symmetry; apply Nat.ltb_lt; lia).
        -- apply Nat.ltb_ge in E.
           now replace (l <? 2 * S k)%nat with false by (symmetry; apply Nat.ltb_ge; lia).
    + replace (S k - 1)%nat with k by lia. exact Hpair.
    + replace (S k - 1)%nat with k by lia.
      unfold reached in Hr. now apply andb_prop in Hr as (_ & Hr).
    + intros k' Hk'. destruct (Nat.eq_dec k' k) as [-> | Hne]; [exact Hr |].
      apply Hreached. lia.
    + lia.
    + exists K. split; [lia |]. split; [| split; assumption].
      replace (Z.of_nat (2 * k + 1)) with (Z.of_nat (2 * S k - 1)) by lia.
      exact Hrun.
Qed.

End PositiveSequence.

Section FullVariant.

Context {T : Type} {D : Double T}.
Local Open Scope double_scope.

Lemma initial_positive_spec (acov : list (list T)) (mean_var var_plus : T) (n : nat) :
  Forall (fun acov_chain => (n <= length acov_chain)%nat) acov ->
  (2 <= Z.of_nat n < 2 ^ 32)%Z ->
  exists K : nat,
    (2 * K + 1 < n)%nat
    /\ initial_positive acov mean_var var_plus (Z.of_nat n)
       = Ok (positive_sequence acov mean_var var_plus n, Z.of_nat (2 * K + 1))
    /\ (forall k : nat, (1 <= k <= K)%nat ->
                        reached acov mean_var var_plus n k = true)
    /\ reached acov mean_var var_plus n (S K) = false.
Proof.
  intros Hacov Hn. unfold initial_positive.
  rewrite Nat2Z.id.
  rewrite (rho_hat_at_ok mean_var var_plus Hacov (l := 1)) by lia. cbn [bind].
  rewrite store_ok by (rewrite repeat_length; lia). cbn [bind].
  change (Z.to_nat 1) with 1%nat.
  destruct (@positive_loop_spec T D acov mean_var var_plus n Hacov Hn n 1%nat
              (set_nth (repeat (of_int 0) n) 1 (rho_hat acov mean_var var_plus 1))
              (of_int 1) (rho_hat acov mean_var var_plus 1))
    as (K & _ & Hrun & Hpre & Hpost).
  - lia.
  - now rewrite length_set_nth, repeat_length.
  - intros l Hl. rewrite nth_set_nth by (rewrite repeat_length; lia).
    destruct l as [| [| l]]; cbn [Nat.eqb Nat.ltb Nat.leb Nat.mul Nat.add positive_sequence_at];
      try reflexivity; apply nth_repeat.
  - reflexivity.
  - reflexivity.
  - intros k' Hk'. lia.
  - lia.
  - exists K. split; [| split; [exact Hrun | split; assumption]].
    destruct K as [| K]; [lia |].
    specialize (Hpre (S K) ltac:(lia)). unfold reached in Hpre.
    apply andb_prop in Hpre as (Hb & _). apply Nat.ltb_lt in Hb. lia.
Qed.

Lemma monotone_loop_returns (fuel : nat) :
  forall (t max_t : Z) (v : list T),
    (1 <= t)%Z -> (max_t < Z.of_nat (length v))%Z -> (max_t - t < Z.of_nat fuel)%Z ->
    exists v' : list T, monotone_loop fuel t max_t v = Ok v' /\ length v' = length v.
Proof.
  induction fuel as [| fuel IH]; intros t max_t v Ht Hmax Hfuel; cbn [monotone_loop].
  - exists v. now replace (t <=? max_t - 2)%Z with false
      by (symmetry; apply Z.leb_gt; lia).
  - destruct (t <=? max_t - 2)%Z eqn:Hcond; [| now exists v].
    apply Z.leb_le in Hcond.
    rewrite !(at_ok v (of_int 0)) by lia. cbn [bind].
    match goal with
    | |- context [if ?c then _ else _] => destruct c
    end.
    + rewrite store_ok by lia. cbn [bind].
      rewrite (at_ok _ (of_int 0)) by (rewrite length_set_nth; lia). cbn [bind].
      rewrite store_ok by (rewrite length_set_nth; lia). cbn [bind].
      destruct (IH (t + 2)%Z max_t
                  (set_nth (set_nth v (Z.to_nat (t + 1))
                             ((nth (Z.to_nat (t - 1)) v (of_int 0)
                               + nth (Z.to_nat t) v (of_int 0)) / of_int 2))
                     (Z.to_nat (t + 2))
                     (nth (Z.to_nat (t + 1))
                        (set_nth v (Z.to_nat (t + 1))
                           ((nth (Z.to_nat (t - 1)) v (of_int 0)
                             + nth (Z.to_nat t) v (of_int 0)) / of_int 2))
                        (of_int 0))))
        as (v' & Hrun & Hlen); [lia | rewrite !length_set_nth; lia | lia |].
      exists v'. split; [exact Hrun |]. now rewrite Hlen, !length_set_nth.
    + cbn [bind]. destruct (IH (t + 2)%Z max_t v) as (v' & Hrun & Hlen); [lia | lia | lia |].
      now exists v'.
Qed.

End FullVariant.



(** ** Adding a constant to every draw (C9) *)

Section AddConstant.

Local Open Scope R_scope.
Variable c : R.

Lemma sum_add_constant (l : list R) :
  sum (map (fun x => x + c) l) = sum l + INR (length l) * c.
Proof.
  induction l as [| x l IH].
  - simpl. rewrite sum_nil. lra.
  - change (map (fun x => x + c) (x :: l)) with ((x + c) :: map (fun x => x + c) l).
    change (length (x :: l)) with (S (length l)).
    rewrite !sum_cons, IH, S_INR. lra.
Qed.

Lemma mean_add_constant (l : list R) :
  l <> [] -> mean (map (fun x => x + c) l) = mean l + c.
Proof.
  intros Hl. unfold mean. rewrite sum_add_constant, length_map. simpl.
  rewrite <- INR_IZR_INZ. field. apply not_0_INR.
  destruct l; [contradiction | discriminate].
Qed.

Lemma centred_add_constant (l : list R) :
  map (fun x => x - mean (map (fun x => x + c) l)) (map (fun x => x + c) l)
  = map (fun x => x - mean l) l.
Proof.
  destruct l as [| x l]; [reflexivity |].
  rewrite mean_add_constant by discriminate.
  rewrite map_map. apply map_ext. intros y. lra.
Qed.

Lemma autocovariance_add_constant (y : list R) :
  autocovariance (map (fun x => x + c) y) = autocovariance y.
Proof.
  unfold autocovariance. cbv zeta.
  change (fun x : R => (x - mean (map (fun x0 => x0 + c) y))%D)
    with (fun x : R => x - mean (map (fun x0 => x0 + c) y)).
  change (fun x : R => (x - mean y)%D) with (fun x : R => x - mean y).
  rewrite centred_add_constant, length_map. reflexivity.
Qed.

Lemma variance_add_constant (l : list R) :
  variance (map (fun x => x + c) l) = variance l.
Proof.
  assert (forall (v : list R) (m : R),
             map (fun x => ((x - m) * (x - m))%D) v
             = map (fun d => d * d) (map (fun x => x - m) v)) as squares
    by (intros v m; now rewrite map_map).
  unfold variance. cbv zeta. rewrite length_map, !squares.
  now rewrite centred_add_constant.
Qed.

Lemma column_add_constant (nm : NumericMatrix R) (chain : nat) :
  column (add_constant nm c) chain = map (fun x => x + c) (column nm chain).
Proof.
  unfold column, add_constant. simpl. now rewrite skipn_map, firstn_map.
Qed.

Lemma columns_add_constant (nm : NumericMatrix R) :
  columns (add_constant nm c) = map (map (fun x => x + c)) (columns nm).
Proof.
  unfold columns. rewrite map_map. simpl. apply map_ext. intros chain.
  apply column_add_constant.
Qed.

Lemma chain_means_add_constant (nm : NumericMatrix R) :
  wf_matrix nm ->
  variance (map mean (columns (add_constant nm c))) = variance (map mean (columns nm)).
Proof.
  intros Hwf. rewrite columns_add_constant, map_map.
  pose proof (columns_length Hwf) as Hlen.
  destruct (nrow nm) as [| n] eqn:Hn.
  - f_equal. apply map_ext_in. intros col Hcol.
    rewrite Forall_forall in Hlen. specialize (Hlen col Hcol).
    destruct col; [reflexivity | discriminate].
  - rewrite <- (variance_add_constant (map mean (columns nm))). rewrite map_map. f_equal.
    apply map_ext_in. intros col Hcol.
    rewrite Forall_forall in Hlen. specialize (Hlen col Hcol).
    apply mean_add_constant. destruct col; [discriminate | discriminate].
Qed.

Lemma ess2_moments_add_constant (nm : NumericMatrix R) :
  wf_matrix nm -> ess2_moments (add_constant nm c) = ess2_moments nm.
Proof.
  intros Hwf. unfold ess2_moments. cbv zeta.
  assert (map autocovariance (columns (add_constant nm c))
          = map autocovariance (columns nm)) as Hacov.
  { rewrite columns_add_constant, map_map. apply map_ext. intros col.
    apply autocovariance_add_constant. }
  rewrite Hacov. unfold var_plus_of.
  rewrite (chain_means_add_constant Hwf). reflexivity.
Qed.

End AddConstant.

(** ** The simplified variant (C5, C10) *)

Section SimplifiedVariant.

Context {T : Type} {D : Double T}.
Variables (acov : list (list T)) (mean_var var_plus : T) (n : nat).
Hypothesis acov_long : Forall (fun acov_chain => (n <= length acov_chain)%nat) acov.
Local Open Scope double_scope.

(** The loop of [effective_sample_size2] from [t] on, [previous] being the
    [rho_hat] of the round before. *)
Lemma ess2_loop_spec (fuel : nat) :
  forall (t : nat) (previous : T) (rho_hat_t : list T),
    (n - t <= fuel)%nat ->
    ess2_loop fuel acov mean_var var_plus (Z.of_nat n) (Z.of_nat t) previous rho_hat_t
    = Ok (if previous >=? of_int 0
          then rho_hat_t
               ++ nonnegative_prefix
                    (map (rho_hat acov mean_var var_plus) (seq t (n - t)))
          else rho_hat_t).
Proof.
  induction fuel as [| fuel IH]; intros t previous rho_hat_t Hfuel; cbn [ess2_loop].
  - replace (Z.of_nat t <? Z.of_nat n)%Z with false by (symmetry; apply Z.ltb_ge; lia).
    replace (n - t)%nat with 0%nat by lia. simpl. rewrite app_nil_r.
    now destruct (previous >=? of_int 0).
  - destruct (Z.of_nat t <? Z.of_nat n)%Z eqn:Ht.
    2:{ apply Z.ltb_ge in Ht. replace (n - t)%nat with 0%nat by lia. simpl.
        rewrite app_nil_r. now destruct (previous >=? of_int 0). }
    apply Z.ltb_lt in Ht. destruct (previous >=? of_int 0); [| reflexivity].
    cbn [andb]. rewrite (rho_hat_at_ok mean_var var_plus acov_long) by lia.
    cbn [bind]. replace (Z.of_nat t + 1)%Z with (Z.of_nat (S t)) by lia.
    rewrite IH by lia.
    replace (n - t)%nat with (S (n - S t)) by lia.
    cbn [seq map nonnegative_prefix].
    destruct (rho_hat acov mean_var var_plus t >=? of_int 0).
    + now rewrite <- app_assoc.
    + now rewrite app_nil_r.
Qed.

End SimplifiedVariant.

Section SimplifiedMoments.

Context {T : Type} {D : Double T}.
Local Open Scope double_scope.

Lemma autocovariance_length (y : list T) : length (autocovariance y) = length y.
Proof. unfold autocovariance. now rewrite length_map, length_seq. Qed.

Lemma acov_of_columns_long (nm : NumericMatrix T) :
  wf_matrix nm ->
  Forall (fun acov_chain => (nrow nm <= length acov_chain)%nat)
         (map autocovariance (columns nm)).
Proof.
  intros Hwf. pose proof (columns_length Hwf) as Hlen.
  apply Forall_forall. intros a Ha. apply in_map_iff in Ha as (col & <- & Hcol).
  rewrite Forall_forall in Hlen. rewrite autocovariance_length, (Hlen col Hcol). lia.
Qed.

Lemma ess2_moments_ok (nm : NumericMatrix T) :
  wf_matrix nm -> (1 <= nrow nm)%nat ->
  let acov := map autocovariance (columns nm) in
  let n_samples := Z.of_nat (nrow nm) in
  let chain_var :=
    map (fun acov_chain =>
           nth 0 acov_chain (of_int 0) * of_int n_samples / of_int (u32 (n_samples - 1)))
        acov in
  ess2_moments nm
  = Ok (acov, mean chain_var,
        var_plus_of (Z.of_nat (ncol nm)) n_samples (mean chain_var)
                    (map mean (columns nm))).
Proof.
  intros Hwf Hn acov n_samples chain_var. unfold ess2_moments. fold acov n_samples.
  rewrite mapM_map
    with (g := fun acov_chain =>
                 nth 0 acov_chain (of_int 0) * of_int n_samples
                 / of_int (u32 (n_samples - 1))).
  - reflexivity.
  - intros a Ha. pose proof (acov_of_columns_long Hwf) as Hlong.
    rewrite Forall_forall in Hlong. specialize (Hlong a Ha).
    rewrite (at_ok a (of_int 0)) by lia. reflexivity.
Qed.

(** [effective_sample_size2] for every scalar type in which [0 >= 0]:
    the loop, entered with [rho_hat = 0], keeps the values of [rho_hat] up
    to the first one that is not [>= 0]; the product [m * n_samples] is
    divided when a value was kept. *)
Lemma effective_sample_size2_returns (nm : NumericMatrix T)
    (acov : list (list T)) (mean_var var_plus : T) :
  wf_matrix nm -> ess2_moments nm = Ok (acov, mean_var, var_plus) ->
  (of_int 0 >=? of_int 0) = true ->
  ess2_loop (nrow nm) acov mean_var var_plus (Z.of_nat (nrow nm)) 1 (of_int 0) []
  = Ok (single_sequence acov mean_var var_plus (nrow nm))
  /\ effective_sample_size2 nm
     = Ok (let kept := single_sequence acov mean_var var_plus (nrow nm) in
           let ess := of_int (u32 (Z.of_nat (ncol nm) * Z.of_nat (nrow nm))) in
           if (0 <? length kept)%nat
           then ess / (of_int 1 + of_int 2 * sum kept)
           else ess).
Proof.
  intros Hwf Hmoments Hzero.
  assert (Forall (fun acov_chain => (nrow nm <= length acov_chain)%nat) acov) as Hlong.
  { unfold ess2_moments in Hmoments. apply bind_ok in Hmoments as (cv & _ & H).
    injection H as <- _ _. now apply acov_of_columns_long. }
  assert (ess2_loop (nrow nm) acov mean_var var_plus (Z.of_nat (nrow nm)) 1 (of_int 0) []
          = Ok (single_sequence acov mean_var var_plus (nrow nm))) as Hloop.
  { change 1%Z with (Z.of_nat 1).
    rewrite (ess2_loop_spec mean_var var_plus Hlong) by lia.
    rewrite Hzero. reflexivity. }
  split; [exact Hloop |].
  unfold effective_sample_size2. rewrite Hmoments. cbn [bind].
  rewrite Hloop. cbn [bind]. cbv zeta.
  now destruct (0 <? length (single_sequence acov mean_var var_plus (nrow nm)))%nat.
Qed.

Lemma nonnegative_prefix_nonnegative (rho : list T) :
  Forall (fun r => (r >=? of_int 0) = true) (nonnegative_prefix rho).
Proof.
  induction rho as [| r rho IH]; simpl; [constructor |].
  destruct (r >=? of_int 0) eqn:E; now constructor.
Qed.

End SimplifiedMoments.

Section SimplifiedExact.

Local Open Scope R_scope.

Lemma exact_ge_zero (x : R) : (x >=? of_int 0)%D = true <-> 0 <= x.
Proof.
  simpl. unfold Exact.ge. destruct (Rle_dec 0 x); split; intros; auto; discriminate.
Qed.

Lemma effective_sample_size2_spec (nm : NumericMatrix R)
    (acov : list (list R)) (mean_var var_plus : R) :
  wf_matrix nm -> ess2_moments nm = Ok (acov, mean_var, var_plus) ->
  ess2_loop (nrow nm) acov mean_var var_plus (Z.of_nat (nrow nm)) 1 (of_int 0) []
  = Ok (single_sequence acov mean_var var_plus (nrow nm))
  /\ effective_sample_size2 nm
     = Ok (IZR (u32 (Z.of_nat (ncol nm) * Z.of_nat (nrow nm)))
           / (1 + 2 * sum (single_sequence acov mean_var var_plus (nrow nm)))).
Proof.
  intros Hwf Hmoments.
  assert (Forall (fun acov_chain => (nrow nm <= length acov_chain)%nat) acov) as Hlong.
  { unfold ess2_moments in Hmoments. apply bind_ok in Hmoments as (cv & _ & H).
    injection H as <- _ _. now apply acov_of_columns_long. }
  assert (ess2_loop (nrow nm) acov mean_var var_plus (Z.of_nat (nrow nm)) 1 (of_int 0) []
          = Ok (single_sequence acov mean_var var_plus (nrow nm))) as Hloop.
  { change 1%Z with (Z.of_nat 1).
    rewrite (ess2_loop_spec mean_var var_plus Hlong) by lia.
    replace ((of_int 0 : R) >=? of_int 0)%D with true
      by (symmetry; apply exact_ge_zero; simpl; lra).
    reflexivity. }
  split; [exact Hloop |].
  unfold effective_sample_size2. rewrite Hmoments. cbn [bind].
  rewrite Hloop. cbn [bind].
  destruct (single_sequence acov mean_var var_plus (nrow nm)) as [| r l] eqn:E.
  - simpl. rewrite sum_nil. f_equal. field.
  - reflexivity.
Qed.

Lemma single_sequence_nonnegative (acov : list (list R)) (mean_var var_plus : R)
    (n : nat) :
  Forall (fun r => 0 <= r) (single_sequence acov mean_var var_plus n).
Proof.
  unfold single_sequence.
  eapply Forall_impl; [| apply nonnegative_prefix_nonnegative].
  intros r Hr. now apply exact_ge_zero.
Qed.

End SimplifiedExact.

(** C9, as the code has it.  In exact arithmetic, on an
    [n_samples x n_chains] matrix with [n_samples >= 2] and [var_plus > 0]
    (so that nothing divides by zero), adding a constant to every entry
    leaves the autocovariances, [mean_var] and [var_plus] as they are, and
    so the simplified effective sample size.  The code computes in
    [double], where the shifted draws, their means and their products are
    rounded: there the two values agree up to rounding only. *)
Theorem effective_sample_size2_add_constant :
  forall (nm : NumericMatrix R) (c : R) (acov : list (list R)) (mean_var var_plus : R),
    wf_matrix nm -> (2 <= nrow nm)%nat ->
    ess2_moments nm = Ok (acov, mean_var, var_plus) -> (0 < var_plus)%R ->
    ess2_moments (add_constant nm c) = Ok (acov, mean_var, var_plus)
    /\ effective_sample_size2 (add_constant nm c) = effective_sample_size2 nm.
Proof.
  intros nm c acov mean_var var_plus Hwf _ Hmoments _.
  split; [now rewrite (ess2_moments_add_constant c Hwf) |].
  unfold effective_sample_size2.
  rewrite (ess2_moments_add_constant c Hwf). reflexivity.
Qed.

Lemma effective_sample_size2_add_constant_witness :
  let nm := matrix_of_columns 8 [doubles uneven_chain : list R] in
  exists (acov : list (list R)) (mean_var var_plus : R),
    ess2_moments nm = Ok (acov, mean_var, var_plus)
    /\ (0 < var_plus)%R
    /\ ess2_moments (add_constant nm 10%R) = Ok (acov, mean_var, var_plus)
    /\ effective_sample_size2 (add_constant nm 10%R) = effective_sample_size2 nm.
Proof.
  intros nm.
  assert (wf_matrix nm) as Hwf
    by (apply matrix_of_columns_wf; [repeat constructor | reflexivity | reflexivity]).
  assert (2 <= nrow nm)%nat as Hn by (simpl; lia).
  assert (1 <= nrow nm)%nat as Hn1 by (simpl; lia).
  pose proof (ess2_moments_ok Hwf Hn1) as Hmoments. cbv zeta in Hmoments.
  assert (0 < var_plus_of (Z.of_nat (ncol nm)) (Z.of_nat (nrow nm))
                 (mean (map (fun acov_chain : list R =>
                               (nth 0 acov_chain (of_int 0) * of_int (Z.of_nat (nrow nm))
                                / of_int (u32 (Z.of_nat (nrow nm) - 1)))%D)
                            (map autocovariance (columns nm))))
                 (map mean (columns nm)))%R as Hvar
    by (exact_compute; lra).
  do 3 eexists. split; [exact Hmoments |]. split; [exact Hvar |].
  exact (effective_sample_size2_add_constant 10%R Hwf Hn Hmoments Hvar).
Defined.

(** C9 as stated fails: the code computes in [double].  For the chain
    1, 3, 2, 5, 4, 4, 6, 5 it returns 5.6764132553606235
    (0x1.6b4a5ad296b4ap+2); with the double nearest to 0.1 added to every
    draw, 5.6764132553606252 (0x1.6b4a5ad296b4cp+2); with [2^53] added,
    where the draws are rounded to even integers, 8. *)
Lemma shifted_draws_change_the_value_in_binary64 :
  let nm := matrix_of_columns 8 [binary64s uneven_chain] in
  effective_sample_size2 nm = Ok 0x1.6b4a5ad296b4ap+2%float
  /\ effective_sample_size2 (add_constant nm tenth) = Ok 0x1.6b4a5ad296b4cp+2%float
  /\ effective_sample_size2 (add_constant nm (of_int (2 ^ 53))) = Ok (of_int 8)
  /\ effective_sample_size2 (add_constant nm tenth) <> effective_sample_size2 nm
  /\ effective_sample_size2 (add_constant nm (of_int (2 ^ 53)))
     <> effective_sample_size2 nm.
Proof.
  intros nm.
  assert (effective_sample_size2 nm = Ok 0x1.6b4a5ad296b4ap+2%float) as H0
    by (vm_compute; reflexivity).
  assert (effective_sample_size2 (add_constant nm tenth) = Ok 0x1.6b4a5ad296b4cp+2%float)
    as H1 by (vm_compute; reflexivity).
  assert (effective_sample_size2 (add_constant nm (of_int (2 ^ 53))) = Ok (of_int 8))
    as H2 by (vm_compute; reflexivity).
  repeat match goal with |- _ /\ _ => split end; try assumption.
  - rewrite H0, H1. intros H.
    apply (f_equal (fun r => match r with
                             | Ok x => same_double x 0x1.6b4a5ad296b4ap+2
                             | _ => true
                             end)) in H.
    vm_compute in H. discriminate.
  - rewrite H0, H2. intros H.
    apply (f_equal (fun r => match r with
                             | Ok x => same_double x 0x1.6b4a5ad296b4ap+2
                             | _ => true
                             end)) in H.
    vm_compute in H. discriminate.
Qed.

(** In binary64 the two values are the same where the shift and the sums
    are exact, as for the chain 1, ..., 8 and the constant 10. *)
Lemma add_constant_in_binary64 :
  effective_sample_size2 (add_constant (matrix_of_columns 8 [binary64s chain8])
                                       (of_int 10))
  = effective_sample_size2 (matrix_of_columns 8 [binary64s chain8]).
Proof. vm_compute. reflexivity. Qed.

(** C10.  In exact arithmetic the simplified effective sample size of an
    [n_samples x n_chains] matrix with [n_samples >= 2] and [var_plus > 0]
    is at most [m * n_samples]: the values it accumulates are nonnegative,
    so the divisor [1 + 2 * sum rho_hat_t] is at least 1.  (The two bounds
    keep the input where no moment divides by zero; the argument itself
    does not use them.) *)
Theorem effective_sample_size2_at_most_the_draws :
  forall (nm : NumericMatrix R) (acov : list (list R)) (mean_var var_plus : R),
    wf_matrix nm -> (2 <= nrow nm)%nat ->
    ess2_moments nm = Ok (acov, mean_var, var_plus) -> (0 < var_plus)%R ->
    exists (rho_hat_t : list R) (ess : R),
      ess2_loop (nrow nm) acov mean_var var_plus (Z.of_nat (nrow nm)) 1 (of_int 0) []
      = Ok rho_hat_t
      /\ Forall (fun r => (0 <= r)%R) rho_hat_t
      /\ (1 <= 1 + 2 * sum rho_hat_t)%R
      /\ (ess = IZR (u32 (Z.of_nat (ncol nm) * Z.of_nat (nrow nm)))
                / (1 + 2 * sum rho_hat_t))%R
      /\ effective_sample_size2 nm = Ok ess
      /\ (ess <= IZR (Z.of_nat (ncol nm) * Z.of_nat (nrow nm)))%R.
Proof.
  intros nm acov mean_var var_plus Hwf Hn Hmoments Hvar.
  destruct (effective_sample_size2_spec Hwf Hmoments) as (Hloop & Hess).
  pose proof (single_sequence_nonnegative acov mean_var var_plus (nrow nm)) as Hnonneg.
  pose proof (sum_nonneg Hnonneg) as Hsum.
  eexists. eexists. split; [exact Hloop |]. split; [exact Hnonneg |].
  split; [lra |]. split; [reflexivity |]. split; [exact Hess |].
  set (d := (1 + 2 * sum (single_sequence acov mean_var var_plus (nrow nm)))%R).
  set (mn := (Z.of_nat (ncol nm) * Z.of_nat (nrow nm))%Z).
  assert (0 <= u32 mn <= mn)%Z as Hu.
  { unfold u32. split; [apply Z.mod_pos_bound; reflexivity |].
    apply Z.mod_le; [unfold mn; lia | reflexivity]. }
  assert (0 <= IZR (u32 mn) <= IZR mn)%R as (H0 & H1)
    by (split; apply IZR_le; lia).
  assert (1 <= d)%R as Hd by (unfold d; lra).
  apply Rle_trans with (IZR (u32 mn)); [| exact H1].
  apply Rle_trans with (IZR (u32 mn) / 1)%R; [| lra].
  unfold Rdiv. apply Rmult_le_compat_l; [exact H0 |].
  apply Rinv_le_contravar; lra.
Qed.

Lemma effective_sample_size2_at_most_the_draws_witness :
  exists (rho_hat_t : list R) (ess : R),
    Forall (fun r => (0 <= r)%R) rho_hat_t
    /\ (1 <= 1 + 2 * sum rho_hat_t)%R
    /\ effective_sample_size2 (matrix_of_columns 4 [doubles [1; 2; 3; 4]%Z]) = Ok ess
    /\ (ess <= 4)%R.
Proof.
  assert (wf_matrix (matrix_of_columns 4 [doubles [1; 2; 3; 4]%Z : list R])) as Hwf
    by (apply matrix_of_columns_wf; [repeat constructor | reflexivity | reflexivity]).
  assert (2 <= nrow (matrix_of_columns 4 [doubles [1; 2; 3; 4]%Z : list R]))%nat as Hn
    by (simpl; lia).
  pose proof (ess2_moments_ok Hwf (le_S _ _ (le_S _ _ (le_S _ _ (le_n 1)))))
    as Hmoments.
  cbv zeta in Hmoments.
  destruct (effective_sample_size2_at_most_the_draws Hwf Hn Hmoments)
    as (rho_hat_t & ess & _ & H1 & H2 & _ & H3 & H4).
  - exact_compute. lra.
  - exists rho_hat_t, ess. repeat split; assumption.
Defined.

(** ** The full variant on the record of a matrix (C5) *)

Section MatrixRecord.

Context {T : Type} {D : Double T}.
Local Open Scope double_scope.

Variables (chains n_flatnames : Z) (n_save warmup2 : list Z) (stored : list (list T)).

Local Notation "'sim'" := (sim_of chains n_flatnames n_save warmup2 stored).

Lemma to_unsigned_ok (z : Z) : (0 <= z < 2 ^ 32)%Z -> to_unsigned (Some z) = Ok z.
Proof.
  intros Hz. unfold to_unsigned.
  replace (0 <=? z)%Z with true by (symmetry; apply Z.leb_le; lia).
  now replace (z <? 2 ^ 32)%Z with true by (symmetry; apply Z.ltb_lt; lia).
Qed.

Lemma as_unsigned_vector_integers (v : list Z) :
  Forall (fun z => (0 <= z < 2 ^ 32)%Z) v ->
  as_unsigned_vector (RInteger v : SEXP T) = Ok v.
Proof.
  intros Hv. simpl. rewrite mapM_map with (g := fun z => z); [now rewrite map_id |].
  intros z Hz. rewrite Forall_forall in Hv. now apply to_unsigned_ok, Hv.
Qed.

Lemma as_unsigned_integer (z : Z) :
  (0 <= z < 2 ^ 32)%Z -> as_unsigned (RInteger [z] : SEXP T) = Ok z.
Proof.
  intros Hz. unfold as_unsigned. cbn [Rf_length length Z.of_nat Z.eqb Pos.of_succ_nat Pos.eqb].
  rewrite as_unsigned_vector_integers by (constructor; [assumption | constructor]).
  reflexivity.
Qed.

Lemma num_chains_sim_of :
  (0 <= chains < 2 ^ 32)%Z -> num_chains sim = Ok chains.
Proof. intros H. unfold num_chains. simpl by_name. cbn [as_List sim_of bind]. now apply as_unsigned_integer. Qed.

Lemma num_params_sim_of :
  (0 <= n_flatnames < 2 ^ 32)%Z -> num_params sim = Ok n_flatnames.
Proof.
  intros H. unfold num_params. simpl by_name. cbn [as_List sim_of bind].
  now apply as_unsigned_integer.
Qed.

Lemma validate_param_idx_sim_of (n : Z) :
  (0 <= n < n_flatnames)%Z -> (n_flatnames < 2 ^ 32)%Z ->
  validate_param_idx sim n = Ok tt.
Proof.
  intros Hn Hp. unfold validate_param_idx. rewrite num_params_sim_of by lia.
  cbn [bind]. now replace (n <? n_flatnames)%Z with true by (symmetry; apply Z.ltb_lt; lia).
Qed.

Lemma validate_chain_idx_sim_of (k : Z) :
  (0 <= k < chains)%Z -> (chains < 2 ^ 32)%Z -> validate_chain_idx sim k = Ok tt.
Proof.
  intros Hk Hc. unfold validate_chain_idx. cbv zeta.
  unfold u32 at 1. rewrite (Z.mod_small k) by lia.
  rewrite num_chains_sim_of by lia.
  cbn [bind]. now replace (chains <=? k)%Z with false by (symmetry; apply Z.leb_gt; lia).
Qed.

Lemma chain_param_sim_of (k : nat) (nv : list T) :
  nth_error stored k = Some nv ->
  chain_param sim (Z.of_nat k) 0 = Ok (nv, n_save, warmup2).
Proof.
  intros Hnv. unfold chain_param, sim_of, sim_fields. simpl.
  rewrite map_map. simpl. unfold at_ at 1.
  replace (Z.of_nat k <? 0)%Z with false by (symmetry; apply Z.ltb_ge; lia).
  rewrite Nat2Z.id, (map_nth_error _ _ _ Hnv). reflexivity.
Qed.

Lemma at_nth_error {A : Type} (v : list A) (k : nat) (a : A) :
  nth_error v k = Some a -> at_ v (Z.of_nat k) = Ok a.
Proof.
  intros H. unfold at_.
  replace (Z.of_nat k <? 0)%Z with false by (symmetry; apply Z.ltb_ge; lia).
  now rewrite Nat2Z.id, H.
Qed.

(** Reading a vector from its first to its last element. *)
Lemma read_all (nv : list T) :
  mapM (fun i => at_ nv (0 + Z.of_nat i)) (seq 0 (length nv)) = Ok nv.
Proof.
  rewrite mapM_map with (g := fun i => nth i nv (of_int 0)).
  - f_equal. apply nth_ext with (d := of_int 0) (d' := of_int 0).
    + now rewrite length_map, length_seq.
    + intros i Hi. rewrite length_map, length_seq in Hi.
      rewrite nth_indep with (d' := nth 0 nv (of_int 0))
        by now rewrite length_map, length_seq.
      now rewrite (map_nth (fun i => nth i nv (of_int 0))), seq_nth.
  - intros i Hi. apply in_seq in Hi.
    rewrite (at_ok nv (of_int 0)) by lia. now rewrite Z.add_0_l, Nat2Z.id.
Qed.

Lemma apply_kept_samples_sim_of (k : nat) (nv : list T) :
  nth_error stored k = Some nv -> nth_error warmup2 k = Some 0%Z ->
  nth_error n_save k = Some (Z.of_nat (length nv)) ->
  apply_kept_samples sim (Z.of_nat k) 0 = Ok nv.
Proof.
  intros Hnv Hw Hs. unfold apply_kept_samples.
  rewrite (chain_param_sim_of _ Hnv). cbn [bind].
  rewrite (at_nth_error _ _ Hw), (at_nth_error _ _ Hs). cbn [bind].
  rewrite Z.sub_0_r, Nat2Z.id. apply read_all.
Qed.

Lemma get_chain_mean_sim_of (k : nat) (nv : list T) :
  (Z.of_nat k < chains < 2 ^ 32)%Z -> (0 < n_flatnames < 2 ^ 32)%Z ->
  nth_error stored k = Some nv -> nth_error warmup2 k = Some 0%Z ->
  nth_error n_save k = Some (Z.of_nat (length nv)) ->
  get_chain_mean sim (Z.of_nat k) 0 = Ok (mean nv).
Proof.
  intros Hk Hp Hnv Hw Hs. unfold get_chain_mean.
  rewrite validate_chain_idx_sim_of by lia. cbn [bind].
  rewrite validate_param_idx_sim_of by lia. cbn [bind].
  now rewrite (apply_kept_samples_sim_of _ Hnv Hw Hs).
Qed.

Lemma autocovariance_sim_of (k : nat) (nv : list T) :
  nth_error stored k = Some nv -> nth_error warmup2 k = Some 0%Z ->
  autocovariance_sim sim (Z.of_nat k) 0 = Ok (autocovariance nv).
Proof.
  intros Hnv Hw. unfold autocovariance_sim.
  rewrite (@get_kept_samples_sim_of T D chains n_flatnames n_save warmup2 stored k nv 0)
    by (try assumption; lia).
  reflexivity.
Qed.

End MatrixRecord.

Section MatrixAsRecord.

Context {T : Type} {D : Double T}.
Local Open Scope double_scope.

Lemma mapM_of_map {A B C : Type} (f : B -> result C) (h : A -> B) (l : list A) :
  mapM f (map h l) = mapM (fun a => f (h a)) l.
Proof. induction l as [| a l IH]; simpl; [reflexivity | now rewrite IH]. Qed.

Lemma map_constant {A B : Type} (x : B) (l : list A) :
  map (fun _ => x) l = repeat x (length l).
Proof. induction l as [| a l IH]; simpl; [reflexivity | now rewrite IH]. Qed.

Lemma repeat_in_range (x : Z) (m : nat) :
  (0 <= x < 2 ^ 32)%Z -> Forall (fun z => (0 <= z < 2 ^ 32)%Z) (repeat x m).
Proof. intros Hx. apply Forall_forall. intros z Hz. apply repeat_spec in Hz. now subst. Qed.

(** [ns_kept] of a record whose chains all have [x] draws saved and no
    warmup. *)
Lemma ns_kept_of_no_warmup (chains n_flatnames x : Z) (m : nat)
    (stored : list (list T)) :
  (0 <= x < 2 ^ 32)%Z ->
  ns_kept_of (sim_fields chains n_flatnames (repeat x m) (repeat 0%Z m) stored)
  = Ok (repeat x m).
Proof.
  intros Hx. unfold ns_kept_of, sim_fields. simpl by_name. cbn [bind].
  rewrite !as_unsigned_vector_integers
    by (apply repeat_in_range; [assumption || (split; [lia | reflexivity])]).
  cbn [bind]. rewrite repeat_length.
  rewrite mapM_map with (g := fun _ : nat => x).
  - now rewrite map_constant, length_seq.
  - intros i Hi. apply in_seq in Hi.
    rewrite (at_nth_error (repeat x m) i (a := x)) by (apply nth_error_repeat; lia).
    rewrite (at_nth_error (repeat 0%Z m) i (a := 0%Z)) by (apply nth_error_repeat; lia).
    cbn [bind]. unfold u32. rewrite Z.sub_0_r, Z.mod_small by lia. reflexivity.
Qed.

Lemma min_kept_repeat (x : Z) (m : nat) :
  (1 <= m)%nat -> min_kept (repeat x m) (Z.of_nat m) = Ok x.
Proof.
  intros Hm. unfold min_kept.
  change (at_ (repeat x m) 0) with (at_ (repeat x m) (Z.of_nat 0)).
  rewrite (at_nth_error (repeat x m) 0 (a := x)) by (apply nth_error_repeat; lia).
  cbn [bind]. rewrite Nat2Z.id.
  assert (forall l : list nat,
             Forall (fun chain => (chain < m)%nat) l ->
             fold_left (fun acc chain =>
                          do n_samples <- acc;
                          do kept <- at_ (repeat x m) (Z.of_nat chain);
                          Ok (Z.min n_samples kept))
                       l (Ok x) = Ok x) as H.
  { induction 1 as [| chain l Hc _ IH]; simpl; [reflexivity |].
    rewrite (at_nth_error (repeat x m) chain (a := x)) by now apply nth_error_repeat.
    cbn [bind]. now rewrite Z.min_id. }
  apply H. apply Forall_forall. intros chain Hc. apply in_seq in Hc. lia.
Qed.

Lemma nth_error_columns (nm : NumericMatrix T) (k : nat) :
  (k < ncol nm)%nat -> nth_error (columns nm) k = Some (column nm k).
Proof.
  intros Hk. unfold columns.
  rewrite nth_error_map, nth_error_nth' with (d := 0%nat) by now rewrite length_seq.
  now rewrite seq_nth.
Qed.

Lemma ess_moments_sim_of_matrix (nm : NumericMatrix T) :
  wf_matrix nm -> (1 <= nrow nm)%nat -> (1 <= ncol nm)%nat ->
  ess_moments (sim_of_matrix nm) (RInteger [0%Z])
  = (do '(acov, mean_var, var_plus) <- ess2_moments nm;
     Ok (acov, mean_var, var_plus, Z.of_nat (ncol nm), Z.of_nat (nrow nm))).
Proof.
  intros Hwf Hn Hm. rewrite (ess2_moments_ok Hwf Hn). cbn [bind].
  pose proof Hwf as (_ & Hrows & Hcols).
  change (2 ^ 31)%Z with 2147483648%Z in Hrows, Hcols.
  assert (2 ^ 32 = 4294967296)%Z as H32 by reflexivity.
  unfold ess_moments, sim_of_matrix.
  rewrite validate_sim_sim_of.
  replace (length (columns nm)) with (ncol nm)
    by (unfold columns; now rewrite length_map, length_seq).
  rewrite Z.eqb_refl. cbn [bind as_List sim_of].
  rewrite as_unsigned_integer by lia. cbn [bind].
  rewrite validate_param_idx_sim_of by lia. cbn [bind].
  rewrite num_chains_sim_of by lia. cbn [bind].
  rewrite ns_kept_of_no_warmup by lia. cbn [bind].
  rewrite min_kept_repeat by lia. cbn [bind].
  unfold chains_upto. rewrite Nat2Z.id, !mapM_of_map.
  rewrite mapM_map with (g := fun k => autocovariance (column nm k)).
  2:{ intros k Hk. apply in_seq in Hk.
      apply autocovariance_sim_of;
        [apply nth_error_columns; lia | apply nth_error_repeat; lia]. }
  cbn [bind]. rewrite mapM_of_map.
  rewrite mapM_map
    with (g := fun k =>
                 (mean (column nm k),
                  nth 0 (autocovariance (column nm k)) (of_int 0)
                  * of_int (Z.of_nat (nrow nm))
                  / of_int (u32 (Z.of_nat (nrow nm) - 1)))).
  2:{ intros k Hk. apply in_seq in Hk.
      rewrite (at_nth_error (repeat (Z.of_nat (nrow nm)) (ncol nm)) k
                 (a := Z.of_nat (nrow nm))) by (apply nth_error_repeat; lia).
      cbn [bind].
      rewrite (@get_chain_mean_sim_of T D _ _ _ _ _ k (column nm k));
        [| lia | lia | apply nth_error_columns; lia | apply nth_error_repeat; lia
         | rewrite column_length by (assumption || lia); apply nth_error_repeat; lia].
      cbn [bind].
      rewrite (at_nth_error _ k (a := autocovariance (column nm k)))
        by (rewrite nth_error_map, nth_error_nth' with (d := 0%nat)
              by (rewrite length_seq; lia);
            now rewrite seq_nth by lia).
      cbn [bind].
      rewrite (at_ok _ (of_int 0))
        by (rewrite autocovariance_length, column_length by (assumption || lia); lia).
      reflexivity. }
  cbn [bind]. unfold columns. rewrite !map_map. cbn [fst snd]. reflexivity.
Qed.

End MatrixAsRecord.

(** ** The effective sample size of a record (C4) *)




(** C5.  On an [n_samples x n_chains] matrix (with a column and at
    least two rows), for every scalar type in which [0 >= 0] holds, as it
    does in [double] and in exact arithmetic, the simplified variant
    computes its moments, walks the lags [1 .. n_samples - 1] in turn,
    keeps the values of [rho_hat] up to the first one that is not [>= 0]
    and stops there, and returns [m * n_samples], divided by
    [1 + 2 * sum rho_hat_t] when a value was kept; no monotone pass
    touches the values kept.  In exact arithmetic, for [var_plus > 0],
    that is [m * n_samples / (1 + 2 * sum rho_hat_t)] in either case.
    The product [m * n_samples] is taken in [unsigned int].  The
    autocovariances, [mean_var] and [var_plus] are those that the full
    variant computes on the record of the matrix (a chain per column, no
    warmup), and [rho_hat] is the same function of them. *)
Theorem simplified_variant_stops_at_the_first_negative_value :
  (forall (T : Type) (D : Double T) (nm : NumericMatrix T),
      wf_matrix nm -> (2 <= nrow nm)%nat -> (1 <= ncol nm)%nat ->
      (of_int 0 >=? of_int 0)%D = true ->
      exists (acov : list (list T)) (mean_var var_plus : T),
        ess2_moments nm = Ok (acov, mean_var, var_plus)
        /\ ess2_loop (nrow nm) acov mean_var var_plus (Z.of_nat (nrow nm)) 1 (of_int 0) []
           = Ok (nonnegative_prefix
                   (map (rho_hat acov mean_var var_plus) (seq 1 (nrow nm - 1))))
        /\ effective_sample_size2 nm
           = Ok (let kept :=
                   nonnegative_prefix
                     (map (rho_hat acov mean_var var_plus) (seq 1 (nrow nm - 1))) in
                 let ess := of_int (u32 (Z.of_nat (ncol nm) * Z.of_nat (nrow nm))) in
                 if (0 <? length kept)%nat
                 then (ess / (of_int 1 + of_int 2 * sum kept))%D
                 else ess)
        /\ (Z.of_nat (ncol nm) * Z.of_nat (nrow nm) < 2 ^ 32 ->
            u32 (Z.of_nat (ncol nm) * Z.of_nat (nrow nm))
            = Z.of_nat (ncol nm) * Z.of_nat (nrow nm))%Z)
  /\ (@dge float binary64 (of_int 0) (of_int 0) = true
      /\ @dge R exact (of_int 0) (of_int 0) = true)
  /\ (forall (nm : NumericMatrix R) (acov : list (list R)) (mean_var var_plus : R),
         wf_matrix nm -> (2 <= nrow nm)%nat ->
         ess2_moments nm = Ok (acov, mean_var, var_plus) -> (0 < var_plus)%R ->
         effective_sample_size2 nm
         = Ok (IZR (u32 (Z.of_nat (ncol nm) * Z.of_nat (nrow nm)))
               / (1 + 2 * sum (nonnegative_prefix
                                 (map (rho_hat acov mean_var var_plus)
                                      (seq 1 (nrow nm - 1))))))%R)
  /\ (forall (T : Type) (D : Double T) (nm : NumericMatrix T),
         wf_matrix nm -> (2 <= nrow nm)%nat -> (1 <= ncol nm)%nat ->
         ess_moments (sim_of_matrix nm) (RInteger [0%Z])
         = (do '(acov, mean_var, var_plus) <- ess2_moments nm;
            Ok (acov, mean_var, var_plus, Z.of_nat (ncol nm), Z.of_nat (nrow nm))))
  /\ (forall (T : Type) (D : Double T) (acov : list (list T)) (mean_var var_plus : T)
             (n l : nat),
         Forall (fun acov_chain => (n <= length acov_chain)%nat) acov -> (l < n)%nat ->
         rho_hat_at acov mean_var var_plus (Z.of_nat l)
         = Ok (rho_hat acov mean_var var_plus l)).
Proof.
  repeat match goal with |- _ /\ _ => split end.
  - intros T D nm Hwf Hn _ Hzero.
    assert (1 <= nrow nm)%nat as Hn1 by lia.
    pose proof (ess2_moments_ok Hwf Hn1) as Hmoments. cbv zeta in Hmoments.
    destruct (effective_sample_size2_returns Hwf Hmoments Hzero) as (Hloop & Hess).
    do 3 eexists. split; [exact Hmoments |]. split; [exact Hloop |].
    split; [exact Hess |].
    intros Hlt. unfold u32. apply Z.mod_small. lia.
  - vm_compute. reflexivity.
  - apply exact_ge_zero. simpl. lra.
  - intros nm acov mean_var var_plus Hwf Hn Hmoments _.
    exact (proj2 (effective_sample_size2_spec Hwf Hmoments)).
  - intros T D nm Hwf Hn Hm. apply ess_moments_sim_of_matrix; [assumption | lia | assumption].
  - intros T D acov mean_var var_plus n l Hacov Hl.
    now apply (rho_hat_at_ok mean_var var_plus Hacov).
Qed.

Lemma simplified_variant_stops_at_the_first_negative_value_witness :
  let nm := matrix_of_columns 8 [binary64s chain8] in
  exists (acov : list (list float)) (mean_var var_plus : float),
    ess2_moments nm = Ok (acov, mean_var, var_plus)
    /\ ess2_loop (nrow nm) acov mean_var var_plus (Z.of_nat (nrow nm)) 1 (of_int 0) []
       = Ok (nonnegative_prefix
               (map (rho_hat acov mean_var var_plus) (seq 1 (nrow nm - 1))))
    /\ effective_sample_size2 nm
       = Ok (let kept :=
               nonnegative_prefix
                 (map (rho_hat acov mean_var var_plus) (seq 1 (nrow nm - 1))) in
             let ess := of_int (u32 (Z.of_nat (ncol nm) * Z.of_nat (nrow nm))) in
             if (0 <? length kept)%nat
             then (ess / (of_int 1 + of_int 2 * sum kept))%D
             else ess)
    /\ (Z.of_nat (ncol nm) * Z.of_nat (nrow nm) < 2 ^ 32 ->
        u32 (Z.of_nat (ncol nm) * Z.of_nat (nrow nm))
        = Z.of_nat (ncol nm) * Z.of_nat (nrow nm))%Z.
Proof.
  intros nm.
  assert (wf_matrix nm) as Hwf
    by (apply matrix_of_columns_wf; [repeat constructor | reflexivity | reflexivity]).
  assert (2 <= nrow nm)%nat as Hn by (simpl; lia).
  assert (1 <= ncol nm)%nat as Hm by (simpl; lia).
  exact (proj1 simplified_variant_stops_at_the_first_negative_value
               float binary64 nm Hwf Hn Hm eq_refl).
Defined.

(** In [double]: the chain 1, ..., 8 keeps the values of lag 1 and lag 2
    and stops at the negative value of lag 3; the constant chain 5, 5, 5, 5
    has [rho_hat = NaN] at lag 1, which is not [>= 0]: nothing is kept and
    the four draws are returned undivided. *)
Lemma simplified_variant_in_binary64 :
  (exists (acov : list (list float)) (mean_var var_plus : float),
      ess2_moments (matrix_of_columns 8 [binary64s chain8]) = Ok (acov, mean_var, var_plus)
      /\ ess2_loop 8 acov mean_var var_plus 8 1 (of_int 0) []
         = Ok [0x1.edb6db6db6db6p-2; 0x1.0c30c30c30c3p-3]%float
      /\ Binary64.ge (rho_hat acov mean_var var_plus 3) (of_int 0) = false)
  /\ effective_sample_size2 (matrix_of_columns 8 [binary64s chain8])
     = Ok 0x1.cbfa862911cbfp+1%float
  /\ effective_sample_size2 (matrix_of_columns 4 [constant_chain]) = Ok (of_int 4).
Proof.
  split; [| split].
  - do 3 eexists. split; [vm_compute; reflexivity |].
    split; vm_compute; reflexivity.
  - vm_compute. reflexivity.
  - vm_compute. reflexivity.
Qed.

(** The full variant is not bounded in this way: for one chain 1, 2, 3, 4
    it returns 4.8 (0x1.3333333333335p+2), more than the four draws. *)
Lemma full_variant_can_exceed_the_draws :
  effective_sample_size one_parameter (RInteger [0%Z]) = Ok 0x1.3333333333335p+2%float
  /\ PrimFloat.ltb (of_int 4) 0x1.3333333333335p+2 = true.
Proof. split; vm_compute; reflexivity. Qed.

(** * Further properties of the code *)

(** ** Records that are not accepted *)

Section Rejected.

Context {T : Type} {D : Double T}.

Lemma check_names_first_missing (before after found : list string) (name : string) :
  Forall (fun present => In present found) before -> ~ In name found ->
  check_names (before ++ name :: after) found
  = Throw (domain_error ("the simulation results (sim) does not contain " ++ name)).
Proof.
  intros Hbefore Hname. induction Hbefore as [| x before Hx _ IH]; simpl.
  - destruct (existsb (String.eqb name) found) eqn:E; [| reflexivity].
    apply existsb_exists in E as (y & Hy & Heq). apply String.eqb_eq in Heq.
    subst y. contradiction.
  - replace (existsb (String.eqb x) found) with true; [exact IH |].
    symmetry. apply existsb_exists. exists x. split; [assumption | apply String.eqb_refl].
Qed.

End Rejected.

(** X1.  A record that lacks one of the names [chains], [n_flatnames],
    [n_save], [warmup2], [samples], [permutation] is rejected with a
    [std::domain_error] that names the first one missing, in this order,
    by [validate_sim] and so by both diagnostics, before the parameter
    index is converted or looked at.  [permutation] is demanded although
    neither diagnostic reads it. *)
Theorem missing_name_is_reported_first :
  forall (T : Type) (D : Double T) (sim n_ : SEXP T) (lst : list (string * SEXP T))
         (before after : list string) (name : string),
    as_List sim = Ok lst ->
    snames = before ++ name :: after ->
    Forall (fun present => In present (names lst)) before ->
    ~ In name (names lst) ->
    let failure :=
      domain_error ("the simulation results (sim) does not contain " ++ name) in
    validate_sim sim = Throw failure
    /\ effective_sample_size sim n_ = Throw failure
    /\ split_potential_scale_reduction sim n_ = Throw failure.
Proof.
  intros T D sim n_ lst before after name Hlst Hnames Hbefore Hname failure.
  assert (validate_sim sim = Throw failure) as Hv.
  { unfold validate_sim. rewrite Hlst. cbn [bind]. rewrite Hnames.
    now rewrite (@check_names_first_missing before after (names lst) name Hbefore Hname). }
  split; [exact Hv |]. split.
  - unfold effective_sample_size, ess_moments. now rewrite Hv.
  - unfold split_potential_scale_reduction, split_chains. now rewrite Hv.
Qed.

Lemma missing_name_is_reported_first_witness :
  let sim : SEXP float :=
    RList [("chains", RInteger [1%Z]); ("n_flatnames", RInteger [1%Z]);
           ("n_save", RInteger [4%Z]); ("warmup2", RInteger [0%Z]);
           ("samples", RList [(EmptyString, RList [("mu", RNumeric (binary64s [1; 2; 3; 4]%Z))])])]%string in
  let failure :=
    domain_error "the simulation results (sim) does not contain permutation" in
  validate_sim sim = Throw failure
  /\ effective_sample_size sim (RCharacter ["mu"%string]) = Throw failure
  /\ split_potential_scale_reduction sim (RCharacter ["mu"%string]) = Throw failure.
Proof.
  intros sim failure.
  refine (@missing_name_is_reported_first float binary64 sim (RCharacter ["mu"%string])
            _ ["chains"; "n_flatnames"; "n_save"; "warmup2"; "samples"]%string []
            "permutation"%string eq_refl eq_refl _ _).
  - repeat constructor; simpl; tauto.
  - simpl. intros H. repeat (destruct H as [H | H]; [discriminate |]). exact H.
Defined.

(** ** Indices and counts *)

(** X2.  [get_chain_mean] checks the chain index, then the parameter
    index, and reads samples only when both checks pass.  The chain index
    is a [size_t] that [validate_chain_idx] takes as [unsigned int]: what
    is checked, and printed, is [k mod 2^32].  With [m] chains and [p]
    parameters it throws the [std::out_of_range] of the chain for
    [k mod 2^32 >= m], whatever [n] is, that of the parameter for
    [k mod 2^32 < m] and [n >= p]; with [k mod 2^32 < m] and [n < p] it
    goes on to [apply_kept_samples] with [k] itself, and only then can it
    return a mean.  For [k < 2^32] the index checked is [k]. *)
Theorem get_chain_mean_checks_chain_then_parameter :
  forall (T : Type) (D : Double T) (sim : SEXP T) (k n m p : Z),
    num_chains sim = Ok m -> num_params sim = Ok p ->
    ((m <= k mod 2 ^ 32)%Z ->
     get_chain_mean sim k n
     = Throw (out_of_range ("chain must be less than number of chains."
                            ++ "; num chains=" ++ show m
                            ++ "; chain=" ++ show (k mod 2 ^ 32)%Z)))
    /\ ((k mod 2 ^ 32 < m)%Z -> (p <= n)%Z ->
        get_chain_mean sim k n
        = Throw (out_of_range ("parameter index must be less than number of params"
                               ++ "; found n=" ++ show n)))
    /\ ((k mod 2 ^ 32 < m)%Z -> (n < p)%Z ->
        get_chain_mean sim k n
        = (do acc <- apply_kept_samples sim k n; Ok (mean acc)))
    /\ (forall x : T,
           get_chain_mean sim k n = Ok x -> (k mod 2 ^ 32 < m)%Z /\ (n < p)%Z)
    /\ ((0 <= k < 2 ^ 32)%Z -> (k mod 2 ^ 32 = k)%Z).
Proof.
  intros T D sim k n m p Hm Hp.
  unfold get_chain_mean, validate_chain_idx, validate_param_idx. cbv zeta.
  unfold u32. rewrite Hm, Hp. cbn [bind].
  assert ((0 <= k < 2 ^ 32)%Z -> (k mod 2 ^ 32 = k)%Z) as Hsmall
    by (intros Hk; now apply Z.mod_small).
  destruct (m <=? k mod 2 ^ 32)%Z eqn:Hk;
    [apply Z.leb_le in Hk | apply Z.leb_gt in Hk].
  - repeat match goal with |- _ /\ _ => split end;
      try reflexivity; try lia; try discriminate; exact Hsmall.
  - cbn [bind]. destruct (n <? p)%Z eqn:Hn; [apply Z.ltb_lt in Hn | apply Z.ltb_ge in Hn].
    + cbn [bind].
      repeat match goal with |- _ /\ _ => split end;
        try reflexivity; try lia; try exact Hsmall.
    + repeat match goal with |- _ /\ _ => split end;
        try reflexivity; try lia; try discriminate; exact Hsmall.
Qed.

Lemma get_chain_mean_checks_chain_then_parameter_witness :
  get_chain_mean one_parameter 4294967299 7
  = Throw (out_of_range "chain must be less than number of chains.; num chains=1; chain=3")
  /\ get_chain_mean one_parameter 0 7
     = Throw (out_of_range "parameter index must be less than number of params; found n=7")
  /\ get_chain_mean one_parameter 4294967296 0
     = (do acc <- apply_kept_samples one_parameter 4294967296 0; Ok (mean acc)).
Proof.
  destruct (@get_chain_mean_checks_chain_then_parameter float binary64 one_parameter
              4294967299%Z 7%Z 1%Z 1%Z eq_refl eq_refl) as (H1 & _).
  destruct (@get_chain_mean_checks_chain_then_parameter float binary64 one_parameter
              0%Z 7%Z 1%Z 1%Z eq_refl eq_refl) as (_ & H2 & _).
  destruct (@get_chain_mean_checks_chain_then_parameter float binary64 one_parameter
              4294967296%Z 0%Z 1%Z 1%Z eq_refl eq_refl) as (_ & _ & H3 & _).
  split; [apply H1; vm_compute; discriminate |].
  split; [apply H2; [reflexivity | lia] | apply H3; reflexivity].
Defined.

(** With one chain the chain index [2^32] passes the check of
    [get_chain_mean], and the samples of a chain that is not there are
    read. *)
Lemma chain_index_wraps_in_the_check :
  get_chain_mean one_parameter 4294967296 0 = Undefined
  /\ get_chain_mean one_parameter 1 0
     = Throw (out_of_range
                "chain must be less than number of chains.; num chains=1; chain=1").
Proof. split; [lazy | vm_compute]; reflexivity. Qed.

Section KeptCounts.

Lemma min_kept_fold (ns_kept : list Z) (chains : list nat) :
  forall x : Z,
    Forall (fun chain => (chain < length ns_kept)%nat) chains ->
    exists y : Z,
      fold_left (fun acc chain =>
                   do n_samples <- acc;
                   do kept <- at_ ns_kept (Z.of_nat chain);
                   Ok (Z.min n_samples kept))
                chains (Ok x) = Ok y
      /\ (y <= x)%Z
      /\ Forall (fun chain => (y <= nth chain ns_kept 0)%Z) chains
      /\ (y = x \/ exists chain, In chain chains /\ y = nth chain ns_kept 0%Z).
Proof.
  induction chains as [| chain chains IH]; intros x Hin; simpl.
  - exists x. repeat split; [lia | constructor | now left].
  - inversion Hin as [| ? ? Hc Hrest]; subst.
    rewrite (at_ok ns_kept 0%Z) by lia. cbn [bind]. rewrite Nat2Z.id.
    destruct (IH (Z.min x (nth chain ns_kept 0%Z)) Hrest) as (y & Hy & Hle & Hall & Hwhich).
    exists y. split; [exact Hy |]. split; [lia |]. split.
    + constructor; [lia | exact Hall].
    + destruct Hwhich as [-> | (c & Hc' & ->)].
      * destruct (Z.min_spec x (nth chain ns_kept 0%Z)) as [(_ & ->) | (_ & ->)];
          [now left | right; exists chain; split; [now left | reflexivity]].
      * right. exists c. split; [now right | reflexivity].
Qed.

End KeptCounts.

(** X3.  "Current implementation takes the minimum number of samples
    across chains as the number of samples per chain": for [m] chains,
    [1 <= m], with a kept count each, [n_samples] is one of the first [m]
    kept counts and is at most every one of them; counts beyond the first
    [m] are not looked at.  Without any kept count the read of
    [ns_kept[0]] is out of range. *)
Theorem n_samples_is_the_minimum_kept_count :
  (forall (ns_kept : list Z) (m : nat),
      (1 <= m <= length ns_kept)%nat ->
      exists n_samples : Z,
        min_kept ns_kept (Z.of_nat m) = Ok n_samples
        /\ In n_samples (firstn m ns_kept)
        /\ Forall (fun kept => (n_samples <= kept)%Z) (firstn m ns_kept)
        /\ forall others : list Z,
             min_kept (firstn m ns_kept ++ others) (Z.of_nat m) = Ok n_samples)
  /\ (forall m : Z, min_kept [] m = Undefined).
Proof.
  split; [| reflexivity].
  assert (forall (ns_kept : list Z) (m : nat),
             (1 <= m <= length ns_kept)%nat ->
             exists n_samples : Z,
               min_kept ns_kept (Z.of_nat m) = Ok n_samples
               /\ In n_samples (firstn m ns_kept)
               /\ Forall (fun kept => (n_samples <= kept)%Z) (firstn m ns_kept)) as main.
  { intros ns_kept m Hm. unfold min_kept.
    rewrite (at_ok ns_kept 0%Z) by lia. cbn [bind]. rewrite Nat2Z.id.
    change (Z.to_nat 0) with 0%nat.
    destruct (@min_kept_fold ns_kept (seq 1 (m - 1)) (nth 0 ns_kept 0%Z))
      as (y & Hy & Hle & Hall & Hwhich).
    { apply Forall_forall. intros c Hc. apply in_seq in Hc. lia. }
    exists y. split; [exact Hy |].
    assert (forall c : nat, (c < m)%nat -> nth c (firstn m ns_kept) 0%Z = nth c ns_kept 0%Z)
      as Hnth by (intros c Hc; now rewrite nth_firstn, (proj2 (Nat.ltb_lt c m) Hc)).
    split.
    - destruct Hwhich as [-> | (c & Hc & ->)].
      + rewrite <- (Hnth 0%nat) by lia. apply nth_In. rewrite length_firstn. lia.
      + apply in_seq in Hc. rewrite <- (Hnth c) by lia.
        apply nth_In. rewrite length_firstn. lia.
    - apply Forall_forall. intros kept Hk.
      apply (In_nth _ _ 0%Z) in Hk as (c & Hc & <-).
      rewrite length_firstn in Hc. rewrite Hnth by lia.
      destruct c as [| c]; [exact Hle |].
      rewrite Forall_forall in Hall. apply Hall, in_seq. lia. }
  intros ns_kept m Hm. destruct (main ns_kept m Hm) as (x & Hx & Hin & Hall).
  exists x. repeat split; try assumption.
  intros others.
  destruct (main (firstn m ns_kept ++ others) m) as (x' & Hx' & Hin' & Hall').
  { rewrite length_app, length_firstn. lia. }
  rewrite Hx'. f_equal.
  assert (firstn m (firstn m ns_kept ++ others) = firstn m ns_kept) as E.
  { rewrite firstn_app, length_firstn.
    replace (m - Nat.min m (length ns_kept))%nat with 0%nat by lia.
    rewrite firstn_firstn, Nat.min_id. simpl. apply app_nil_r. }
  rewrite E in Hin', Hall'. rewrite Forall_forall in Hall, Hall'.
  specialize (Hall x' Hin'). specialize (Hall' x Hin). lia.
Qed.

Lemma n_samples_is_the_minimum_kept_count_witness :
  exists n_samples : Z,
    min_kept [7; 5; 9; 2]%Z (Z.of_nat 3) = Ok n_samples
    /\ In n_samples (firstn 3 [7; 5; 9; 2]%Z)
    /\ Forall (fun kept => (n_samples <= kept)%Z) (firstn 3 [7; 5; 9; 2]%Z)
    /\ forall others : list Z,
         min_kept (firstn 3 [7; 5; 9; 2]%Z ++ others) (Z.of_nat 3) = Ok n_samples.
Proof.
  apply (proj1 n_samples_is_the_minimum_kept_count [7; 5; 9; 2]%Z 3%nat).
  simpl. lia.
Defined.

Section Warmup.

Context {T : Type} {D : Double T}.

Lemma mapM_app {A B : Type} (f : A -> result B) (l l' : list A) :
  mapM f (l ++ l') = (do bs <- mapM f l; do bs' <- mapM f l'; Ok (bs ++ bs')).
Proof.
  induction l as [| a l IH]; simpl.
  - destruct (mapM f l'); reflexivity.
  - destruct (f a); simpl; try reflexivity. rewrite IH.
    destruct (mapM f l); simpl; try reflexivity.
    destruct (mapM f l'); reflexivity.
Qed.

Lemma mapM_ext_in {A B : Type} (f g : A -> result B) (l : list A) :
  (forall a, In a l -> f a = g a) -> mapM f l = mapM g l.
Proof.
  induction l as [| a l IH]; intros H; simpl; [reflexivity |].
  rewrite (H a) by now left. rewrite IH by (intros; apply H; now right). reflexivity.
Qed.

Lemma kept_by_index (ns_save ns_warmup2 : list Z) :
  (length ns_save <= length ns_warmup2)%nat ->
  map (fun i => u32 (nth i ns_save 0 - nth i ns_warmup2 0)%Z) (seq 0 (length ns_save))
  = map (fun sw => u32 (fst sw - snd sw)%Z) (combine ns_save ns_warmup2).
Proof.
  revert ns_warmup2. induction ns_save as [| s ns_save IH]; intros [| w ns_warmup2] Hlen;
    simpl in *; try reflexivity; try lia.
  f_equal. rewrite <- seq_shift, map_map. apply IH. lia.
Qed.

Lemma ns_kept_of_sim_fields (chains n_flatnames : Z) (n_save warmup2 : list Z)
    (stored : list (list T)) :
  Forall (fun z => (0 <= z < 2 ^ 32)%Z) n_save ->
  Forall (fun z => (0 <= z < 2 ^ 32)%Z) warmup2 ->
  ns_kept_of (sim_fields chains n_flatnames n_save warmup2 stored)
  = mapM (fun i => do s <- at_ n_save (Z.of_nat i);
                   do w <- at_ warmup2 (Z.of_nat i);
                   Ok (u32 (s - w)))
         (seq 0 (length n_save)).
Proof.
  intros Hs Hw. unfold ns_kept_of, sim_fields. simpl by_name. cbn [bind].
  rewrite !as_unsigned_vector_integers by assumption. reflexivity.
Qed.

End Warmup.

(** X4.  The kept count of a chain is [n_save - warmup2] in
    [unsigned int]: where the warmup count exceeds the saved count the
    subtraction wraps around to [n_save - warmup2 + 2^32], and nothing is
    signalled.  The subtraction runs over all entries of [n_save]; where
    [warmup2] has fewer entries it is read past its end. *)
Theorem kept_count_wraps_around :
  forall (T : Type) (D : Double T) (chains n_flatnames : Z) (n_save warmup2 : list Z)
         (stored : list (list T)),
    Forall (fun z => (0 <= z < 2 ^ 32)%Z) n_save ->
    Forall (fun z => (0 <= z < 2 ^ 32)%Z) warmup2 ->
    ((length n_save <= length warmup2)%nat ->
     ns_kept_of (sim_fields chains n_flatnames n_save warmup2 stored)
     = Ok (map (fun sw => if (snd sw <=? fst sw)%Z then (fst sw - snd sw)%Z
                          else (fst sw - snd sw + 2 ^ 32)%Z)
               (combine n_save warmup2)))
    /\ ((length warmup2 < length n_save)%nat ->
        ns_kept_of (sim_fields chains n_flatnames n_save warmup2 stored) = Undefined).
Proof.
  intros T D chains n_flatnames n_save warmup2 stored Hs Hw.
  rewrite (ns_kept_of_sim_fields chains n_flatnames stored Hs Hw). split; intros Hlen.
  - rewrite mapM_map
      with (g := fun i => u32 (nth i n_save 0 - nth i warmup2 0)%Z).
    + rewrite (kept_by_index _ _ Hlen). f_equal. apply map_ext_in.
      intros (s, w) Hin. cbn [fst snd].
      pose proof (in_combine_l _ _ _ _ Hin) as Hs'.
      pose proof (in_combine_r _ _ _ _ Hin) as Hw'.
      rewrite Forall_forall in Hs, Hw. specialize (Hs s Hs'). specialize (Hw w Hw').
      unfold u32. change (2 ^ 32)%Z with 4294967296%Z in *.
      destruct (w <=? s)%Z eqn:E; [apply Z.leb_le in E | apply Z.leb_gt in E].
      * apply Z.mod_small. lia.
      * rewrite <- (Z.mod_add _ 1) by lia. rewrite Z.mul_1_l. apply Z.mod_small. lia.
    + intros i Hi. apply in_seq in Hi.
      rewrite (at_ok n_save 0%Z), (at_ok warmup2 0%Z) by lia.
      cbn [bind]. now rewrite Nat2Z.id.
  - replace (length n_save)
      with (length warmup2 + S (length n_save - length warmup2 - 1))%nat by lia.
    rewrite seq_app, mapM_app.
    rewrite mapM_map
      with (g := fun i => u32 (nth i n_save 0 - nth i warmup2 0)%Z).
    + cbn [bind]. simpl seq. cbn [mapM].
      rewrite (at_ok n_save 0%Z) by lia. cbn [bind].
      unfold at_ at 1.
      replace (Z.of_nat (length warmup2) <? 0)%Z with false
        by (symmetry; apply Z.ltb_ge; lia).
      rewrite Nat2Z.id.
      replace (nth_error warmup2 (length warmup2)) with (@None Z)
        by (symmetry; apply nth_error_None; lia).
      reflexivity.
    + intros i Hi. apply in_seq in Hi.
      rewrite (at_ok n_save 0%Z), (at_ok warmup2 0%Z) by lia.
      cbn [bind]. now rewrite Nat2Z.id.
Qed.

Lemma kept_count_wraps_around_witness :
  ns_kept_of (sim_fields 2 1 [10; 3]%Z [2; 5]%Z ([] : list (list float)))
  = Ok [8; 4294967294]%Z.
Proof.
  refine (proj1 (@kept_count_wraps_around float binary64 2%Z 1%Z [10; 3]%Z [2; 5]%Z []
                   _ _) (le_n 2)).
  - repeat constructor; cbv; congruence.
  - repeat constructor; cbv; congruence.
Defined.

(** ** The two split R-hat entry points *)

(** X5.  On the record of a matrix (a chain per column, no warmup, one
    parameter) [split_potential_scale_reduction] cuts the same split chains
    as [split_potential_scale_reduction2] cuts from the matrix, and
    returns the same value, for every scalar type. *)
Theorem split_rhat_entry_points_agree :
  forall (T : Type) (D : Double T) (nm : NumericMatrix T),
    wf_matrix nm -> (1 <= ncol nm)%nat ->
    split_chains (sim_of_matrix nm) (RInteger [0%Z])
    = (do chains <- split_chains2 nm;
       Ok (make_even (Z.of_nat (nrow nm)), chains))
    /\ split_potential_scale_reduction (sim_of_matrix nm) (RInteger [0%Z])
       = split_potential_scale_reduction2 nm.
Proof.
  intros T D nm Hwf Hm.
  assert (split_chains (sim_of_matrix nm) (RInteger [0%Z])
          = (do chains <- split_chains2 nm;
             Ok (make_even (Z.of_nat (nrow nm)), chains))) as Hchains.
  { pose proof Hwf as (_ & Hrows & Hcols).
    change (2 ^ 31)%Z with 2147483648%Z in Hrows, Hcols.
    assert (2 ^ 32 = 4294967296)%Z as H32 by reflexivity.
    unfold split_chains, split_chains2, sim_of_matrix.
    rewrite validate_sim_sim_of.
    replace (length (columns nm)) with (ncol nm)
      by (unfold columns; now rewrite length_map, length_seq).
    rewrite Z.eqb_refl. cbn [bind as_List sim_of].
    rewrite as_unsigned_integer by lia. cbn [bind].
    rewrite num_chains_sim_of by lia. cbn [bind].
    rewrite ns_kept_of_no_warmup by lia. cbn [bind].
    rewrite min_kept_repeat by lia. cbn [bind].
    unfold chains_upto, columns. rewrite Nat2Z.id, !mapM_of_map.
    rewrite mapM_ext_in
      with (g := fun k => split_chain (column nm k)
                                      (make_even (Z.of_nat (nrow nm)) / 2)).
    - destruct (mapM _ (seq 0 (ncol nm))); reflexivity.
    - intros k Hk. apply in_seq in Hk.
      rewrite (@get_kept_samples_sim_of T D _ _ _ _ _ k (column nm k) 0);
        [reflexivity | apply nth_error_columns; lia | apply nth_error_repeat; lia | lia]. }
  split; [exact Hchains |].
  unfold split_potential_scale_reduction, split_potential_scale_reduction2.
  rewrite Hchains. destruct (split_chains2 nm); reflexivity.
Qed.

Lemma split_rhat_entry_points_agree_witness :
  split_potential_scale_reduction (sim_of_matrix (matrix_of_columns 7 [chain7]))
                                  (RInteger [0%Z])
  = split_potential_scale_reduction2 (matrix_of_columns 7 [chain7]).
Proof.
  refine (proj2 (@split_rhat_entry_points_agree float binary64
                   (matrix_of_columns 7 [chain7]) _ (le_n 1))).
  apply matrix_of_columns_wf; [repeat constructor | reflexivity | reflexivity].
Defined.

(** ** Shifted and rescaled draws, in exact arithmetic *)

Section Rescaling.

Local Open Scope R_scope.

Lemma sum_scale (a : R) (l : list R) : sum (map (fun x => a * x) l) = a * sum l.
Proof.
  induction l as [| x l IH].
  - simpl. rewrite sum_nil. lra.
  - change (map (fun x => a * x) (x :: l)) with (a * x :: map (fun x => a * x) l).
    rewrite !sum_cons, IH. lra.
Qed.

Lemma mean_scale (a : R) (l : list R) : mean (map (fun x => a * x) l) = a * mean l.
Proof. unfold mean. rewrite sum_scale, length_map. simpl. unfold Rdiv. ring. Qed.

Lemma variance_scale (a : R) (l : list R) :
  variance (map (fun x => a * x) l) = a * a * variance l.
Proof.
  unfold variance. cbv zeta. rewrite mean_scale, length_map, map_map.
  rewrite map_ext with (g := fun x => (a * a) * ((x - mean l) * (x - mean l)))
    by (intros x; simpl; ring).
  rewrite <- (map_map (fun x => (x - mean l) * (x - mean l)) (fun y => a * a * y)).
  rewrite sum_scale. simpl. unfold Rdiv. ring.
Qed.

Lemma lagged_products_scale (a : R) (c : list R) (t : nat) :
  lagged_products (map (fun x => a * x) c) t
  = map (fun v => a * a * v) (lagged_products c t).
Proof.
  unfold lagged_products. rewrite skipn_map, map_map.
  generalize (skipn t c) as c'. induction c as [| x c IH]; intros [| y c']; simpl;
    try reflexivity.
  f_equal; [ring | apply IH].
Qed.

Lemma autocovariance_scale (a : R) (y : list R) :
  autocovariance (map (fun x => a * x) y) = map (fun v => a * a * v) (autocovariance y).
Proof.
  unfold autocovariance. cbv zeta. rewrite mean_scale, length_map, !map_map.
  apply map_ext. intros t.
  rewrite map_ext with (g := fun x => a * (x - mean y)) by (intros x; simpl; ring).
  rewrite <- (map_map (fun x => x - mean y) (fun d => a * d)).
  rewrite lagged_products_scale, sum_scale. simpl. unfold Rdiv. ring.
Qed.

Lemma Rdiv_scale (k x y : R) : k <> 0 -> (k * x) / (k * y) = x / y.
Proof.
  intros Hk. destruct (Req_dec y 0) as [-> | Hy].
  - unfold Rdiv. rewrite Rmult_0_r, Rinv_0. ring.
  - field. now split.
Qed.

Lemma variance_nonnegative (l : list R) : 0 <= variance l.
Proof.
  unfold variance. cbv zeta.
  assert (0 <= sum (map (fun x => ((x - mean l) * (x - mean l))%D) l)) as Hsum.
  { apply sum_nonneg, Forall_forall. intros v Hv.
    apply in_map_iff in Hv as (x & <- & _).
    change (0 <= (x - mean l) * (x - mean l)). apply Rle_0_sqr. }
  change (0 <= sum (map (fun x => ((x - mean l) * (x - mean l))%D) l)
               / IZR (Z.of_nat (length l) - 1)).
  destruct (Z.eq_dec (Z.of_nat (length l) - 1) 0) as [-> | Hne].
  - unfold Rdiv. rewrite Rinv_0. lra.
  - destruct (Z_lt_le_dec (Z.of_nat (length l) - 1) 0) as [Hneg | Hpos].
    + destruct l; [| simpl length in Hneg; lia].
      simpl. rewrite sum_nil. unfold Rdiv. lra.
    + apply Rmult_le_pos; [exact Hsum |]. apply Rlt_le, Rinv_0_lt_compat.
      apply IZR_lt. lia.
Qed.

(** The columns of a matrix whose entries went through [f]. *)
Lemma columns_of_mapped_storage (f : R -> R) (nm : NumericMatrix R) :
  columns {| nrow := nrow nm; ncol := ncol nm; storage := map f (storage nm) |}
  = map (map f) (columns nm).
Proof.
  unfold columns, column. simpl. rewrite map_map. apply map_ext. intros chain.
  now rewrite skipn_map, firstn_map.
Qed.

Lemma mapped_storage_wf (f : R -> R) (nm : NumericMatrix R) :
  wf_matrix nm ->
  wf_matrix {| nrow := nrow nm; ncol := ncol nm; storage := map f (storage nm) |}.
Proof. unfold wf_matrix. simpl. now rewrite length_map. Qed.

Lemma split_chains2_of_mapped_storage (f : R -> R) (nm : NumericMatrix R) :
  wf_matrix nm ->
  exists chains : list (list R),
    split_chains2 nm = Ok chains
    /\ split_chains2 {| nrow := nrow nm; ncol := ncol nm; storage := map f (storage nm) |}
       = Ok (map (map f) chains)
    /\ Forall (fun chain => length chain
                            = Z.to_nat (make_even (Z.of_nat (nrow nm)) / 2)) chains.
Proof.
  intros Hwf. eexists. split; [apply (split_chains2_total Hwf) |]. split.
  - rewrite (split_chains2_total (mapped_storage_wf f Hwf)). cbv zeta. simpl nrow.
    rewrite columns_of_mapped_storage. f_equal.
    rewrite concat_map, !map_map. f_equal. apply map_ext. intros c. simpl.
    now rewrite length_map, firstn_map, skipn_map.
  - cbv zeta. pose proof (columns_length Hwf) as Hlen.
    destruct Hwf as (_ & Hrows & _).
    destruct (@make_even_half (Z.of_nat (nrow nm))) as (H0 & H1).
    { change (2 ^ 32)%Z with 4294967296%Z.
      change (2 ^ 31)%Z with 2147483648%Z in Hrows. lia. }
    apply Forall_concat, Forall_map, Forall_forall. intros c Hc.
    rewrite Forall_forall in Hlen. specialize (Hlen c Hc).
    repeat constructor.
    + rewrite length_firstn. lia.
    + rewrite length_skipn. lia.
Qed.

End Rescaling.

Section SplitRhatExact.

Local Open Scope R_scope.

Lemma half_at_least_one (n : nat) :
  (2 <= n)%nat -> (Z.of_nat n < 2 ^ 31)%Z ->
  (1 <= Z.to_nat (make_even (Z.of_nat n) / 2))%nat.
Proof.
  intros Hn Hlt. change (2 ^ 31)%Z with 2147483648%Z in Hlt.
  unfold make_even, u32. change (2 ^ 32)%Z with 4294967296%Z.
  destruct (Z.of_nat n mod 2 =? 1)%Z eqn:E.
  - apply Z.eqb_eq in E. rewrite Z.mod_small by lia.
    assert (1 <= (Z.of_nat n - 1) / 2)%Z; [| lia].
    Z.to_euclidean_division_equations. lia.
  - assert (1 <= Z.of_nat n / 2)%Z; [| lia].
    Z.to_euclidean_division_equations. lia.
Qed.

Lemma split_rhat_add_constant (n_samples : Z) (chains : list (list R)) (c : R) :
  Forall (fun chain => chain <> []) chains ->
  split_rhat n_samples (map (map (fun x => x + c)) chains) = split_rhat n_samples chains.
Proof.
  intros Hne. unfold split_rhat, var_between, var_within. cbv zeta.
  rewrite !map_map.
  rewrite (map_ext (fun chain => variance (map (fun x => x + c) chain)) variance)
    by (intros chain; apply variance_add_constant).
  rewrite (map_ext_in (fun chain => mean (map (fun x => x + c) chain))
                      (fun chain => mean chain + c))
    by (intros chain Hin; rewrite Forall_forall in Hne;
        apply mean_add_constant; now apply Hne).
  rewrite <- (map_map mean (fun m => m + c)), variance_add_constant.
  reflexivity.
Qed.

Lemma split_rhat_scale (n_samples : Z) (chains : list (list R)) (a : R) :
  a <> 0 ->
  split_rhat n_samples (map (map (fun x => a * x)) chains) = split_rhat n_samples chains.
Proof.
  intros Ha. unfold split_rhat, var_between, var_within. cbv zeta.
  rewrite !map_map.
  rewrite (map_ext (fun chain => variance (map (fun x => a * x) chain))
                   (fun chain => a * a * variance chain))
    by (intros chain; apply variance_scale).
  rewrite (map_ext (fun chain => mean (map (fun x => a * x) chain))
                   (fun chain => a * mean chain))
    by (intros chain; apply mean_scale).
  rewrite <- (map_map variance (fun v => a * a * v)), mean_scale.
  rewrite <- (map_map mean (fun m => a * m)), variance_scale.
  set (B := variance (map mean chains)). set (W := mean (map variance chains)).
  simpl.
  replace (IZR (n_samples / 2) * (a * a * B))
    with (a * a * (IZR (n_samples / 2) * B)) by ring.
  rewrite Rdiv_scale by nra. reflexivity.
Qed.

End SplitRhatExact.

(** X6.  In exact arithmetic split R-hat of an [n_samples x n_chains]
    matrix whose within-chain variance is positive (so that there is a
    split chain, every split chain has two draws at least and nothing
    divides by zero) does not change when a constant is added to every
    draw, nor when every draw is multiplied by a constant other than zero:
    the three calls return the same value. *)
Theorem split_rhat_shift_and_scale_invariant :
  forall (nm : NumericMatrix R) (a c : R) (chains : list (list R)),
    wf_matrix nm -> (2 <= nrow nm)%nat -> a <> 0%R ->
    split_chains2 nm = Ok chains -> (0 < var_within chains)%R ->
    let srhat := split_rhat (make_even (Z.of_nat (nrow nm))) chains in
    split_potential_scale_reduction2 nm = Ok srhat
    /\ split_potential_scale_reduction2 (add_constant nm c) = Ok srhat
    /\ split_potential_scale_reduction2 (scale_by nm a) = Ok srhat.
Proof.
  intros nm a c chains0 Hwf Hn Ha Hsplit _ srhat.
  pose proof Hwf as (_ & Hrows & _).
  pose proof (half_at_least_one Hn Hrows) as Hhalf.
  assert (split_potential_scale_reduction2 nm = Ok srhat) as Hplain
    by (unfold split_potential_scale_reduction2; now rewrite Hsplit).
  split; [exact Hplain |]. rewrite <- Hplain. split.
  - destruct (split_chains2_of_mapped_storage (fun x => (x + c)%R) Hwf)
      as (chains & Hchains & Hshifted & Hlen).
    unfold split_potential_scale_reduction2.
    change (split_chains2 (add_constant nm c))
      with (split_chains2 {| nrow := nrow nm; ncol := ncol nm;
                             storage := map (fun x => (x + c)%R) (storage nm) |}).
    rewrite Hchains, Hshifted. cbn [bind]. f_equal.
    change (nrow (add_constant nm c)) with (nrow nm).
    apply split_rhat_add_constant.
    eapply Forall_impl; [| exact Hlen].
    intros chain Hc ->. simpl in Hc. lia.
  - destruct (split_chains2_of_mapped_storage (fun x => (a * x)%R) Hwf)
      as (chains & Hchains & Hscaled & _).
    unfold split_potential_scale_reduction2.
    change (split_chains2 (scale_by nm a))
      with (split_chains2 {| nrow := nrow nm; ncol := ncol nm;
                             storage := map (fun x => (a * x)%R) (storage nm) |}).
    rewrite Hchains, Hscaled. cbn [bind]. f_equal.
    change (nrow (scale_by nm a)) with (nrow nm).
    now apply split_rhat_scale.
Qed.

Lemma split_rhat_shift_and_scale_invariant_witness :
  let nm := matrix_of_columns 8 [doubles uneven_chain : list R] in
  let chains := [doubles [1; 3; 2; 5]%Z; doubles [4; 4; 6; 5]%Z] in
  split_chains2 nm = Ok chains
  /\ (0 < var_within chains)%R
  /\ split_potential_scale_reduction2 nm = Ok (split_rhat 8 chains)
  /\ split_potential_scale_reduction2 (add_constant nm 100%R) = Ok (split_rhat 8 chains)
  /\ split_potential_scale_reduction2 (scale_by nm (-3)%R) = Ok (split_rhat 8 chains).
Proof.
  intros nm chains.
  assert (wf_matrix nm) as Hwf
    by (apply matrix_of_columns_wf; [repeat constructor | reflexivity | reflexivity]).
  assert (2 <= nrow nm)%nat as Hn by (simpl; lia).
  assert ((-3)%R <> 0%R) as Ha by lra.
  assert (split_chains2 nm = Ok chains) as Hsplit by reflexivity.
  assert (0 < var_within chains)%R as Hwithin by (exact_compute; lra).
  split; [exact Hsplit |]. split; [exact Hwithin |].
  exact (@split_rhat_shift_and_scale_invariant nm (-3)%R 100%R chains
           Hwf Hn Ha Hsplit Hwithin).
Defined.

Section LoopsFollowRho.

Context {T : Type} {D : Double T}.
Variables (acov acov' : list (list T)) (mean_var var_plus mean_var' var_plus' : T).
Hypothesis same_rho :
  forall t : Z, rho_hat_at acov' mean_var' var_plus' t = rho_hat_at acov mean_var var_plus t.

(** Both lag loops use the autocovariances, [mean_var] and [var_plus]
    through [rho_hat] only. *)
Lemma ess2_loop_follows_rho (fuel : nat) :
  forall (n_samples t : Z) (previous : T) (rho_hat_t : list T),
    ess2_loop fuel acov' mean_var' var_plus' n_samples t previous rho_hat_t
    = ess2_loop fuel acov mean_var var_plus n_samples t previous rho_hat_t.
Proof.
  induction fuel as [| fuel IH]; intros n_samples t previous rho_hat_t;
    cbn [ess2_loop]; [reflexivity |].
  rewrite same_rho.
  destruct (rho_hat_at acov mean_var var_plus t); cbn [bind]; try reflexivity.
  now rewrite IH.
Qed.

Lemma positive_loop_follows_rho (fuel : nat) :
  forall (n_samples t : Z) (even odd : T) (rho_hat_t : list T) (max_t : Z),
    positive_loop fuel acov' mean_var' var_plus' n_samples t even odd rho_hat_t max_t
    = positive_loop fuel acov mean_var var_plus n_samples t even odd rho_hat_t max_t.
Proof.
  induction fuel as [| fuel IH]; intros n_samples t even odd rho_hat_t max_t;
    cbn [positive_loop]; [reflexivity |].
  rewrite !same_rho.
  destruct (rho_hat_at acov mean_var var_plus (t + 1)) as [e | |]; cbn [bind];
    try reflexivity.
  destruct (rho_hat_at acov mean_var var_plus (t + 2)) as [o | |]; cbn [bind];
    try reflexivity.
  match goal with
  | |- context [bind ?c _] => destruct c; cbn [bind]; try reflexivity
  end.
  now rewrite IH.
Qed.

Lemma initial_positive_follows_rho (n_samples : Z) :
  initial_positive acov' mean_var' var_plus' n_samples
  = initial_positive acov mean_var var_plus n_samples.
Proof.
  unfold initial_positive. rewrite same_rho.
  destruct (rho_hat_at acov mean_var var_plus 1); cbn [bind]; try reflexivity.
  destruct (store _ 1 a); cbn [bind]; try reflexivity.
  apply positive_loop_follows_rho.
Qed.

End LoopsFollowRho.

Section EssRescaled.

Local Open Scope R_scope.

Lemma lags_of_scaled (k : R) (acov : list (list R)) (t : Z) :
  mapM (fun acov_chain => at_ acov_chain t) (map (map (fun v => k * v)) acov)
  = match mapM (fun acov_chain => at_ acov_chain t) acov with
    | Ok acov_t => Ok (map (fun v => k * v) acov_t)
    | Throw e => Throw e
    | Undefined => Undefined
    end.
Proof.
  induction acov as [| a acov IH]; simpl; [reflexivity |].
  assert (at_ (map (fun v => k * v) a) t
          = match at_ a t with
            | Ok x => Ok (k * x)
            | Throw e => Throw e
            | Undefined => Undefined
            end) as ->.
  { unfold at_. destruct (t <? 0)%Z; [reflexivity |].
    rewrite nth_error_map. now destruct (nth_error a (Z.to_nat t)). }
  destruct (at_ a t); simpl; try reflexivity.
  rewrite IH. now destruct (mapM _ acov).
Qed.

Lemma rho_hat_at_scale (k : R) (acov : list (list R)) (mean_var var_plus : R) (t : Z) :
  k <> 0 ->
  rho_hat_at (map (map (fun v => k * v)) acov) (k * mean_var) (k * var_plus) t
  = rho_hat_at acov mean_var var_plus t.
Proof.
  intros Hk. unfold rho_hat_at. rewrite lags_of_scaled.
  destruct (mapM _ acov) as [acov_t | |]; cbn [bind]; try reflexivity.
  rewrite mean_scale. set (m := mean acov_t). simpl. do 2 f_equal.
  replace (k * mean_var - k * m) with (k * (mean_var - m)) by ring.
  now apply Rdiv_scale.
Qed.

Lemma ess2_moments_scale (nm : NumericMatrix R) (a : R)
    (acov : list (list R)) (mean_var var_plus : R) :
  wf_matrix nm -> (1 <= nrow nm)%nat ->
  ess2_moments nm = Ok (acov, mean_var, var_plus) ->
  ess2_moments (scale_by nm a)
  = Ok (map (map (fun v => a * a * v)) acov, a * a * mean_var, a * a * var_plus).
Proof.
  intros Hwf Hn Hmoments.
  rewrite (ess2_moments_ok Hwf Hn) in Hmoments. cbv zeta in Hmoments.
  injection Hmoments as <- <- <-.
  change (scale_by nm a)
    with {| nrow := nrow nm; ncol := ncol nm;
            storage := map (fun x => a * x) (storage nm) |}.
  rewrite (ess2_moments_ok (mapped_storage_wf (fun x => a * x) Hwf)) by exact Hn.
  cbv zeta. simpl nrow. simpl ncol. rewrite columns_of_mapped_storage.
  set (n := Z.of_nat (nrow nm)).
  assert (map autocovariance (map (map (fun x => a * x)) (columns nm))
          = map (map (fun v => a * a * v)) (map autocovariance (columns nm))) as Hacov.
  { rewrite !map_map. apply map_ext. intros col. apply autocovariance_scale. }
  rewrite Hacov.
  set (acov := map autocovariance (columns nm)).
  assert (map (fun acov_chain : list R =>
                 (nth 0 acov_chain (of_int 0) * of_int n / of_int (u32 (n - 1)))%D)
              (map (map (fun v => a * a * v)) acov)
          = map (fun v => a * a * v)
                (map (fun acov_chain : list R =>
                        (nth 0 acov_chain (of_int 0) * of_int n
                         / of_int (u32 (n - 1)))%D) acov)) as Hvar.
  { rewrite !map_map. apply map_ext. intros ac.
    assert (nth 0 (map (fun v => a * a * v) ac) (of_int 0)
            = a * a * nth 0 ac (of_int 0)) as ->.
    { destruct ac; simpl; ring. }
    simpl. unfold Rdiv. ring. }
  rewrite Hvar, mean_scale.
  set (mean_var := mean _).
  do 2 f_equal.
  unfold var_plus_of. rewrite map_map.
  rewrite (map_ext (fun col => mean (map (fun x => a * x) col))
                   (fun col => a * mean col)) by (intros col; apply mean_scale).
  rewrite <- (map_map mean (fun m => a * m)), variance_scale.
  subst mean_var. unfold mean.
  destruct (1 <? Z.of_nat (ncol nm))%Z; simpl; unfold Rdiv; ring.
Qed.

End EssRescaled.

(** X7.  In exact arithmetic the simplified effective sample size does
    not depend on the unit of the draws: on a matrix with two rows at
    least and [var_plus > 0] (so that nothing divides by zero), multiplying
    every entry by a nonzero constant [a] multiplies the autocovariances,
    [mean_var] and [var_plus] by [a * a] and leaves the result of
    [effective_sample_size2] unchanged. *)
Theorem effective_sample_size2_scale_invariant :
  forall (nm : NumericMatrix R) (a : R) (acov : list (list R)) (mean_var var_plus : R),
    wf_matrix nm -> (2 <= nrow nm)%nat -> a <> 0%R ->
    ess2_moments nm = Ok (acov, mean_var, var_plus) -> (0 < var_plus)%R ->
    ess2_moments (scale_by nm a)
    = Ok (map (map (fun v => (a * a * v)%R)) acov,
          (a * a * mean_var)%R, (a * a * var_plus)%R)
    /\ (0 < a * a * var_plus)%R
    /\ effective_sample_size2 (scale_by nm a) = effective_sample_size2 nm.
Proof.
  intros nm a acov mean_var var_plus Hwf Hn Ha Hmoments Hvar.
  assert (1 <= nrow nm)%nat as Hn1 by lia.
  pose proof (@ess2_moments_scale nm a _ _ _ Hwf Hn1 Hmoments) as Hscaled.
  assert (0 < a * a)%R as Hsquare
    by (destruct (Rtotal_order a 0) as [Hneg | [Hzero | Hpos]]; [nra | contradiction | nra]).
  split; [exact Hscaled |].
  split; [apply Rmult_lt_0_compat; assumption |].
  unfold effective_sample_size2. rewrite Hscaled, Hmoments. cbn [bind].
  change (nrow (scale_by nm a)) with (nrow nm).
  change (ncol (scale_by nm a)) with (ncol nm).
  erewrite ess2_loop_follows_rho; [reflexivity |].
  intros t. apply rho_hat_at_scale. nra.
Qed.

Lemma effective_sample_size2_scale_invariant_witness :
  let nm := matrix_of_columns 8 [doubles uneven_chain : list R] in
  exists (acov : list (list R)) (mean_var var_plus : R),
    ess2_moments nm = Ok (acov, mean_var, var_plus)
    /\ (0 < var_plus)%R
    /\ ess2_moments (scale_by nm (-3)%R)
       = Ok (map (map (fun v => (-3 * -3 * v)%R)) acov,
             (-3 * -3 * mean_var)%R, (-3 * -3 * var_plus)%R)
    /\ (0 < -3 * -3 * var_plus)%R
    /\ effective_sample_size2 (scale_by nm (-3)%R) = effective_sample_size2 nm.
Proof.
  intros nm.
  assert (wf_matrix nm) as Hwf
    by (apply matrix_of_columns_wf; [repeat constructor | reflexivity | reflexivity]).
  assert (2 <= nrow nm)%nat as Hn by (simpl; lia).
  assert (1 <= nrow nm)%nat as Hn1 by (simpl; lia).
  assert ((-3)%R <> 0%R) as Ha by lra.
  pose proof (ess2_moments_ok Hwf Hn1) as Hmoments. cbv zeta in Hmoments.
  assert (0 < var_plus_of (Z.of_nat (ncol nm)) (Z.of_nat (nrow nm))
                 (mean (map (fun acov_chain : list R =>
                               (nth 0 acov_chain (of_int 0) * of_int (Z.of_nat (nrow nm))
                                / of_int (u32 (Z.of_nat (nrow nm) - 1)))%D)
                            (map autocovariance (columns nm))))
                 (map mean (columns nm)))%R as Hvar
    by (exact_compute; lra).
  do 3 eexists. split; [exact Hmoments |]. split; [exact Hvar |].
  exact (@effective_sample_size2_scale_invariant nm (-3)%R _ _ _
           Hwf Hn Ha Hmoments Hvar).
Defined.

Section FullVariantReturns.

Context {T : Type} {D : Double T}.
Local Open Scope double_scope.

(** On the record of a matrix with a column and two rows at least
    [effective_sample_size] returns: the product [m * n_samples] divided
    by [1 + 2 * sum rho_hat_t], for the sequence that the monotone pass
    leaves. *)
Lemma effective_sample_size_of_matrix_returns (nm : NumericMatrix T) :
  wf_matrix nm -> (2 <= nrow nm)%nat -> (1 <= ncol nm)%nat ->
  exists rho_hat_t : list T,
    effective_sample_size (sim_of_matrix nm) (RInteger [0%Z])
    = Ok (of_int (u32 (Z.of_nat (ncol nm) * Z.of_nat (nrow nm)))
          / (of_int 1 + of_int 2 * sum rho_hat_t)).
Proof.
  intros Hwf Hn Hm.
  assert (1 <= nrow nm)%nat as Hn1 by lia.
  pose proof (acov_of_columns_long Hwf) as Hacov.
  pose proof Hwf as (_ & Hrows & _).
  assert (2 <= Z.of_nat (nrow nm) < 2 ^ 32)%Z as Hrange
    by (change (2 ^ 31)%Z with 2147483648%Z in Hrows;
        change (2 ^ 32)%Z with 4294967296%Z; lia).
  unfold effective_sample_size.
  rewrite (ess_moments_sim_of_matrix Hwf Hn1 Hm), (ess2_moments_ok Hwf Hn1).
  cbn [bind].
  match goal with
  | |- context [initial_positive ?acov ?mean_var ?var_plus _] =>
      destruct (initial_positive_spec mean_var var_plus Hacov Hrange)
        as (K & HK & Hpositive & _);
      destruct (@monotone_loop_returns T D (nrow nm) 3%Z (Z.of_nat (2 * K + 1))
                  (positive_sequence acov mean_var var_plus (nrow nm)))
        as (rho_hat_t & Hmonotone & _);
      [lia | rewrite positive_sequence_length; lia | lia |]
  end.
  exists rho_hat_t. rewrite Hpositive. cbn [bind].
  rewrite Nat2Z.id, Hmonotone. reflexivity.
Qed.

End FullVariantReturns.



Section SingleDraw.

Context {T : Type} {D : Double T}.

Lemma at_past_the_end {A : Type} (v : list A) (i : Z) :
  (Z.of_nat (length v) <= i)%Z -> at_ v i = Undefined.
Proof.
  intros Hi. unfold at_.
  destruct (i <? 0)%Z; [reflexivity |].
  assert (nth_error v (Z.to_nat i) = None) as -> by (apply nth_error_None; lia).
  reflexivity.
Qed.

Lemma rho_hat_at_past_the_end (nm : NumericMatrix T) (mean_var var_plus : T) (t : Z) :
  wf_matrix nm -> (1 <= ncol nm)%nat -> (Z.of_nat (nrow nm) <= t)%Z ->
  rho_hat_at (map autocovariance (columns nm)) mean_var var_plus t = Undefined.
Proof.
  intros Hwf Hm Ht. unfold rho_hat_at.
  pose proof (columns_length Hwf) as Hlen. unfold columns in *.
  destruct (ncol nm) as [| m]; [lia |].
  cbn [seq map mapM] in *. inversion Hlen as [| col cols Hcol _]; subst.
  rewrite at_past_the_end by (rewrite autocovariance_length, Hcol; exact Ht).
  reflexivity.
Qed.

End SingleDraw.

(** X9.  One draw per chain.  For a matrix with a single row and at least
    one column [effective_sample_size2] returns the number of chains: its
    lag loop is not entered and nothing divides the product [m * n_samples].
    [effective_sample_size], on the record of the same matrix, reads the
    lag-1 autocovariance [acov[chain][1]] of a sequence that has lag 0
    only, past its end. *)
Theorem one_draw_per_chain :
  forall (T : Type) (D : Double T) (nm : NumericMatrix T),
    wf_matrix nm -> nrow nm = 1%nat -> (1 <= ncol nm)%nat ->
    effective_sample_size2 nm = Ok (of_int (Z.of_nat (ncol nm)))
    /\ effective_sample_size (sim_of_matrix nm) (RInteger [0%Z]) = Undefined.
Proof.
  intros T D nm Hwf Hn Hm.
  assert (1 <= nrow nm)%nat as Hn1 by lia.
  pose proof Hwf as (_ & _ & Hcols).
  change (2 ^ 31)%Z with 2147483648%Z in Hcols.
  split.
  - unfold effective_sample_size2.
    rewrite (ess2_moments_ok Hwf Hn1). cbn [bind]. rewrite Hn.
    cbn [ess2_loop Nat2Z.inj_succ]. change (Z.of_nat 1) with 1%Z.
    change (1 <? 1)%Z with false. cbn [andb bind length Nat.ltb Nat.leb].
    do 2 f_equal. unfold u32. rewrite Z.mul_1_r.
    apply Z.mod_small. change (2 ^ 32)%Z with 4294967296%Z. lia.
  - unfold effective_sample_size.
    rewrite (ess_moments_sim_of_matrix Hwf Hn1 Hm), (ess2_moments_ok Hwf Hn1).
    cbn [bind]. unfold initial_positive.
    rewrite (rho_hat_at_past_the_end _ _ Hwf Hm) by lia.
    reflexivity.
Qed.

Lemma one_draw_per_chain_witness :
  effective_sample_size2 (matrix_of_columns 1 [binary64s [3]%Z; binary64s [5]%Z])
  = Ok (of_int 2)
  /\ effective_sample_size
       (sim_of_matrix (matrix_of_columns 1 [binary64s [3]%Z; binary64s [5]%Z]))
       (RInteger [0%Z])
     = Undefined.
Proof.
  apply (@one_draw_per_chain float binary64
           (matrix_of_columns 1 [binary64s [3]%Z; binary64s [5]%Z])).
  - apply matrix_of_columns_wf; [repeat constructor | reflexivity | reflexivity].
  - reflexivity.
  - simpl. lia.
Defined.

Section SplitRhatBound.

Local Open Scope R_scope.

Lemma split_rhat_from_below (n_samples : Z) (chains : list (list R)) :
  (1 <= n_samples / 2)%Z -> 0 < var_within chains ->
  R_sqrt.sqrt (1 - 1 / IZR (n_samples / 2)) <= split_rhat n_samples chains
  /\ (variance (map mean chains) = 0 ->
      split_rhat n_samples chains = R_sqrt.sqrt (1 - 1 / IZR (n_samples / 2))).
Proof.
  intros Hhalf Hwithin.
  apply IZR_le in Hhalf.
  pose proof (variance_nonnegative (map mean chains)) as Hbetween.
  unfold split_rhat, var_between. cbv zeta.
  set (B := variance (map mean chains)) in *.
  set (W := var_within chains) in *.
  set (h := IZR (n_samples / 2)) in *.
  change (R_sqrt.sqrt (1 - 1 / h) <= R_sqrt.sqrt ((h * B / W + h - 1) / h)
          /\ (B = 0 -> R_sqrt.sqrt ((h * B / W + h - 1) / h) = R_sqrt.sqrt (1 - 1 / h))).
  assert ((h * B / W + h - 1) / h = 1 - 1 / h + B / W) as -> by (field; lra).
  split.
  - apply sqrt_le_1_alt.
    assert (0 <= B / W) by (apply Rmult_le_pos; [lra | left; now apply Rinv_0_lt_compat]).
    lra.
  - intros ->. f_equal. unfold Rdiv. ring.
Qed.

End SplitRhatBound.

(** X10.  In exact arithmetic split R-hat of a matrix with at least two
    rows whose within-chain variance is positive is at least
    [sqrt (1 - 1 / half)], [half] being the length of a split chain; it
    equals that bound when all split chains have the same mean, so values
    below 1 are returned. *)
Theorem split_rhat_lower_bound :
  forall nm : NumericMatrix R,
    wf_matrix nm -> (2 <= nrow nm)%nat ->
    exists chains : list (list R),
      let n_samples := make_even (Z.of_nat (nrow nm)) in
      let bound := R_sqrt.sqrt (1 - 1 / IZR (n_samples / 2)) in
      split_chains2 nm = Ok chains
      /\ split_potential_scale_reduction2 nm = Ok (split_rhat n_samples chains)
      /\ ((0 < var_within chains)%R -> (bound <= split_rhat n_samples chains)%R)
      /\ ((0 < var_within chains)%R -> variance (map mean chains) = 0%R ->
          split_rhat n_samples chains = bound).
Proof.
  intros nm Hwf Hn.
  pose proof Hwf as (_ & Hrows & _).
  pose proof (half_at_least_one Hn Hrows) as Hhalf.
  pose proof (split_chains2_total Hwf) as Hchains. cbv zeta in Hchains.
  eexists. cbv zeta. split; [exact Hchains |].
  split; [unfold split_potential_scale_reduction2; now rewrite Hchains |].
  assert (1 <= make_even (Z.of_nat (nrow nm)) / 2)%Z as Hhalf' by lia.
  split.
  - intros Hwithin. now apply split_rhat_from_below.
  - intros Hwithin Hbetween. now apply split_rhat_from_below.
Qed.

Lemma split_rhat_lower_bound_witness :
  exists chains : list (list R),
    split_chains2 (matrix_of_columns 4 [doubles [1; 4; 2; 3]%Z]) = Ok chains
    /\ split_potential_scale_reduction2 (matrix_of_columns 4 [doubles [1; 4; 2; 3]%Z])
       = Ok (split_rhat 4 chains)
    /\ ((0 < var_within chains)%R ->
        (R_sqrt.sqrt (1 - 1 / IZR (4 / 2)) <= split_rhat 4 chains)%R)
    /\ ((0 < var_within chains)%R -> variance (map mean chains) = 0%R ->
        split_rhat 4 chains = R_sqrt.sqrt (1 - 1 / IZR (4 / 2))).
Proof.
  apply (@split_rhat_lower_bound (matrix_of_columns 4 [doubles [1; 4; 2; 3]%Z])).
  - apply matrix_of_columns_wf; [repeat constructor | reflexivity | reflexivity].
  - simpl. lia.
Defined.

(** X11.  In exact arithmetic the simplified effective sample size of a
    matrix with a column, two rows at least, [var_plus > 0] (so that
    nothing divides by zero) and fewer than [2^32] entries is strictly
    positive. *)
Theorem effective_sample_size2_positive :
  forall (nm : NumericMatrix R) (acov : list (list R)) (mean_var var_plus : R),
    wf_matrix nm -> (2 <= nrow nm)%nat -> (1 <= ncol nm)%nat ->
    (Z.of_nat (ncol nm) * Z.of_nat (nrow nm) < 2 ^ 32)%Z ->
    ess2_moments nm = Ok (acov, mean_var, var_plus) -> (0 < var_plus)%R ->
    exists ess : R, effective_sample_size2 nm = Ok ess /\ (0 < ess)%R.
Proof.
  intros nm acov mean_var var_plus Hwf Hn Hm Hsmall Hmoments _.
  destruct (effective_sample_size2_spec Hwf Hmoments) as (_ & Hess).
  eexists. split; [exact Hess |].
  match goal with
  | |- (0 < _ / (1 + 2 * sum ?s))%R =>
      assert (0 <= sum s)%R as Hsum
        by (apply sum_nonneg, single_sequence_nonnegative)
  end.
  assert (1 <= IZR (u32 (Z.of_nat (ncol nm) * Z.of_nat (nrow nm))))%R as Hdraws.
  { apply IZR_le. unfold u32. rewrite Z.mod_small by lia. nia. }
  apply Rmult_lt_0_compat; [lra |].
  apply Rinv_0_lt_compat. lra.
Qed.

Lemma effective_sample_size2_positive_witness :
  let nm := matrix_of_columns 8 [doubles uneven_chain : list R] in
  exists (acov : list (list R)) (mean_var var_plus : R),
    ess2_moments nm = Ok (acov, mean_var, var_plus)
    /\ (0 < var_plus)%R
    /\ exists ess : R, effective_sample_size2 nm = Ok ess /\ (0 < ess)%R.
Proof.
  intros nm.
  assert (wf_matrix nm) as Hwf
    by (apply matrix_of_columns_wf; [repeat constructor | reflexivity | reflexivity]).
  assert (2 <= nrow nm)%nat as Hn by (simpl; lia).
  assert (1 <= nrow nm)%nat as Hn1 by (simpl; lia).
  assert (1 <= ncol nm)%nat as Hm by (simpl; lia).
  assert (Z.of_nat (ncol nm) * Z.of_nat (nrow nm) < 2 ^ 32)%Z as Hsmall by reflexivity.
  pose proof (ess2_moments_ok Hwf Hn1) as Hmoments. cbv zeta in Hmoments.
  assert (0 < var_plus_of (Z.of_nat (ncol nm)) (Z.of_nat (nrow nm))
                 (mean (map (fun acov_chain : list R =>
                               (nth 0 acov_chain (of_int 0) * of_int (Z.of_nat (nrow nm))
                                / of_int (u32 (Z.of_nat (nrow nm) - 1)))%D)
                            (map autocovariance (columns nm))))
                 (map mean (columns nm)))%R as Hvar
    by (exact_compute; lra).
  do 3 eexists. split; [exact Hmoments |]. split; [exact Hvar |].
  exact (@effective_sample_size2_positive nm _ _ _ Hwf Hn Hm Hsmall Hmoments Hvar).
Defined.

Section Streams.

Lemma until_spec (delim : ascii) (s : list ascii) :
  ~ In delim (fst (until delim s))
  /\ match snd (until delim s) with
     | Some rest => s = fst (until delim s) ++ delim :: rest
     | None => s = fst (until delim s)
     end.
Proof.
  induction s as [| c s (IHin & IHs)]; simpl; [auto |].
  destruct (Ascii.eqb c delim) eqn:E.
  - apply Ascii.eqb_eq in E. subst. simpl. auto.
  - apply Ascii.eqb_neq in E. destruct (until delim s) as (l, r). simpl in *.
    split; [intros [H | H]; [now apply E | now apply IHin] |].
    destruct r; now rewrite <- IHs.
Qed.

Lemma until_found (delim : ascii) (l rest : list ascii) :
  ~ In delim l -> until delim (l ++ delim :: rest) = (l, Some rest).
Proof.
  induction l as [| c l IH]; simpl; intros Hl.
  - now rewrite Ascii.eqb_refl.
  - destruct (Ascii.eqb c delim) eqn:E.
    + apply Ascii.eqb_eq in E. subst. exfalso. apply Hl. now left.
    + rewrite IH; [reflexivity |]. intros H. apply Hl. now right.
Qed.

Lemma until_not_found (delim : ascii) (s : list ascii) :
  ~ In delim s -> until delim s = (s, None).
Proof.
  induction s as [| c s IH]; simpl; intros Hs; [reflexivity |].
  destruct (Ascii.eqb c delim) eqn:E.
  - apply Ascii.eqb_eq in E. subst. exfalso. apply Hs. now left.
  - rewrite IH; [reflexivity |]. intros H. apply Hs. now right.
Qed.

Lemma to_int_type_range (c : ascii) : (0 <= to_int_type c < 256)%Z.
Proof.
  unfold to_int_type. pose proof (nat_ascii_bounded c). lia.
Qed.

Lemma to_int_type_inj (c c' : ascii) : to_int_type c = to_int_type c' -> c = c'.
Proof.
  unfold to_int_type. intros H. apply Nat2Z.inj in H.
  rewrite <- (ascii_nat_embedding c), <- (ascii_nat_embedding c'). now f_equal.
Qed.

(** The [char] a character is stored in is equal to [traits_type::eof()]
    where [char] is signed and the character is [\377]. *)
Lemma char_is_eof (char_signed : bool) (c : ascii) :
  (to_char char_signed (to_int_type c) =? traits_eof)%Z
  = char_signed && Ascii.eqb c "255"%char.
Proof.
  pose proof (to_int_type_range c) as Hc. unfold to_char, traits_eof.
  rewrite Z.mod_small by lia.
  destruct (Ascii.eqb c "255") eqn:E.
  - apply Ascii.eqb_eq in E. subst. now destruct char_signed.
  - apply Ascii.eqb_neq in E.
    assert (to_int_type c <> 255)%Z as Hne
      by (intros H; apply E; now apply to_int_type_inj).
    rewrite andb_false_r.
    destruct char_signed; simpl; [destruct (128 <=? to_int_type c)%Z |]; lia.
Qed.

Lemma char_is_hash (char_signed : bool) (c : ascii) :
  (to_char char_signed (to_int_type c) =? to_int_type hash)%Z = Ascii.eqb c hash.
Proof.
  pose proof (to_int_type_range c) as Hc. unfold to_char.
  rewrite Z.mod_small by lia.
  destruct (Ascii.eqb c hash) eqn:E.
  - apply Ascii.eqb_eq in E. subst. now destruct char_signed.
  - apply Ascii.eqb_neq in E.
    assert (to_int_type c <> to_int_type hash)%Z as Hne
      by (intros H; apply E; now apply to_int_type_inj).
    change (to_int_type hash) with 35%Z in *.
    destruct char_signed; simpl; [destruct (128 <=? to_int_type c)%Z eqn:E' |]; lia.
Qed.

End Streams.

Section ReadLoop.

Variable char_signed : bool.

Lemma read_loop_done (fuel : nat) (n i : Z) (fs : fstream) (line : list ascii)
    (comments : list (list ascii)) :
  (n <= i)%Z -> read_loop fuel char_signed n i fs line comments = Some comments.
Proof.
  intros Hi. destruct fuel; simpl;
    (destruct (i <? n)%Z eqn:E; [apply Z.ltb_lt in E; lia | reflexivity]).
Qed.

(** Once [eofbit] is set the next round returns. *)
Lemma read_loop_at_eof (fuel : nat) (n i : Z) (fs : fstream) (line : list ascii)
    (comments : list (list ascii)) :
  eofbit fs = true ->
  read_loop (S fuel) char_signed n i fs line comments = Some comments.
Proof.
  intros Heof. simpl. destruct (i <? n)%Z; [| reflexivity].
  unfold peek, good. rewrite Heof. simpl.
  destruct char_signed; simpl; [reflexivity |].
  assert (eof (ignore (setstate_failbit fs) hash) = true) as ->; [| reflexivity].
  unfold ignore, good. cbn [setstate_failbit eofbit failbit badbit].
  rewrite orb_true_r. cbn [negb orb]. exact Heof.
Qed.

(** A round at a [#]: the line is read. *)
Lemma read_loop_line (fuel : nat) (n i : Z) (before body rest line : list ascii)
    (comments : list (list ascii)) :
  (i < n)%Z -> ~ In newline body ->
  read_loop (S fuel) char_signed n i
            (fstream_at before (hash :: body ++ newline :: rest)) line comments
  = read_loop fuel char_signed n (i + 1)
              (fstream_at (newline :: rev (hash :: body) ++ before) rest)
              (hash :: body) (comments ++ [hash :: body]).
Proof.
  intros Hi Hbody. cbn [read_loop].
  apply Z.ltb_lt in Hi. rewrite Hi.
  unfold peek. cbn [good fstream_at eofbit failbit badbit orb negb remaining].
  rewrite char_is_eof, char_is_hash.
  change (Ascii.eqb hash "255") with false. rewrite andb_false_r.
  change (Ascii.eqb hash hash) with true. cbn [negb].
  unfold getline. cbn [good fstream_at eofbit failbit badbit orb negb remaining extracted].
  change (hash :: body ++ newline :: rest) with ((hash :: body) ++ newline :: rest).
  rewrite (@until_found newline (hash :: body) rest)
    by (intros [H | H]; [discriminate | now apply Hbody]).
  reflexivity.
Qed.

(** A round at a [#] with no newline after it: the rest of the file is
    the last line. *)
Lemma read_loop_last_line (fuel : nat) (n i : Z) (before body line : list ascii)
    (comments : list (list ascii)) :
  (i < n)%Z -> ~ In newline body ->
  read_loop (S (S fuel)) char_signed n i (fstream_at before (hash :: body))
            line comments
  = Some (comments ++ [hash :: body]).
Proof.
  intros Hi Hbody. cbn [read_loop].
  apply Z.ltb_lt in Hi. rewrite Hi.
  unfold peek. cbn [good fstream_at eofbit failbit badbit orb negb remaining].
  rewrite char_is_eof, char_is_hash.
  change (Ascii.eqb hash "255") with false. rewrite andb_false_r.
  change (Ascii.eqb hash hash) with true. cbn [negb].
  unfold getline. cbn [good fstream_at eofbit failbit badbit orb negb remaining extracted].
  rewrite (@until_not_found newline (hash :: body))
    by (intros [H | H]; [discriminate | now apply Hbody]).
  apply read_loop_at_eof. reflexivity.
Qed.

(** A round before data: the data are skipped up to the next [#]. *)
Lemma read_loop_skip (fuel : nat) (n i : Z) (before data rest line : list ascii)
    (comments : list (list ascii)) :
  (i < n)%Z -> data <> [] -> data_before_comment char_signed data ->
  read_loop (S fuel) char_signed n i (fstream_at before (data ++ hash :: rest))
            line comments
  = read_loop fuel char_signed n i (fstream_at (rev data ++ before) (hash :: rest))
              line comments.
Proof.
  intros Hi Hdata (Hhash & Hff). cbn [read_loop].
  apply Z.ltb_lt in Hi. rewrite Hi.
  destruct data as [| c data]; [congruence |].
  unfold peek. cbn [good fstream_at eofbit failbit badbit orb negb remaining app].
  rewrite char_is_eof, char_is_hash.
  assert (char_signed && Ascii.eqb c "255" = false) as ->.
  { destruct char_signed; [| reflexivity]. simpl.
    apply Ascii.eqb_neq. intros ->. now apply Hff. }
  assert (Ascii.eqb c hash = false) as ->
    by (apply Ascii.eqb_neq; intros ->; apply Hhash; now left).
  cbn [negb]. unfold ignore.
  cbn [good fstream_at eofbit failbit badbit orb negb remaining extracted].
  change (c :: data ++ hash :: rest) with ((c :: data) ++ hash :: rest).
  rewrite (@until_found hash (c :: data) rest Hhash).
  reflexivity.
Qed.

(** A round before a rest without [#]: the loop returns. *)
Lemma read_loop_no_hash (fuel : nat) (n i : Z) (before s line : list ascii)
    (comments : list (list ascii)) :
  ~ In hash s ->
  read_loop (S fuel) char_signed n i (fstream_at before s) line comments
  = Some comments.
Proof.
  intros Hhash. cbn [read_loop]. destruct (i <? n)%Z; [| reflexivity].
  unfold peek. cbn [good fstream_at eofbit failbit badbit orb negb remaining].
  destruct s as [| c s].
  - destruct char_signed; [reflexivity |]. reflexivity.
  - rewrite char_is_eof, char_is_hash.
    destruct (char_signed && Ascii.eqb c "255"); [reflexivity |].
    assert (Ascii.eqb c hash = false) as ->
      by (apply Ascii.eqb_neq; intros ->; apply Hhash; now left).
    cbn [negb]. unfold ignore.
    cbn [good fstream_at eofbit failbit badbit orb negb remaining extracted].
    rewrite (@until_not_found hash (c :: s) Hhash). reflexivity.
Qed.

End ReadLoop.

Section ReadLoopReturns.

Variable char_signed : bool.

(** Where [char] is signed, a round before [\377] returns. *)
Lemma read_loop_eof_char (fuel : nat) (n i : Z) (before s line : list ascii)
    (comments : list (list ascii)) :
  char_signed = true ->
  read_loop (S fuel) char_signed n i (fstream_at before ("255"%char :: s))
            line comments
  = Some comments.
Proof.
  intros ->. cbn [read_loop]. destruct (i <? n)%Z; reflexivity.
Qed.

Lemma split_at_hash (s : list ascii) :
  In hash s ->
  exists data rest : list ascii, s = data ++ hash :: rest /\ ~ In hash data.
Proof.
  intros Hin. destruct (until_spec hash s) as (Hdata & Hs).
  destruct (snd (until hash s)) as [rest |].
  - now exists (fst (until hash s)), rest.
  - exfalso. apply Hdata. now rewrite <- Hs.
Qed.

Lemma split_at_newline (s : list ascii) :
  exists body : list ascii,
    ~ In newline body
    /\ (s = body \/ exists rest : list ascii, s = body ++ newline :: rest).
Proof.
  destruct (until_spec newline s) as (Hbody & Hs).
  exists (fst (until newline s)). split; [assumption |].
  destruct (snd (until newline s)) as [rest |]; [right; now exists rest | now left].
Qed.

(** With two rounds for every character to come and two more, the loop
    returns: it adds at most [n - i] lines, each a line of comments. *)
Lemma read_loop_returns (k : nat) :
  forall (s : list ascii) (fuel : nat) (n i : Z) (before line : list ascii)
         (comments : list (list ascii)),
    (length s <= k)%nat -> (2 * k + 2 <= fuel)%nat ->
    exists more : list (list ascii),
      read_loop fuel char_signed n i (fstream_at before s) line comments
      = Some (comments ++ more)
      /\ Forall comment_line more
      /\ (Z.of_nat (length more) <= Z.max 0 (n - i))%Z.
Proof.
  induction k as [| k IH]; intros s fuel n i before line comments Hs Hfuel.
  - destruct s; [| simpl in Hs; lia].
    destruct fuel as [| fuel]; [lia |].
    exists []. rewrite read_loop_no_hash by (intros []).
    rewrite app_nil_r. repeat split; [constructor | simpl; lia].
  - destruct (Z.ltb_spec i n) as [Hi | Hi].
    2: { exists []. rewrite read_loop_done by assumption.
         rewrite app_nil_r. repeat split; [constructor | simpl; lia]. }
    assert (forall (fuel1 : nat) (before1 rest line1 : list ascii),
               (2 * k + 3 <= fuel1)%nat -> (length rest <= k)%nat ->
               exists more : list (list ascii),
                 read_loop fuel1 char_signed n i (fstream_at before1 (hash :: rest))
                           line1 comments
                 = Some (comments ++ more)
                 /\ Forall comment_line more
                 /\ (Z.of_nat (length more) <= Z.max 0 (n - i))%Z) as Hline.
    { intros fuel1 before1 rest line1 Hfuel1 Hrest.
      destruct (split_at_newline rest) as (body & Hbody & [-> | (rest' & ->)]).
      - destruct fuel1 as [| [| fuel1]]; [lia | lia |].
        exists [hash :: body]. rewrite read_loop_last_line by assumption.
        repeat split; [| simpl; lia].
        constructor; [now exists body | constructor].
      - destruct fuel1 as [| fuel1]; [lia |].
        rewrite read_loop_line by assumption.
        rewrite length_app in Hrest. simpl in Hrest.
        destruct (IH rest' fuel1 n (i + 1)%Z
                     (newline :: rev (hash :: body) ++ before1) (hash :: body)
                     (comments ++ [hash :: body]))
          as (more & Hmore & Hlines & Hcount); [lia | lia |].
        exists ((hash :: body) :: more).
        rewrite Hmore, <- app_assoc. repeat split.
        + constructor; [now exists body | assumption].
        + simpl length. lia. }
    destruct s as [| c s].
    { destruct fuel as [| fuel]; [lia |].
      exists []. rewrite read_loop_no_hash by (intros []).
      rewrite app_nil_r. repeat split; [constructor | simpl; lia]. }
    destruct (in_dec ascii_dec hash (c :: s)) as [Hin | Hout].
    2: { destruct fuel as [| fuel]; [lia |].
         exists []. rewrite read_loop_no_hash by assumption.
         rewrite app_nil_r. repeat split; [constructor | simpl; lia]. }
    destruct (split_at_hash (c :: s) Hin) as (data & rest & Hsplit & Hdata).
    rewrite Hsplit in *. rewrite length_app in Hs. simpl in Hs.
    destruct data as [| d data].
    + apply Hline; simpl; lia.
    + destruct fuel as [| fuel]; [lia |].
      destruct (char_signed && Ascii.eqb d "255") eqn:E.
      * apply andb_true_iff in E as (Hsigned & E).
        apply Ascii.eqb_eq in E. subst d.
        exists []. change (("255"%char :: data) ++ hash :: rest)
                     with ("255"%char :: (data ++ hash :: rest)).
        rewrite read_loop_eof_char by assumption.
        rewrite app_nil_r. repeat split; [constructor | simpl; lia].
      * rewrite read_loop_skip; [| assumption | discriminate |].
        -- apply Hline; simpl in *; lia.
        -- split; [assumption |]. intros Hsigned. simpl. intros H.
           injection H as ->. rewrite Hsigned in E. discriminate.
Qed.

End ReadLoopReturns.

(** X12.  [read_comments0] returns on every file that can be opened,
    whatever it holds, whatever [n], and whether [char] is signed or not:
    the loop needs no more than two rounds for every character.  It
    returns at most [n] lines, and every one starts with [#] and holds no
    newline. *)
Theorem read_comments_returns_lines_of_comments :
  forall (files : string -> option (list ascii)) (char_signed : bool)
         (filename : string) (content : list ascii) (n : Z),
    files filename = Some content ->
    exists comments : list (list ascii),
      read_comments0 files char_signed filename n = Returns comments
      /\ Forall comment_line comments
      /\ (Z.of_nat (length comments) <= Z.max 0 n)%Z.
Proof.
  intros files char_signed filename content n Hfile.
  unfold read_comments0. rewrite Hfile.
  destruct (@read_loop_returns char_signed (length content) content
              (2 * length content + 2) n 0%Z [] [] [])
    as (more & Hmore & Hlines & Hcount); [lia | lia |].
  change (fstream_at [] content) with (fstream_open content) in Hmore.
  rewrite Hmore. exists more. rewrite Z.sub_0_r in Hcount. auto.
Qed.

Lemma read_comments_returns_lines_of_comments_witness :
  exists comments : list (list ascii),
    read_comments0 (fun _ => Some (list_ascii_of_string "x,y#z")) true "samples.csv" 3
    = Returns comments
    /\ Forall comment_line comments
    /\ (Z.of_nat (length comments) <= Z.max 0 3)%Z.
Proof.
  apply (@read_comments_returns_lines_of_comments
           (fun _ => Some (list_ascii_of_string "x,y#z")) true "samples.csv"
           (list_ascii_of_string "x,y#z") 3).
  reflexivity.
Defined.

Section Blocks.

Variable char_signed : bool.

Lemma blocks_of_file_cons (data body : list ascii)
    (blocks : list (list ascii * list ascii)) (tail : list ascii) :
  blocks_of_file ((data, hash :: body) :: blocks) ++ tail
  = data ++ hash :: body ++ newline :: (blocks_of_file blocks ++ tail).
Proof.
  unfold blocks_of_file. simpl. rewrite <- !app_assoc. simpl.
  rewrite <- !app_assoc. reflexivity.
Qed.

(** On a file in blocks the loop returns the lines of comments, the first
    [n - i] of them. *)
Lemma read_loop_blocks (blocks : list (list ascii * list ascii)) :
  forall (tail : list ascii) (fuel : nat) (n i : Z) (before line : list ascii)
         (comments : list (list ascii)),
    Forall (fun block => data_before_comment char_signed (fst block)
                         /\ comment_line (snd block)) blocks ->
    ~ In hash tail ->
    (2 * length (blocks_of_file blocks ++ tail) + 2 <= fuel)%nat ->
    read_loop fuel char_signed n i (fstream_at before (blocks_of_file blocks ++ tail))
              line comments
    = Some (comments ++ firstn (Z.to_nat (n - i)) (map snd blocks)).
Proof.
  induction blocks as [| (data, comment) blocks IH];
    intros tail fuel n i before line comments Hblocks Htail Hfuel.
  - destruct fuel as [| fuel]; [lia |].
    change (blocks_of_file [] ++ tail) with tail.
    rewrite read_loop_no_hash by assumption.
    simpl map. now rewrite firstn_nil, app_nil_r.
  - destruct (Z.ltb_spec i n) as [Hi | Hi].
    2: { rewrite read_loop_done by assumption.
         replace (Z.to_nat (n - i)) with 0%nat by lia.
         simpl. now rewrite app_nil_r. }
    inversion Hblocks as [| block blocks' (Hdata & body & Hcomment & Hbody) Hrest];
      subst. simpl in Hdata, Hcomment. subst comment.
    rewrite blocks_of_file_cons in *.
    rewrite !length_app in Hfuel. simpl in Hfuel. rewrite !length_app in Hfuel.
    simpl in Hfuel.
    assert (forall (fuel1 : nat) (before1 : list ascii),
               (2 * length (blocks_of_file blocks ++ tail) + 3 <= fuel1)%nat ->
               read_loop fuel1 char_signed n i
                         (fstream_at before1
                            (hash :: body ++ newline :: (blocks_of_file blocks ++ tail)))
                         line comments
               = Some (comments
                       ++ firstn (Z.to_nat (n - i))
                                 (map snd ((data, hash :: body) :: blocks)))) as Hline.
    { intros fuel1 before1 Hfuel1.
      destruct fuel1 as [| fuel1]; [lia |].
      rewrite read_loop_line by assumption.
      rewrite IH by (try assumption; lia).
      replace (Z.to_nat (n - i)) with (S (Z.to_nat (n - (i + 1)))) by lia.
      simpl. now rewrite <- app_assoc. }
    destruct data as [| d data].
    + apply Hline. simpl in Hfuel. lia.
    + destruct fuel as [| fuel]; [lia |].
      rewrite read_loop_skip; [| assumption | discriminate | assumption].
      apply Hline. simpl in Hfuel. lia.
Qed.

End Blocks.

(** X13.  A file made of blocks, each some data without [#] followed by
    a line of comments and its newline, and ending in data without [#]:
    [read_comments0] returns the lines of comments in their order, the
    first [n] of them, all when [n] is not less than their number.  The
    data need not end in a newline, so a [#] within a line of data starts
    a comment.  (Where [char] is signed, no data starts with [\377].) *)
Theorem read_comments0_returns_the_first_comments :
  forall (files : string -> option (list ascii)) (char_signed : bool)
         (filename : string) (blocks : list (list ascii * list ascii))
         (tail : list ascii) (n : Z),
    files filename = Some (blocks_of_file blocks ++ tail) ->
    Forall (fun block => data_before_comment char_signed (fst block)
                         /\ comment_line (snd block)) blocks ->
    ~ In hash tail ->
    read_comments0 files char_signed filename n
    = Returns (firstn (Z.to_nat n) (map snd blocks))
    /\ ((Z.of_nat (length blocks) <= n)%Z ->
        read_comments0 files char_signed filename n = Returns (map snd blocks)).
Proof.
  intros files char_signed filename blocks tail n Hfile Hblocks Htail.
  assert (read_comments0 files char_signed filename n
          = Returns (firstn (Z.to_nat n) (map snd blocks))) as Hread.
  { unfold read_comments0. rewrite Hfile.
    change (fstream_open (blocks_of_file blocks ++ tail))
      with (fstream_at [] (blocks_of_file blocks ++ tail)).
    rewrite (@read_loop_blocks char_signed blocks tail _ n 0%Z [] [] [])
      by (try assumption; lia).
    now rewrite Z.sub_0_r. }
  split; [exact Hread |].
  intros Hall. rewrite Hread. f_equal. apply firstn_all2.
  rewrite length_map. lia.
Qed.

Lemma read_comments0_returns_the_first_comments_witness :
  let blocks := [([], list_ascii_of_string "# model");
                 (list_ascii_of_string "lp__,mu", list_ascii_of_string "# adapted")] in
  let tail := list_ascii_of_string "1,2" in
  read_comments0 (fun _ => Some (blocks_of_file blocks ++ tail)) true "samples.csv" 1
  = Returns (firstn (Z.to_nat 1) (map snd blocks))
  /\ ((Z.of_nat (length blocks) <= 1)%Z ->
      read_comments0 (fun _ => Some (blocks_of_file blocks ++ tail)) true "samples.csv" 1
      = Returns (map snd blocks)).
Proof.
  intros blocks tail.
  apply (@read_comments0_returns_the_first_comments
           (fun _ => Some (blocks_of_file blocks ++ tail)) true "samples.csv"
           blocks tail 1).
  - reflexivity.
  - repeat constructor; simpl;
      try (intros H; decompose [or] H; discriminate || contradiction);
      try discriminate.
    + exists (list_ascii_of_string " model"). split; [reflexivity |].
      simpl. intros H. decompose [or] H; discriminate || contradiction.
    + exists (list_ascii_of_string " adapted"). split; [reflexivity |].
      simpl. intros H. decompose [or] H; discriminate || contradiction.
  - simpl. intros H. decompose [or] H; discriminate || contradiction.
Defined.

(** X14.  [peek] is stored in a [char] before it is compared with
    [traits_type::eof()].  Where [char] is signed the character [\377] is
    taken for the end of the file: a file that starts with it has no
    comments for [read_comments0].  Where [char] is unsigned the same file,
    in blocks after that character, has all its comments read. *)
Theorem char_377_is_taken_for_the_end_of_file :
  forall (files : string -> option (list ascii)) (filename : string)
         (blocks : list (list ascii * list ascii)) (tail : list ascii) (n : Z),
    files filename = Some ("255"%char :: blocks_of_file blocks ++ tail) ->
    Forall (fun block => data_before_comment false (fst block)
                         /\ comment_line (snd block)) blocks ->
    ~ In hash tail ->
    read_comments0 files true filename n = Returns []
    /\ read_comments0 files false filename n
       = Returns (firstn (Z.to_nat n) (map snd blocks)).
Proof.
  intros files filename blocks tail n Hfile Hblocks Htail.
  unfold read_comments0. rewrite Hfile. split.
  - change (fstream_open ("255"%char :: blocks_of_file blocks ++ tail))
      with (fstream_at [] ("255"%char :: blocks_of_file blocks ++ tail)).
    replace (2 * length ("255"%char :: blocks_of_file blocks ++ tail) + 2)%nat
      with (S (2 * length ("255"%char :: blocks_of_file blocks ++ tail) + 1))
      by lia.
    now rewrite read_loop_eof_char.
  - set (fuel := (2 * length ("255"%char :: blocks_of_file blocks ++ tail) + 2)%nat).
    assert (exists (blocks' : list (list ascii * list ascii)) (tail' : list ascii),
               "255"%char :: blocks_of_file blocks ++ tail
               = blocks_of_file blocks' ++ tail'
               /\ map snd blocks' = map snd blocks
               /\ Forall (fun block => data_before_comment false (fst block)
                                       /\ comment_line (snd block)) blocks'
               /\ ~ In hash tail') as (blocks' & tail' & Hsame & Hcomments & Hok & Hno).
    { destruct blocks as [| (data, comment) blocks].
      - exists [], ("255"%char :: tail). repeat split; try assumption.
        intros [H | H]; [discriminate | now apply Htail].
      - exists (("255"%char :: data, comment) :: blocks), tail.
        inversion Hblocks as [| block blocks' ((Hdata & _) & Hcomment) Hrest]; subst.
        repeat split; try assumption; try discriminate.
        constructor; [| assumption]. split; [| assumption].
        split; [| discriminate].
        intros [H | H]; [discriminate | now apply Hdata]. }
    change (fstream_open ("255"%char :: blocks_of_file blocks ++ tail))
      with (fstream_at [] ("255"%char :: blocks_of_file blocks ++ tail)).
    subst fuel. rewrite Hsame.
    rewrite (@read_loop_blocks false blocks' tail' _ n 0%Z [] [] [])
      by (try assumption; lia).
    now rewrite Z.sub_0_r, Hcomments.
Qed.

Lemma char_377_is_taken_for_the_end_of_file_witness :
  let blocks := [([], list_ascii_of_string "# model")] in
  read_comments0 (fun _ => Some ("255"%char :: blocks_of_file blocks ++ [])) true
                 "samples.csv" 5
  = Returns []
  /\ read_comments0 (fun _ => Some ("255"%char :: blocks_of_file blocks ++ [])) false
                    "samples.csv" 5
     = Returns (firstn (Z.to_nat 5) (map snd blocks)).
Proof.
  intros blocks.
  apply (@char_377_is_taken_for_the_end_of_file
           (fun _ => Some ("255"%char :: blocks_of_file blocks ++ [])) "samples.csv"
           blocks [] 5).
  - reflexivity.
  - repeat constructor; simpl; try (intros []); try discriminate.
    exists (list_ascii_of_string " model"). split; [reflexivity |].
    simpl. intros H. decompose [or] H; discriminate || contradiction.
  - intros [].
Defined.

(** X15.  [CPP_read_comments] on a file in blocks, data without [#] then
    a line of comments, of fewer than [2^64] comments: a negative [n]
    returns all the lines of comments, [n >= 0] the first [n] of them, as
    an R character vector. *)
Theorem negative_n_reads_all_comments :
  forall (T : Type) (D : Double T) (files : string -> option (list ascii))
         (char_signed : bool) (filename : string) (n : SEXP T) (n2 : Z)
         (blocks : list (list ascii * list ascii)) (tail : list ascii),
    as_int n = Ok n2 ->
    files filename = Some (blocks_of_file blocks ++ tail) ->
    Forall (fun block => data_before_comment char_signed (fst block)
                         /\ comment_line (snd block)) blocks ->
    ~ In hash tail ->
    (Z.of_nat (length blocks) < 2 ^ 64)%Z ->
    CPP_read_comments files char_signed (RCharacter [filename]) n
    = Returns (RCharacter
                 (map string_of_list_ascii
                      (if (n2 <? 0)%Z then map snd blocks
                       else firstn (Z.to_nat n2) (map snd blocks)))).
Proof.
  intros T D files char_signed filename n n2 blocks tail Hn Hfile Hblocks Htail Hcount.
  unfold CPP_read_comments. cbn [as_string rcpp and_then]. rewrite Hn.
  cbn [rcpp and_then].
  unfold read_comments0. rewrite Hfile.
  change (fstream_open (blocks_of_file blocks ++ tail))
    with (fstream_at [] (blocks_of_file blocks ++ tail)).
  rewrite (@read_loop_blocks char_signed blocks tail _ _ 0%Z [] [] [])
    by (try assumption; lia).
  cbn [and_then app]. do 3 f_equal. rewrite Z.sub_0_r.
  destruct (Z.leb_spec 0 n2) as [Hpos | Hneg].
  - assert ((n2 <? 0)%Z = false) as -> by (apply Z.ltb_ge; lia). reflexivity.
  - assert ((n2 <? 0)%Z = true) as -> by (apply Z.ltb_lt; lia).
    apply firstn_all2. rewrite length_map. unfold SIZE_MAX.
    change (2 ^ 64)%Z with 18446744073709551616%Z in *. lia.
Qed.

Lemma negative_n_reads_all_comments_witness :
  let blocks := [([], list_ascii_of_string "# model");
                 (list_ascii_of_string "lp__,mu", list_ascii_of_string "# adapted")] in
  @CPP_read_comments float binary64
    (fun _ => Some (blocks_of_file blocks ++ [])) true
    (RCharacter ["samples.csv"%string]) (RInteger [(-1)%Z])
  = Returns (RCharacter ["# model"%string; "# adapted"%string]).
Proof.
  intros blocks.
  apply (@negative_n_reads_all_comments float binary64
           (fun _ => Some (blocks_of_file blocks ++ [])) true "samples.csv"
           (RInteger [(-1)%Z]) (-1)%Z blocks []).
  - reflexivity.
  - reflexivity.
  - repeat constructor; simpl;
      try (intros H; decompose [or] H; discriminate || contradiction);
      try discriminate.
    + exists (list_ascii_of_string " model"). split; [reflexivity |].
      simpl. intros H. decompose [or] H; discriminate || contradiction.
    + exists (list_ascii_of_string " adapted"). split; [reflexivity |].
      simpl. intros H. decompose [or] H; discriminate || contradiction.
  - intros [].
  - reflexivity.
Defined.

(** X16.  [CPP_read_comments] converts [file], then [n], and opens the
    file last: a [file] that is not one string fails with Rcpp's
    [not_compatible] whatever [n] is; with a file name, an [n] that
    [Rcpp::as<int>] refuses fails with its exception though the file is
    missing; with both converted, a file that cannot be opened fails with
    the [std::runtime_error] ["Could not open "] followed by its name. *)
Theorem read_comments_fails_in_the_order_of_its_arguments :
  forall (T : Type) (D : Double T) (files : string -> option (list ascii))
         (char_signed : bool) (file n : SEXP T),
    ((forall filename : string, file <> RCharacter [filename]) ->
     CPP_read_comments files char_signed file n
     = Fails (thrown not_compatible))
    /\ (forall (filename : string) (e : exn),
           file = RCharacter [filename] -> as_int n = Throw e ->
           CPP_read_comments files char_signed file n = Fails (thrown e))
    /\ (forall (filename : string) (n2 : Z),
           file = RCharacter [filename] -> as_int n = Ok n2 ->
           files filename = None ->
           CPP_read_comments files char_signed file n
           = Fails (runtime_error ("Could not open " ++ filename))).
Proof.
  intros T D files char_signed file n.
  repeat match goal with |- _ /\ _ => split end.
  - intros Hfile. unfold CPP_read_comments.
    assert (as_string file = Throw not_compatible) as ->; [| reflexivity].
    destruct file as [| | | [| s [| s' v]] |]; try reflexivity.
    exfalso. now apply (Hfile s).
  - intros filename e -> Hn. unfold CPP_read_comments.
    cbn [as_string rcpp and_then]. now rewrite Hn.
  - intros filename n2 -> Hn Hfile. unfold CPP_read_comments.
    cbn [as_string rcpp and_then]. rewrite Hn. cbn [rcpp and_then].
    unfold read_comments0. now rewrite Hfile.
Qed.

Section Seeds.

Lemma digits_of_uint_acc (d : Decimal.uint) :
  forall acc : positive,
    digits (NilEmpty.string_of_uint d) (Some (Z.pos acc))
    = Some (Z.pos (Pos.of_uint_acc d acc)).
Proof.
  induction d as [| d IH | d IH | d IH | d IH | d IH | d IH | d IH | d IH | d IH | d IH];
    intros acc; [reflexivity | ..];
    cbn [NilEmpty.string_of_uint Pos.of_uint_acc digits];
    match goal with
    | |- context [digit ?c] =>
        let k := eval vm_compute in (digit c) in change (digit c) with k
    end;
    cbv iota beta; rewrite <- IH; do 2 f_equal; lia.
Qed.

Lemma digits_of_uint (d : Decimal.uint) :
  digits (NilEmpty.string_of_uint d) (Some 0%Z) = Some (Z.of_N (Pos.of_uint d)).
Proof.
  induction d as [| d IH | d IH | d IH | d IH | d IH | d IH | d IH | d IH | d IH | d IH];
    [reflexivity | exact IH | ..];
    cbn [NilEmpty.string_of_uint Pos.of_uint digits];
    match goal with
    | |- context [digit ?c] =>
        let k := eval vm_compute in (digit c) in change (digit c) with k
    end;
    cbv iota beta; cbn [Z.of_N]; rewrite <- digits_of_uint_acc; reflexivity.
Qed.

(** A string that starts with a digit has no white space and no sign to
    take. *)
Lemma stoull_of_digits (c : ascii) (s : string) (k : Z) :
  digit c = Some k ->
  stoull (String c s)
  = match digits (String c s) (Some 0%Z) with
    | None => Fails (invalid_argument "stoull")
    | Some v =>
        if (ULLONG_MAX <? v)%Z then Fails (thrown (out_of_range "stoull"))
        else Returns v
    end.
Proof.
  intros Hdigit.
  assert (isspace c = false /\ c <> "-"%char /\ c <> "+"%char) as (Hspace & Hminus & Hplus).
  { destruct c as [[] [] [] [] [] [] [] []]; vm_compute in Hdigit; try discriminate;
      repeat split; try reflexivity; discriminate. }
  unfold stoull. cbn [skip_spaces]. rewrite Hspace.
  assert ((let '(negative, s0) :=
             match String c s with
             | String "-"%char s' => (true, s')
             | String "+"%char s' => (false, s')
             | _ => (false, String c s)
             end in
           match digits s0 None with
           | Some v =>
               if (ULLONG_MAX <? v)%Z then Fails (thrown (out_of_range "stoull"))
               else Returns (if negative then (- v) mod 2 ^ 64 else v)%Z
           | None => Fails (invalid_argument "stoull")
           end)
          = match digits (String c s) None with
            | Some v =>
                if (ULLONG_MAX <? v)%Z then Fails (thrown (out_of_range "stoull"))
                else Returns v
            | None => Fails (invalid_argument "stoull")
            end) as ->.
  { destruct c as [[] [] [] [] [] [] [] []]; try reflexivity; congruence. }
  cbn [digits]. rewrite Hdigit. reflexivity.
Qed.

(** What [ss << seed] writes, [std::stoull] reads. *)
Lemma stoull_show (z : Z) :
  (0 <= z)%Z ->
  stoull (show z)
  = if (ULLONG_MAX <? z)%Z then Fails (thrown (out_of_range "stoull")) else Returns z.
Proof.
  intros Hz. unfold show.
  destruct z as [| p | p]; [reflexivity | | lia].
  cbn [Z.to_int NilZero.string_of_int].
  pose proof (Unsigned.of_to p) as Hp.
  assert (exists (c : ascii) (s : string) (k : Z),
             NilZero.string_of_uint (Pos.to_uint p) = String c s
             /\ NilEmpty.string_of_uint (Pos.to_uint p) = String c s
             /\ digit c = Some k) as (c & s & k & Hshow & Hstring & Hdigit).
  { destruct (Pos.to_uint p); [discriminate | ..];
      do 3 eexists; (split; [reflexivity | split; [reflexivity |]]);
      vm_compute; reflexivity. }
  rewrite Hshow, (@stoull_of_digits c s k Hdigit), <- Hstring, digits_of_uint, Hp.
  reflexivity.
Qed.

End Seeds.

Section PermArgsLemmas.

Context {T : Type} {D : Double T}.

Lemma not_named (lst : list (string * SEXP T)) (name : string) :
  ~ In name (names lst) -> containsElementNamed lst name = false.
Proof.
  intros Hname. unfold containsElementNamed.
  destruct (existsb (String.eqb name) (names lst)) eqn:E; [| reflexivity].
  apply existsb_exists in E as (k & Hin & Hk).
  apply String.eqb_eq in Hk. subst. contradiction.
Qed.

Lemma named (lst : list (string * SEXP T)) (name : string) (x : SEXP T) :
  by_name lst name = Ok x -> containsElementNamed lst name = true.
Proof.
  unfold containsElementNamed, names.
  induction lst as [| (k, y) lst IH]; simpl; [discriminate |].
  rewrite (String.eqb_sym name k).
  destruct (String.eqb k name); [reflexivity |]. exact IH.
Qed.

End PermArgsLemmas.

(** X17.  What [perm_args_to_rlist] writes, the constructor reads: for
    arguments whose seed is an [unsigned int], the list has the elements
    [seed], [n], [chain_id] and [chains], and [perm_args] built from it has
    the same four values, whatever the clock says. *)
Theorem perm_args_round_trip :
  forall (T : Type) (D : Double T) (now : Z) (args : perm_args),
    (0 <= get_seed args < 2 ^ 32)%Z ->
    exists lst : list (string * SEXP T),
      as_List (perm_args_to_rlist args) = Ok lst
      /\ names lst = ["seed"; "n"; "chain_id"; "chains"]%string
      /\ make_perm_args now lst = Returns args.
Proof.
  intros T D now [n chains chain_id seed] Hseed. simpl in Hseed.
  eexists. split; [reflexivity |]. split; [reflexivity |].
  unfold make_perm_args. cbn -[show stoull u32].
  unfold sexp2seed. cbn -[show stoull u32].
  rewrite stoull_show by lia.
  change (2 ^ 32)%Z with 4294967296%Z in Hseed.
  destruct (Z.ltb_spec ULLONG_MAX seed) as [Hlt | _];
    [unfold ULLONG_MAX in Hlt; change (2 ^ 64)%Z with 18446744073709551616%Z in Hlt; lia |].
  cbn [and_then]. unfold u32. rewrite Z.mod_small by (change (2 ^ 32)%Z with 4294967296%Z; lia).
  reflexivity.
Qed.

Lemma perm_args_round_trip_witness :
  exists lst : list (string * SEXP float),
    as_List (perm_args_to_rlist
               {| get_n := 1000; get_chains := 4; get_chain_id := 2;
                  get_seed := 20240229 |}) = Ok lst
    /\ names lst = ["seed"; "n"; "chain_id"; "chains"]%string
    /\ make_perm_args 0 lst
       = Returns {| get_n := 1000; get_chains := 4; get_chain_id := 2;
                    get_seed := 20240229 |}.
Proof.
  apply (@perm_args_round_trip float binary64 0%Z
           {| get_n := 1000; get_chains := 4; get_chain_id := 2;
              get_seed := 20240229 |}).
  simpl. lia.
Defined.

(** X18.  What the constructor of [perm_args] asks for.  A list without
    an element [n] fails with the [std::runtime_error] of [n], also when
    [chains] is missing too; with [n], a list without [chains] fails with
    the one of [chains]; with both and neither [chain_id] nor [seed], the
    chain id is 1 and the seed is the time, as [unsigned int]. *)
Theorem perm_args_needs_n_and_chains :
  forall (T : Type) (D : Double T) (now : Z) (lst : list (string * SEXP T)),
    (~ In "n"%string (names lst) ->
     make_perm_args now lst
     = Fails (runtime_error "number of iterations kept (n) is not specified"))
    /\ (forall (x : SEXP T) (n : Z),
           by_name lst "n" = Ok x -> as_int x = Ok n ->
           ~ In "chains"%string (names lst) ->
           make_perm_args now lst
           = Fails (runtime_error "number of chains is not specified"))
    /\ (forall (x y : SEXP T) (n chains : Z),
           by_name lst "n" = Ok x -> as_int x = Ok n ->
           by_name lst "chains" = Ok y -> as_int y = Ok chains ->
           ~ In "chain_id"%string (names lst) -> ~ In "seed"%string (names lst) ->
           make_perm_args now lst
           = Returns {| get_n := n; get_chains := chains; get_chain_id := 1;
                        get_seed := u32 now |}).
Proof.
  intros T D now lst.
  repeat match goal with |- _ /\ _ => split end.
  - intros Hn. unfold make_perm_args. now rewrite not_named by exact Hn.
  - intros x n Hx Hn Hchains. unfold make_perm_args.
    rewrite (named lst "n" Hx), Hx. cbn [negb bind]. rewrite Hn. cbn [rcpp and_then].
    now rewrite not_named by exact Hchains.
  - intros x y n chains Hx Hn Hy Hchains Hid Hseed. unfold make_perm_args.
    rewrite (named lst "n" Hx), Hx. cbn [negb bind]. rewrite Hn. cbn [rcpp and_then].
    rewrite (named lst "chains" Hy), Hy. cbn [negb bind]. rewrite Hchains. cbn [rcpp and_then].
    rewrite not_named by exact Hid. rewrite not_named by exact Hseed. reflexivity.
Qed.

(** X19.  A seed given as a string of decimal digits is read by
    [std::stoull] and returned as [unsigned int]: up to [ULLONG_MAX] it is
    taken modulo [2^32] without a word, above that [std::out_of_range] is
    thrown. *)
Theorem string_seed_is_taken_modulo_2_32 :
  forall (T : Type) (D : Double T) (z : Z),
    (0 <= z)%Z ->
    sexp2seed (RCharacter [show z] : SEXP T)
    = if (z <=? ULLONG_MAX)%Z then Returns (z mod 2 ^ 32)%Z
      else Fails (thrown (out_of_range "stoull")).
Proof.
  intros T D z Hz. unfold sexp2seed. cbn [TYPEOF SEXPTYPE_eqb as_string rcpp and_then].
  rewrite stoull_show by assumption.
  destruct (Z.ltb_spec ULLONG_MAX z) as [Hlt | Hle].
  - assert ((z <=? ULLONG_MAX)%Z = false) as -> by (apply Z.leb_gt; lia). reflexivity.
  - assert ((z <=? ULLONG_MAX)%Z = true) as -> by (apply Z.leb_le; lia). reflexivity.
Qed.

Lemma string_seed_is_taken_modulo_2_32_witness :
  sexp2seed (RCharacter ["4294967297"%string] : SEXP float) = Returns 1%Z.
Proof.
  apply (@string_seed_is_taken_modulo_2_32 float binary64 4294967297%Z). lia.
Defined.

Section KeptSamples.

Context {T : Type} {D : Double T}.

(** Reading [nv[w]], [nv[w + 1]], ... [nv[w + count - 1]]. *)
Lemma read_range (nv : list T) (w count : nat) :
  (w + count <= length nv)%nat ->
  mapM (fun i => at_ nv (Z.of_nat w + Z.of_nat i)) (seq 0 count)
  = Ok (firstn count (skipn w nv)).
Proof.
  intros Hlen.
  rewrite mapM_map with (g := fun i => nth (w + i) nv (of_int 0)).
  - f_equal. apply nth_ext with (d := of_int 0) (d' := of_int 0).
    + rewrite length_map, length_seq, length_firstn, length_skipn. lia.
    + intros i Hi. rewrite length_map, length_seq in Hi.
      rewrite nth_indep with (d' := nth (w + 0) nv (of_int 0))
        by now rewrite length_map, length_seq.
      rewrite (map_nth (fun i => nth (w + i) nv (of_int 0))), seq_nth by assumption.
      rewrite nth_firstn, nth_skipn.
      assert ((i <? count)%nat = true) as -> by (apply Nat.ltb_lt; lia).
      reflexivity.
  - intros i Hi. apply in_seq in Hi.
    rewrite (at_ok nv (of_int 0)) by lia. do 2 f_equal. lia.
Qed.

(** Reading on, past the last element. *)
Lemma read_past_the_end (nv : list T) (w count : nat) :
  (w <= length nv)%nat -> (length nv < w + count)%nat ->
  mapM (fun i => at_ nv (Z.of_nat w + Z.of_nat i)) (seq 0 count) = Undefined.
Proof.
  intros Hw Hlen.
  replace count with ((length nv - w) + S (count - S (length nv - w)))%nat by lia.
  rewrite seq_app, mapM_app, read_range by lia. cbn [bind seq mapM].
  rewrite at_past_the_end by lia. reflexivity.
Qed.

End KeptSamples.

(** X20.  The mean and the autocovariance of a chain do not read the same
    draws.  With [w = warmup2[k]] and [s = n_save[k]], [0 <= w <= s], and
    [w] within the stored vector [nv]: [get_kept_samples] returns [nv]
    from [w] to its end; [apply_kept_samples], behind [get_chain_mean],
    hands over [nv[w]] to [nv[s - 1]].  They agree when [s] is the length
    of [nv]; when [s] is larger [apply_kept_samples] reads past the end of
    [nv]. *)
Theorem mean_and_autocovariance_read_different_draws :
  forall (T : Type) (D : Double T) (sim : SEXP T) (k n : Z)
         (nv : list T) (n_save warmup2 : list Z) (w s : Z),
    chain_param sim k n = Ok (nv, n_save, warmup2) ->
    at_ warmup2 k = Ok w -> at_ n_save k = Ok s ->
    (0 <= w <= s)%Z -> (w <= Z.of_nat (length nv))%Z ->
    get_kept_samples sim k n = Ok (skipn (Z.to_nat w) nv)
    /\ ((s <= Z.of_nat (length nv))%Z ->
        apply_kept_samples sim k n
        = Ok (firstn (Z.to_nat (s - w)) (skipn (Z.to_nat w) nv)))
    /\ (s = Z.of_nat (length nv) ->
        apply_kept_samples sim k n = get_kept_samples sim k n)
    /\ ((Z.of_nat (length nv) < s)%Z -> apply_kept_samples sim k n = Undefined).
Proof.
  intros T D sim k n nv n_save warmup2 w s Hparam Hw Hs Hws Hlen.
  assert (get_kept_samples sim k n = Ok (skipn (Z.to_nat w) nv)) as Hget.
  { unfold get_kept_samples. rewrite Hparam. cbn [bind]. rewrite Hw. cbn [bind].
    assert ((w <? 0)%Z = false) as -> by (apply Z.ltb_ge; lia).
    assert ((Z.of_nat (length nv) <? w)%Z = false) as -> by (apply Z.ltb_ge; lia).
    reflexivity. }
  assert (apply_kept_samples sim k n
          = mapM (fun i => at_ nv (Z.of_nat (Z.to_nat w) + Z.of_nat i))
                 (seq 0 (Z.to_nat (s - w)))) as Happly.
  { unfold apply_kept_samples. rewrite Hparam. cbn [bind]. rewrite Hw. cbn [bind].
    rewrite Hs. cbn [bind]. now rewrite Z2Nat.id by lia. }
  assert ((s <= Z.of_nat (length nv))%Z ->
          apply_kept_samples sim k n
          = Ok (firstn (Z.to_nat (s - w)) (skipn (Z.to_nat w) nv))) as Hwithin.
  { intros Hle. rewrite Happly. apply read_range. lia. }
  repeat match goal with |- _ /\ _ => split end.
  - exact Hget.
  - exact Hwithin.
  - intros ->. rewrite Hwithin, Hget by lia. f_equal.
    apply firstn_all2. rewrite length_skipn. lia.
  - intros Hgt. rewrite Happly. apply read_past_the_end; lia.
Qed.

Lemma mean_and_autocovariance_read_different_draws_witness :
  let sim := sim_of 1 1 [3]%Z [1]%Z [binary64s [10; 20; 30; 40; 50]%Z] in
  get_kept_samples sim 0 0 = Ok (binary64s [20; 30; 40; 50]%Z)
  /\ ((3 <= 5)%Z -> apply_kept_samples sim 0 0 = Ok (binary64s [20; 30]%Z))
  /\ (3%Z = 5%Z -> apply_kept_samples sim 0 0 = get_kept_samples sim 0 0)
  /\ ((5 < 3)%Z -> apply_kept_samples sim 0 0 = Undefined).
Proof.
  intros sim.
  apply (@mean_and_autocovariance_read_different_draws float binary64 sim 0%Z 0%Z
           (binary64s [10; 20; 30; 40; 50]%Z) [3]%Z [1]%Z 1%Z 3%Z).
  - reflexivity.
  - reflexivity.
  - reflexivity.
  - lia.
  - simpl. lia.
Defined.
